(** * ReliableHttpStream (lib/httpstream.js)

    A shallow embedding of the readable stream that fetches an HTTP
    resource and resumes after premature closes and transient failures,
    together with a model of the event loop that drives it, and the
    properties of the session that follow from the code.

    Conventions.
    - JavaScript numbers that count bytes are integers of [Z]; the model is
      exact below 2^53, where doubles are.
    - Buffers are [list byte]; header values and digests are [string].
    - [null]/[undefined] are [None].
    - Calls to the logger have no effect on the stream and are left out.
    - The md5 hash object is represented by the bytes it has been fed; the
      digest function itself belongs to the crypto collaborator and is a
      parameter of the development. *)

From Stdlib Require Import ZArith List String Ascii Bool Lia.
From Stdlib Require Import Decimal DecimalString DecimalZ.
Import ListNotations.

Local Open Scope Z_scope.
Local Open Scope string_scope.
Local Open Scope list_scope.

(* ================================================================== *)
(** * Data *)

Definition bytes := list Byte.byte.

Definition ReqId := nat.
Definition ResId := nat.

(** The retry policy handed to the constructor ([args.retryPolicy]). *)
Record RetryPolicy := {
  retries : nat;
  minTimeout : Z;
  maxTimeout : Z
}.

(** The default of the constructor:
    [{ retries: 3, minTimeout: 1000, maxTimeout: 10000 }]. *)
Definition default_retrypolicy : RetryPolicy :=
  {| retries := 3; minTimeout := 1000; maxTimeout := 10000 |}.

(** Errors reported by the HTTP client ([err], [err2]): a name and the
    status code, when the failure carries one. *)
Record HttpError := {
  err_name : string;
  err_statusCode : option Z
}.

(** The values the stream hands to [emit('error', ...)]. *)
Inductive StreamError :=
| Upstream (e : HttpError)
    (* an error of the client, passed on as it is *)
| EtagMismatch
    (* VError 'object changed while fetching (etag mismatch)' *)
| Md5Mismatch (expected got : string).
    (* VError 'md5 mismatch: expected %j, got %j' *)

(** A retry operation of the retry collaborator: the number of timeouts it
    still holds, and the errors recorded so far. *)
Record RetryOperation := {
  op_timeouts : nat;
  op_errors : list HttpError
}.

(** [new mod_retry.operation(policy)]: one timeout per configured retry. *)
Definition operation (p : RetryPolicy) : RetryOperation :=
  {| op_timeouts := retries p; op_errors := [] |}.

(** The response headers the stream looks at. *)
Record Headers := {
  h_content_md5 : option string;
  h_content_length : option string;
  h_etag : option string
}.

Record Response := {
  res_id : ResId;
  res_statusCode : Z;
  res_headers : Headers;
  res_has_read : bool     (* false for a pre-0.10 stream, which gets wrapped *)
}.

(** [rs_source]: the response itself, or a Readable wrapped around it. *)
Record Source := {
  src_res : ResId;
  src_wrapped : bool
}.

(** The options of [client.get]; [rq_range] is the value of the 'range'
    header, when [rqoptions.headers] is set. *)
Record RqOptions := {
  rq_path : string;
  rq_retry : RetryPolicy;
  rq_range : option string
}.

(** The fields of a ReliableHttpStream. *)
Record Stream := {
  rs_path : string;
  rs_nbytesread : Z;
  rs_nresumes : Z;
  rs_md5 : bytes;
  rs_request : option ReqId;
  rs_response : option Response;
  rs_source : option Source;
  rs_aborted : option Z;
  rs_request_pending : bool;
  rs_error : option StreamError;
  rs_reading : bool;
  rs_retrypolicy : RetryPolicy;
  rs_retry : option RetryOperation;
  rs_exp_md5 : option string;
  rs_exp_len : option Z;
  rs_exp_etag : option string
}.

(** The constructor. *)
Definition ReliableHttpStream (path : string) (retryPolicy : option RetryPolicy)
  : Stream :=
  {| rs_path := path;
     rs_nbytesread := 0;
     rs_nresumes := 0;
     rs_md5 := [];
     rs_request := None;
     rs_response := None;
     rs_source := None;
     rs_aborted := None;
     rs_request_pending := false;
     rs_error := None;
     rs_reading := false;
     rs_retrypolicy := match retryPolicy with
                       | Some p => p
                       | None => default_retrypolicy
                       end;
     rs_retry := None;
     rs_exp_md5 := None;
     rs_exp_len := None;
     rs_exp_etag := None |}.

(** Field assignments. *)
Definition set_nbytesread (v : Z) (s : Stream) : Stream :=
  {| rs_path := rs_path s; rs_nbytesread := v; rs_nresumes := rs_nresumes s;
     rs_md5 := rs_md5 s; rs_request := rs_request s;
     rs_response := rs_response s; rs_source := rs_source s;
     rs_aborted := rs_aborted s; rs_request_pending := rs_request_pending s;
     rs_error := rs_error s; rs_reading := rs_reading s;
     rs_retrypolicy := rs_retrypolicy s; rs_retry := rs_retry s;
     rs_exp_md5 := rs_exp_md5 s; rs_exp_len := rs_exp_len s;
     rs_exp_etag := rs_exp_etag s |}.

Definition set_md5 (v : bytes) (s : Stream) : Stream :=
  {| rs_path := rs_path s; rs_nbytesread := rs_nbytesread s;
     rs_nresumes := rs_nresumes s;
     rs_md5 := v; rs_request := rs_request s;
     rs_response := rs_response s; rs_source := rs_source s;
     rs_aborted := rs_aborted s; rs_request_pending := rs_request_pending s;
     rs_error := rs_error s; rs_reading := rs_reading s;
     rs_retrypolicy := rs_retrypolicy s; rs_retry := rs_retry s;
     rs_exp_md5 := rs_exp_md5 s; rs_exp_len := rs_exp_len s;
     rs_exp_etag := rs_exp_etag s |}.

Definition set_request (v : option ReqId) (s : Stream) : Stream :=
  {| rs_path := rs_path s; rs_nbytesread := rs_nbytesread s;
     rs_nresumes := rs_nresumes s;
     rs_md5 := rs_md5 s; rs_request := v;
     rs_response := rs_response s; rs_source := rs_source s;
     rs_aborted := rs_aborted s; rs_request_pending := rs_request_pending s;
     rs_error := rs_error s; rs_reading := rs_reading s;
     rs_retrypolicy := rs_retrypolicy s; rs_retry := rs_retry s;
     rs_exp_md5 := rs_exp_md5 s; rs_exp_len := rs_exp_len s;
     rs_exp_etag := rs_exp_etag s |}.

Definition set_response (v : option Response) (s : Stream) : Stream :=
  {| rs_path := rs_path s; rs_nbytesread := rs_nbytesread s;
     rs_nresumes := rs_nresumes s;
     rs_md5 := rs_md5 s; rs_request := rs_request s;
     rs_response := v; rs_source := rs_source s;
     rs_aborted := rs_aborted s; rs_request_pending := rs_request_pending s;
     rs_error := rs_error s; rs_reading := rs_reading s;
     rs_retrypolicy := rs_retrypolicy s; rs_retry := rs_retry s;
     rs_exp_md5 := rs_exp_md5 s; rs_exp_len := rs_exp_len s;
     rs_exp_etag := rs_exp_etag s |}.

Definition set_source (v : option Source) (s : Stream) : Stream :=
  {| rs_path := rs_path s; rs_nbytesread := rs_nbytesread s;
     rs_nresumes := rs_nresumes s;
     rs_md5 := rs_md5 s; rs_request := rs_request s;
     rs_response := rs_response s; rs_source := v;
     rs_aborted := rs_aborted s; rs_request_pending := rs_request_pending s;
     rs_error := rs_error s; rs_reading := rs_reading s;
     rs_retrypolicy := rs_retrypolicy s; rs_retry := rs_retry s;
     rs_exp_md5 := rs_exp_md5 s; rs_exp_len := rs_exp_len s;
     rs_exp_etag := rs_exp_etag s |}.

Definition set_aborted (v : option Z) (s : Stream) : Stream :=
  {| rs_path := rs_path s; rs_nbytesread := rs_nbytesread s;
     rs_nresumes := rs_nresumes s;
     rs_md5 := rs_md5 s; rs_request := rs_request s;
     rs_response := rs_response s; rs_source := rs_source s;
     rs_aborted := v; rs_request_pending := rs_request_pending s;
     rs_error := rs_error s; rs_reading := rs_reading s;
     rs_retrypolicy := rs_retrypolicy s; rs_retry := rs_retry s;
     rs_exp_md5 := rs_exp_md5 s; rs_exp_len := rs_exp_len s;
     rs_exp_etag := rs_exp_etag s |}.

Definition set_request_pending (v : bool) (s : Stream) : Stream :=
  {| rs_path := rs_path s; rs_nbytesread := rs_nbytesread s;
     rs_nresumes := rs_nresumes s;
     rs_md5 := rs_md5 s; rs_request := rs_request s;
     rs_response := rs_response s; rs_source := rs_source s;
     rs_aborted := rs_aborted s; rs_request_pending := v;
     rs_error := rs_error s; rs_reading := rs_reading s;
     rs_retrypolicy := rs_retrypolicy s; rs_retry := rs_retry s;
     rs_exp_md5 := rs_exp_md5 s; rs_exp_len := rs_exp_len s;
     rs_exp_etag := rs_exp_etag s |}.

Definition set_error (v : option StreamError) (s : Stream) : Stream :=
  {| rs_path := rs_path s; rs_nbytesread := rs_nbytesread s;
     rs_nresumes := rs_nresumes s;
     rs_md5 := rs_md5 s; rs_request := rs_request s;
     rs_response := rs_response s; rs_source := rs_source s;
     rs_aborted := rs_aborted s; rs_request_pending := rs_request_pending s;
     rs_error := v; rs_reading := rs_reading s;
     rs_retrypolicy := rs_retrypolicy s; rs_retry := rs_retry s;
     rs_exp_md5 := rs_exp_md5 s; rs_exp_len := rs_exp_len s;
     rs_exp_etag := rs_exp_etag s |}.

Definition set_reading (v : bool) (s : Stream) : Stream :=
  {| rs_path := rs_path s; rs_nbytesread := rs_nbytesread s;
     rs_nresumes := rs_nresumes s;
     rs_md5 := rs_md5 s; rs_request := rs_request s;
     rs_response := rs_response s; rs_source := rs_source s;
     rs_aborted := rs_aborted s; rs_request_pending := rs_request_pending s;
     rs_error := rs_error s; rs_reading := v;
     rs_retrypolicy := rs_retrypolicy s; rs_retry := rs_retry s;
     rs_exp_md5 := rs_exp_md5 s; rs_exp_len := rs_exp_len s;
     rs_exp_etag := rs_exp_etag s |}.

Definition set_retry (v : option RetryOperation) (s : Stream) : Stream :=
  {| rs_path := rs_path s; rs_nbytesread := rs_nbytesread s;
     rs_nresumes := rs_nresumes s;
     rs_md5 := rs_md5 s; rs_request := rs_request s;
     rs_response := rs_response s; rs_source := rs_source s;
     rs_aborted := rs_aborted s; rs_request_pending := rs_request_pending s;
     rs_error := rs_error s; rs_reading := rs_reading s;
     rs_retrypolicy := rs_retrypolicy s; rs_retry := v;
     rs_exp_md5 := rs_exp_md5 s; rs_exp_len := rs_exp_len s;
     rs_exp_etag := rs_exp_etag s |}.

(** The three fields populated from the first response headers. *)
Definition set_expected (md5 : option string) (len : Z) (etag : option string)
  (s : Stream) : Stream :=
  {| rs_path := rs_path s; rs_nbytesread := rs_nbytesread s;
     rs_nresumes := rs_nresumes s;
     rs_md5 := rs_md5 s; rs_request := rs_request s;
     rs_response := rs_response s; rs_source := rs_source s;
     rs_aborted := rs_aborted s; rs_request_pending := rs_request_pending s;
     rs_error := rs_error s; rs_reading := rs_reading s;
     rs_retrypolicy := rs_retrypolicy s; rs_retry := rs_retry s;
     rs_exp_md5 := md5; rs_exp_len := Some len;
     rs_exp_etag := etag |}.

(* ================================================================== *)
(** * Effects *)

(** What a handler does to its collaborators and to its consumer. *)
Inductive Action :=
| ClientGet (o : RqOptions)           (* rs_client.get(rqoptions, cb) *)
| ReqOnResult (r : ReqId)             (* req.on('result', ...) *)
| ReqAbort (r : ReqId)                (* rs_request.abort() *)
| ResDestroy (r : ResId)              (* rs_response.destroy() *)
| SrcOnEnd (r : ResId)                (* rs_source.on('end', ...) *)
| SrcOnceReadable (r : ResId)         (* source.once('readable', ...) *)
| SrcRemoveAllReadable (r : ResId)    (* removeAllListeners('readable') *)
| RetryTimer                          (* the retry operation armed its timer *)
| EmitError (e : StreamError)         (* this.emit('error', e) *)
| Push (chunk : option bytes).        (* this.push(buf), this.push(null) *)

(** Uncaught exceptions. *)
Inductive Exn :=
| AssertionError (what : string)
| TypeError (what : string).

Inductive Completion (A : Type) :=
| Normal (a : A)
| Thrown (e : Exn).
Arguments Normal {A} a.
Arguments Thrown {A} e.

(** Handlers run on the stream, perform actions in order, and may throw. *)
Definition M (A : Type) : Type :=
  Stream -> Completion A * Stream * list Action.

Definition ret {A} (a : A) : M A := fun s => (Normal a, s, []).

Definition bind {A B} (m : M A) (k : A -> M B) : M B :=
  fun s =>
    match m s with
    | (Normal a, s1, o1) =>
        match k a s1 with
        | (r, s2, o2) => (r, s2, (o1 ++ o2)%list)
        end
    | (Thrown e, s1, o1) => (Thrown e, s1, o1)
    end.

Definition get : M Stream := fun s => (Normal s, s, []).
Definition modify (f : Stream -> Stream) : M unit := fun s => (Normal tt, f s, []).
Definition emit (a : Action) : M unit := fun s => (Normal tt, s, [a]).
Definition throw {A} (e : Exn) : M A := fun s => (Thrown e, s, []).

Notation "x <- m ;; k" := (bind m (fun x => k))
  (at level 61, m at next level, right associativity).
Notation "m ;; k" := (bind m (fun _ => k))
  (at level 61, right associativity).

Definition assert_ok (b : bool) (what : string) : M unit :=
  if b then ret tt else throw (AssertionError what).

(* ================================================================== *)
(** * JavaScript helpers *)

Definition is_some {A} (o : option A) : bool :=
  match o with Some _ => true | None => false end.

(** [h || null] on a header value: undefined and the empty string give null. *)
Definition or_null (h : option string) : option string :=
  match h with
  | Some EmptyString => None
  | Some v => Some v
  | None => None
  end.

Definition is_digit (c : ascii) : bool :=
  let n := nat_of_ascii c in (Nat.leb 48 n && Nat.leb n 57)%bool.

Definition is_space (c : ascii) : bool :=
  let n := nat_of_ascii c in
  (Nat.eqb n 32 || (Nat.leb 9 n && Nat.leb n 13))%bool.

Fixpoint skip_spaces (s : string) : string :=
  match s with
  | String c r => if is_space c then skip_spaces r else s
  | EmptyString => s
  end.

Fixpoint digits_prefix (s : string) : string :=
  match s with
  | String c r => if is_digit c then String c (digits_prefix r)
                  else EmptyString
  | EmptyString => EmptyString
  end.

Definition parse_digits (s : string) : option Z :=
  match NilZero.uint_of_string (digits_prefix s) with
  | Some u => Some (Z.of_uint u)
  | None => None
  end.

(** [parseInt(h, 10)]: leading white space, an optional sign, then the
    longest run of decimal digits; [None] is NaN (also for undefined). *)
Definition parseInt (h : option string) : option Z :=
  match h with
  | None => None
  | Some s =>
      match skip_spaces s with
      | String "-" r => option_map Z.opp (parse_digits r)
      | String "+" r => parse_digits r
      | r => parse_digits r
      end
  end.

(** [n || 0] on a number: NaN and 0 give 0. *)
Definition or_zero (n : option Z) : Z :=
  match n with Some z => z | None => 0 end.

(** A number appended to a string. *)
Definition string_of_number (n : Z) : string :=
  NilZero.string_of_int (Z.to_int n).

(** [a > b] where [a] may be null, which compares as 0. *)
Definition js_gt (a : option Z) (b : Z) : bool :=
  match a with
  | Some x => x >? b
  | None => 0 >? b
  end.

(** [a !== b] for a captured header value against a header. *)
Definition strict_neq (a : string) (b : option string) : bool :=
  match b with
  | Some v => negb (String.eqb a v)
  | None => true
  end.

Definition source_of (res : Response) : Source :=
  {| src_res := res_id res; src_wrapped := negb (res_has_read res) |}.

Definition same_response (o : option Response) (r : ResId) : bool :=
  match o with
  | Some res => Nat.eqb (res_id res) r
  | None => false
  end.

(* ================================================================== *)
(** * The methods of the stream *)

(** [rs_retry.retry(err)] of the retry collaborator: records the error,
    takes the next timeout off the operation and arms the timer that calls
    the attempt function again; answers false when no timeout is left. *)
Definition retry_retry (err : HttpError) : M bool :=
  s <- get ;;
  match rs_retry s with
  | None => throw (TypeError "Cannot call method 'retry' of null")
  | Some op =>
      match op_timeouts op with
      | O =>
          modify (set_retry (Some {| op_timeouts := O;
                                     op_errors := (op_errors op ++ [err])%list |})) ;;
          ret false
      | S n =>
          modify (set_retry (Some {| op_timeouts := n;
                                     op_errors := (op_errors op ++ [err])%list |})) ;;
          emit RetryTimer ;;
          ret true
      end
  end.

(** [stopAndCleanUp]. *)
Definition stopAndCleanUp : M unit :=
  s <- get ;;
  assert_ok (is_some (rs_error s) || is_some (rs_aborted s))
            "this.rs_error || this.rs_aborted" ;;
  match rs_request s with
  | Some req => emit (ReqAbort req)
  | None => ret tt
  end ;;
  match rs_response s with
  | Some res => emit (ResDestroy (res_id res))
  | None => ret tt
  end.

(** [internalError(err)]. *)
Definition internalError (err : StreamError) : M unit :=
  modify (set_error (Some err)) ;;
  emit (EmitError err) ;;
  stopAndCleanUp.

(** [abort()]; [now] is the value of [new Date()]. *)
Definition abort (now : Z) : M unit :=
  s <- get ;;
  if is_some (rs_aborted s) then ret tt
  else
    modify (set_aborted (Some now)) ;;
    stopAndCleanUp.

(** [pump()]; [rd] is what [source.read()] returns. *)
Definition pump (rd : option bytes) : M unit :=
  s <- get ;;
  match rs_source s with
  | None => throw (TypeError "Cannot call method 'read' of null")
  | Some source =>
      match rd with
      | None => emit (SrcOnceReadable (src_res source))
      | Some buf =>
          modify (fun s => set_nbytesread
                             (rs_nbytesread s + Z.of_nat (List.length buf)) s) ;;
          modify (fun s => set_md5 (rs_md5 s ++ buf)%list s) ;;
          modify (set_reading false) ;;
          emit (Push (Some buf))
      end
  end.

(** The options of the request, as [makeRequest] builds them: no 'range'
    header while nothing has been read. *)
Definition rqoptions (s : Stream) : RqOptions :=
  {| rq_path := rs_path s;
     rq_retry := rs_retrypolicy s;
     rq_range := if rs_nbytesread s >? 0
                 then Some ("bytes=" ++ string_of_number (rs_nbytesread s) ++ "-")%string
                 else None |}.

(** [makeRequest()], up to the call of [rs_client.get]. *)
Definition makeRequest : M unit :=
  s <- get ;;
  assert_ok (negb (rs_request_pending s)) "this.rs_request_pending === false" ;;
  if is_some (rs_aborted s) then
    modify (set_reading false)
  else
    modify (set_request_pending true) ;;
    emit (ClientGet (rqoptions s)).

(** [_read()]; [rd] is handed to [pump] when the call reaches it. *)
Definition _read (rd : option bytes) : M unit :=
  s <- get ;;
  if is_some (rs_aborted s) then ret tt
  else if is_some (rs_error s) then ret tt
  else if rs_reading s then ret tt
  else
    modify (set_reading true) ;;
    if is_some (rs_response s) then pump rd
    else if rs_request_pending s then ret tt
    else
      modify (set_retry (Some (operation (rs_retrypolicy s)))) ;;
      makeRequest.

(** The callback of [rs_client.get]: [inl err] for [(err)], [inr req] for
    [(null, req)]. *)
Definition get_callback (r : HttpError + ReqId) : M unit :=
  match r with
  | inl err =>
      modify (set_reading false) ;;
      internalError (Upstream err)
  | inr req =>
      modify (set_request (Some req)) ;;
      modify (set_request_pending false) ;;
      s <- get ;;
      if is_some (rs_aborted s) then stopAndCleanUp
      else emit (ReqOnResult req)
  end.

(** The test of the 'result' listener on a failure: no status code, or a
    status code of at least 500. *)
Definition retryable (err2 : HttpError) : bool :=
  match err_statusCode err2 with
  | None => true
  | Some c => c >=? 500
  end.

(** The listener of 'result' on the request: [inl err2] for a failure,
    [inr res] for a response; [rd] is handed to [pump]. *)
Definition on_result (r : HttpError + Response) (rd : option bytes) : M unit :=
  match r with
  | inl err2 =>
      again <- (if retryable err2 then retry_retry err2 else ret false) ;;
      if again then
        modify (set_request None)
      else
        modify (set_reading false) ;;
        internalError (Upstream err2)
  | inr res =>
      modify (set_response (Some res)) ;;
      modify (set_source (Some (source_of res))) ;;
      s <- get ;;
      if match rs_exp_etag s with
         | Some t => strict_neq t (h_etag (res_headers res))
         | None => false
         end
      then
        modify (set_reading false) ;;
        internalError EtagMismatch
      else
        (if is_some (rs_exp_len s) then ret tt
         else
           modify (set_expected
                     (or_null (h_content_md5 (res_headers res)))
                     (or_zero (parseInt (h_content_length (res_headers res))))
                     (or_null (h_etag (res_headers res))))) ;;
        emit (SrcOnEnd (src_res (source_of res))) ;;
        pump rd
  end.

Section WithDigest.

(** [createHash('md5')] fed with the given bytes, [digest('base64')]. *)
Variable digest : bytes -> string.

(** [responseEnd()]. *)
Definition responseEnd : M unit :=
  s <- get ;;
  if js_gt (rs_exp_len s) (rs_nbytesread s) then
    match rs_source s with
    | None => throw (TypeError "Cannot call method 'removeAllListeners' of null")
    | Some source => emit (SrcRemoveAllReadable (src_res source))
    end ;;
    modify (set_request None) ;;
    modify (set_response None) ;;
    modify (set_source None) ;;
    modify (set_reading false) ;;
    _read None
  else
    let calcmd5 := digest (rs_md5 s) in
    match rs_exp_md5 s with
    | Some m =>
        if String.eqb m calcmd5 then emit (Push None)
        else internalError (Md5Mismatch m calcmd5)
    | None => emit (Push None)
    end.

(** The listener of 'end' on the source of response [res]. *)
Definition on_end (res : ResId) : M unit :=
  s <- get ;;
  assert_ok (same_response (rs_response s) res) "s.rs_response === res" ;;
  responseEnd.

(* ================================================================== *)
(** * The event loop around one stream *)

(** The callbacks the stream has handed out and that have not run yet. *)
Record Pending := {
  p_gets : list RqOptions;     (* calls of client.get still to call back *)
  p_results : list ReqId;      (* requests carrying the 'result' listener *)
  p_timers : nat;              (* armed timers of the retry operation *)
  p_ends : list ResId;         (* sources carrying the 'end' listener *)
  p_readables : list ResId     (* sources carrying a once('readable') listener *)
}.

Definition no_pending : Pending :=
  {| p_gets := []; p_results := []; p_timers := O; p_ends := [];
     p_readables := [] |}.

Fixpoint mem (x : nat) (l : list nat) : bool :=
  match l with
  | [] => false
  | y :: r => if Nat.eqb x y then true else mem x r
  end.

Fixpoint remove_one (x : nat) (l : list nat) : list nat :=
  match l with
  | [] => []
  | y :: r => if Nat.eqb x y then r else y :: remove_one x r
  end.

Fixpoint remove_all (x : nat) (l : list nat) : list nat :=
  match l with
  | [] => []
  | y :: r => if Nat.eqb x y then remove_all x r else y :: remove_all x r
  end.

(** The callback an action leaves behind. *)
Definition register (p : Pending) (a : Action) : Pending :=
  match a with
  | ClientGet o =>
      {| p_gets := (p_gets p ++ [o])%list; p_results := p_results p;
         p_timers := p_timers p; p_ends := p_ends p;
         p_readables := p_readables p |}
  | ReqOnResult r =>
      {| p_gets := p_gets p; p_results := r :: p_results p;
         p_timers := p_timers p; p_ends := p_ends p;
         p_readables := p_readables p |}
  | RetryTimer =>
      {| p_gets := p_gets p; p_results := p_results p;
         p_timers := S (p_timers p); p_ends := p_ends p;
         p_readables := p_readables p |}
  | SrcOnEnd r =>
      {| p_gets := p_gets p; p_results := p_results p;
         p_timers := p_timers p; p_ends := r :: p_ends p;
         p_readables := p_readables p |}
  | SrcOnceReadable r =>
      {| p_gets := p_gets p; p_results := p_results p;
         p_timers := p_timers p; p_ends := p_ends p;
         p_readables := r :: p_readables p |}
  | SrcRemoveAllReadable r =>
      {| p_gets := p_gets p; p_results := p_results p;
         p_timers := p_timers p; p_ends := p_ends p;
         p_readables := remove_all r (p_readables p) |}
  | ReqAbort _ | ResDestroy _ | EmitError _ | Push _ => p
  end.

Record World := {
  w_stream : Stream;
  w_pending : Pending;
  w_ended : list ResId;        (* sources that have emitted 'end' *)
  w_next : nat;                (* the next fresh request or response *)
  w_log : list Action;         (* all the stream has done, oldest first *)
  w_crashed : option Exn       (* an exception escaped a handler *)
}.

(** A stream that has just been constructed. *)
Definition create (path : string) (retryPolicy : option RetryPolicy) : World :=
  {| w_stream := ReliableHttpStream path retryPolicy;
     w_pending := no_pending;
     w_ended := [];
     w_next := O;
     w_log := [];
     w_crashed := None |}.

(** What the event loop can do to the stream.  The stream never removes a
    callback it has handed out (only the 'readable' listeners of a source
    it drops), so each of them may still run, whatever happened since.

    What is taken from the collaborators:
    - client.get calls back once for each call, in the order of the calls,
      and a request emits 'result' once;
    - a timer of the retry operation fires once;
    - a source emits 'end' at most once, and afterwards neither emits
      'readable' nor returns data from [read()];
    - every request and every response is a new object.
    A call back into the stream from [push] or [emit] finds the handler at
    its last statement but for the cleanup of [internalError], which only
    reads the stream; such a call is taken as the next event. *)
Inductive Event :=
| EvRead (rd : option bytes)
    (* the consumer asks for data: Readable calls _read() *)
| EvAbort (now : Z)
    (* the consumer calls abort() *)
| EvGetErr (err : HttpError)
    (* client.get calls back with an error *)
| EvGetOk
    (* client.get calls back with a new request *)
| EvResultErr (req : ReqId) (err2 : HttpError)
    (* 'result' on the request, with an error *)
| EvResultOk (req : ReqId) (statusCode : Z) (headers : Headers)
             (has_read : bool) (rd : option bytes)
    (* 'result' on the request, with a new response *)
| EvTimer
    (* the timer of the retry operation fires *)
| EvReadable (res : ResId) (rd : option bytes)
    (* 'readable' on the source of a response *)
| EvEnd (res : ResId).
    (* 'end' on the source of a response *)

(** The result of [source.read()]: null once the source has ended. *)
Definition avail (w : World) (rd : option bytes) : option bytes :=
  match rs_source (w_stream w) with
  | Some source => if mem (src_res source) (w_ended w) then None else rd
  | None => rd
  end.

(** Runs a handler in a world whose callbacks, ended sources and fresh
    handle have been brought up to date for the event. *)
Definition handle (w : World) (p : Pending) (ended : list ResId) (next : nat)
  (m : M unit) : World :=
  match m (w_stream w) with
  | (r, s, acts) =>
      {| w_stream := s;
         w_pending := fold_left register acts p;
         w_ended := ended;
         w_next := next;
         w_log := (w_log w ++ acts)%list;
         w_crashed := match r with
                      | Normal _ => None
                      | Thrown e => Some e
                      end |}
  end.

Definition with_gets (g : list RqOptions) (p : Pending) : Pending :=
  {| p_gets := g; p_results := p_results p; p_timers := p_timers p;
     p_ends := p_ends p; p_readables := p_readables p |}.
Definition with_results (r : list ReqId) (p : Pending) : Pending :=
  {| p_gets := p_gets p; p_results := r; p_timers := p_timers p;
     p_ends := p_ends p; p_readables := p_readables p |}.
Definition with_timers (n : nat) (p : Pending) : Pending :=
  {| p_gets := p_gets p; p_results := p_results p; p_timers := n;
     p_ends := p_ends p; p_readables := p_readables p |}.
Definition with_ends (e : list ResId) (p : Pending) : Pending :=
  {| p_gets := p_gets p; p_results := p_results p; p_timers := p_timers p;
     p_ends := e; p_readables := p_readables p |}.
Definition with_readables (r : list ResId) (p : Pending) : Pending :=
  {| p_gets := p_gets p; p_results := p_results p; p_timers := p_timers p;
     p_ends := p_ends p; p_readables := r |}.

(** The callback an event runs, with the callbacks still waiting, the
    sources that have ended and the next fresh handle once the event has
    been taken; [None] when the event cannot happen: no such callback is
    waiting, or the source has ended. *)
Definition dispatch (w : World) (e : Event)
  : option (Pending * list ResId * nat * M unit) :=
  let p := w_pending w in
  match e with
  | EvRead rd =>
      Some (p, w_ended w, w_next w, _read (avail w rd))
  | EvAbort now =>
      Some (p, w_ended w, w_next w, abort now)
  | EvGetErr err =>
      match p_gets p with
      | [] => None
      | _ :: g =>
          Some (with_gets g p, w_ended w, w_next w, get_callback (inl err))
      end
  | EvGetOk =>
      match p_gets p with
      | [] => None
      | _ :: g =>
          Some (with_gets g p, w_ended w, S (w_next w),
                get_callback (inr (w_next w)))
      end
  | EvResultErr req err2 =>
      if mem req (p_results p) then
        Some (with_results (remove_one req (p_results p)) p,
              w_ended w, w_next w, on_result (inl err2) None)
      else None
  | EvResultOk req sc h hr rd =>
      if mem req (p_results p) then
        Some (with_results (remove_one req (p_results p)) p,
              w_ended w, S (w_next w),
              on_result (inr {| res_id := w_next w;
                                res_statusCode := sc;
                                res_headers := h;
                                res_has_read := hr |}) rd)
      else None
  | EvTimer =>
      match p_timers p with
      | O => None
      | S n => Some (with_timers n p, w_ended w, w_next w, makeRequest)
      end
  | EvReadable res rd =>
      if (mem res (p_readables p) && negb (mem res (w_ended w)))%bool then
        Some (with_readables (remove_one res (p_readables p)) p,
              w_ended w, w_next w, pump (avail w rd))
      else None
  | EvEnd res =>
      if (mem res (p_ends p) && negb (mem res (w_ended w)))%bool then
        Some (with_ends (remove_one res (p_ends p)) p,
              res :: w_ended w, w_next w, on_end res)
      else None
  end.

(** One turn of the event loop; nothing runs any more once an exception
    has escaped a handler. *)
Definition step (w : World) (e : Event) : option World :=
  match w_crashed w with
  | Some _ => None
  | None =>
      match dispatch w e with
      | Some (p, ended, next, m) => Some (handle w p ended next m)
      | None => None
      end
  end.

(** A sequence of turns. *)
Fixpoint run (w : World) (evs : list Event) : option World :=
  match evs with
  | [] => Some w
  | e :: r =>
      match step w e with
      | Some w1 => run w1 r
      | None => None
      end
  end.

(* ================================================================== *)
(** * What the consumer sees *)

Inductive Notification :=
| OnData (chunk : bytes)
| OnEnd
| OnError (e : StreamError).

Fixpoint notifications (log : list Action) : list Notification :=
  match log with
  | [] => []
  | Push (Some buf) :: r => OnData buf :: notifications r
  | Push None :: r => OnEnd :: notifications r
  | EmitError e :: r => OnError e :: notifications r
  | _ :: r => notifications r
  end.

Definition is_terminal (n : Notification) : bool :=
  match n with
  | OnData _ => false
  | OnEnd | OnError _ => true
  end.

(** The number of 'end' and 'error' notifications in a log. *)
Definition terminals (log : list Action) : nat :=
  List.length (filter is_terminal (notifications log)).

(** The chunks handed to the consumer, in order. *)
Fixpoint chunks (log : list Action) : list bytes :=
  match log with
  | [] => []
  | Push (Some buf) :: r => buf :: chunks r
  | _ :: r => chunks r
  end.

(** The requests issued, in order. *)
Fixpoint requests (log : list Action) : list RqOptions :=
  match log with
  | [] => []
  | ClientGet o :: r => o :: requests r
  | _ :: r => requests r
  end.

(** Nothing outstanding: no request in flight, no timer armed, no response
    whose source can still emit 'end'. *)
Definition quiescent (w : World) : bool :=
  match p_gets (w_pending w), p_results (w_pending w),
        p_timers (w_pending w), p_ends (w_pending w) with
  | [], [], O, [] => true
  | _, _, _, _ => false
  end.

(* ================================================================== *)
(** * The phases of a session *)

(** Where a session stands, read off the callbacks that are waiting. *)
Inductive Phase :=
| Fresh            (* constructed, nothing asked yet *)
| Requesting       (* client.get has not called back *)
| AwaitingResult   (* the request waits for 'result' *)
| BackingOff       (* the retry timer is armed *)
| Streaming        (* a response is being read *)
| Completed        (* push(null) is done *)
| Failed           (* an error has been emitted *)
| Halted.          (* aborted, and nothing left to run *)

Definition subset_of (l m : list nat) : Prop :=
  forall x, mem x l = true -> mem x m = true.

Definition below (n : nat) (l : list nat) : Prop :=
  forall x, mem x l = true -> (x < n)%nat.

(** All the bytes handed to the consumer. *)
Definition delivered (log : list Action) : bytes := List.concat (chunks log).

(** What holds of every world a session can reach. *)
Record base_inv (w : World) : Prop := {
  bi_alive : w_crashed w = None;
  bi_md5 : rs_md5 (w_stream w) = delivered (w_log w);
  bi_nbytes :
    rs_nbytesread (w_stream w) = Z.of_nat (List.length (delivered (w_log w)));
  bi_below : below (w_next w) (w_ended w);
  bi_capture :
    rs_exp_len (w_stream w) = None ->
    rs_exp_etag (w_stream w) = None /\ rs_exp_md5 (w_stream w) = None
}.

Definition phase_inv (ph : Phase) (w : World) : Prop :=
  let s := w_stream w in
  let p := w_pending w in
  match ph with
  | Fresh =>
      p_gets p = [] /\ p_results p = [] /\ p_timers p = O /\
      p_ends p = [] /\ p_readables p = [] /\ w_log w = [] /\
      rs_aborted s = None /\ rs_error s = None /\ rs_reading s = false /\
      rs_response s = None /\ rs_request_pending s = false /\
      rs_exp_len s = None
  | Requesting =>
      p_gets p = [rqoptions s] /\ p_results p = [] /\ p_timers p = O /\
      p_ends p = [] /\ subset_of (p_readables p) (w_ended w) /\
      terminals (w_log w) = O /\ requests (w_log w) <> [] /\
      rs_error s = None /\ rs_reading s = true /\
      rs_response s = None /\ rs_request_pending s = true /\
      rs_retry s <> None
  | AwaitingResult =>
      p_gets p = [] /\ (exists req, p_results p = [req]) /\ p_timers p = O /\
      p_ends p = [] /\ subset_of (p_readables p) (w_ended w) /\
      terminals (w_log w) = O /\ requests (w_log w) <> [] /\
      rs_error s = None /\ rs_reading s = true /\
      rs_response s = None /\ rs_request_pending s = false /\
      rs_retry s <> None
  | BackingOff =>
      p_gets p = [] /\ p_results p = [] /\ p_timers p = 1%nat /\
      p_ends p = [] /\ subset_of (p_readables p) (w_ended w) /\
      terminals (w_log w) = O /\ requests (w_log w) <> [] /\
      rs_error s = None /\ rs_reading s = true /\
      rs_response s = None /\ rs_request_pending s = false /\
      rs_retry s <> None
  | Streaming =>
      exists res,
      rs_response s = Some res /\ rs_source s = Some (source_of res) /\
      p_gets p = [] /\ p_results p = [] /\ p_timers p = O /\
      p_ends p = [res_id res] /\
      subset_of (p_readables p) (res_id res :: w_ended w) /\
      mem (res_id res) (w_ended w) = false /\ (res_id res < w_next w)%nat /\
      terminals (w_log w) = O /\ requests (w_log w) <> [] /\
      rs_error s = None /\
      rs_request_pending s = false /\ rs_exp_len s <> None
  | Completed =>
      exists res,
      rs_response s = Some res /\ rs_source s = Some (source_of res) /\
      p_gets p = [] /\ p_results p = [] /\ p_timers p = O /\
      p_ends p = [] /\ subset_of (p_readables p) (w_ended w) /\
      mem (res_id res) (w_ended w) = true /\
      terminals (w_log w) = 1%nat /\ requests (w_log w) <> [] /\
      rs_error s = None
  | Failed =>
      p_gets p = [] /\ p_results p = [] /\ p_timers p = O /\
      p_ends p = [] /\ subset_of (p_readables p) (w_ended w) /\
      terminals (w_log w) = 1%nat /\ requests (w_log w) <> [] /\
      rs_error s <> None
  | Halted =>
      p_gets p = [] /\ p_results p = [] /\ p_timers p = O /\
      p_ends p = [] /\ subset_of (p_readables p) (w_ended w) /\
      terminals (w_log w) = O /\
      rs_error s = None /\ rs_aborted s <> None
  end.

(** The invariant of the event loop. *)
Definition Inv (w : World) : Prop :=
  base_inv w /\ exists ph, phase_inv ph w.

(* ================================================================== *)
(** * Handlers, one at a time *)

Definition out_stream (o : Completion unit * Stream * list Action) : Stream :=
  snd (fst o).
Definition out_actions (o : Completion unit * Stream * list Action)
  : list Action := snd o.

(** The handler an event runs. *)
Definition handler_of (e : Event) (m : M unit) : Prop :=
  match e with
  | EvRead _ => exists rd, m = _read rd
  | EvAbort now => m = abort now
  | EvGetErr err => m = get_callback (inl err)
  | EvGetOk => exists req, m = get_callback (inr req)
  | EvResultErr _ err2 => m = on_result (inl err2) None
  | EvResultOk _ sc h hr rd =>
      exists id, m = on_result (inr {| res_id := id; res_statusCode := sc;
                                       res_headers := h;
                                       res_has_read := hr |}) rd
  | EvTimer => m = makeRequest
  | EvReadable _ _ => exists rd, m = pump rd
  | EvEnd res => m = on_end res
  end.

(** A handler issues at most one request, built from the stream as it is
    when the handler starts; [fresh] tells whether the retry operation is
    a new one. *)
Definition issues (fresh : bool) (s : Stream)
  (o : Completion unit * Stream * list Action) : Prop :=
  requests (out_actions o) = [] \/
  (requests (out_actions o) = [rqoptions s] /\
   rs_nbytesread (out_stream o) = rs_nbytesread s /\
   rs_retry (out_stream o) =
     if fresh then Some (operation (rs_retrypolicy s)) else rs_retry s).

(** The three expected values of a stream. *)
Definition expected (s : Stream) : option Z * option string * option string :=
  (rs_exp_len s, rs_exp_md5 s, rs_exp_etag s).

(** The timeouts left in the retry operation of a stream, if it has one. *)
Definition op_timeouts_of (o : option RetryOperation) : nat :=
  match o with
  | Some op => op_timeouts op
  | None => O
  end.

(* ================================================================== *)
(** * A server for one resource, and a consumer that keeps asking *)

Fixpoint strip_prefix (p s : string) : option string :=
  match p, s with
  | EmptyString, _ => Some s
  | String a p', String b s' =>
      if Ascii.eqb a b then strip_prefix p' s' else None
  | _, _ => None
  end.

Fixpoint strip_dash (s : string) : option string :=
  match s with
  | EmptyString => None
  | String c r =>
      match r with
      | EmptyString => if Ascii.eqb c "-" then Some EmptyString else None
      | _ => option_map (String c) (strip_dash r)
      end
  end.

(** The first byte a request asks for: byte 0 without a 'range' header,
    byte N for 'bytes=N-'; any other header is refused. *)
Definition range_start (o : RqOptions) : option nat :=
  match rq_range o with
  | None => Some O
  | Some v =>
      match strip_prefix "bytes=" v with
      | Some r =>
          match strip_dash r with
          | Some d =>
              match NilZero.uint_of_string d with
              | Some u => Some (Z.to_nat (Z.of_uint u))
              | None => None
              end
          | None => None
          end
      | None => None
      end
  end.

(** The status and headers the server of tst.httpstream.js answers with
    ([fetchNext]) when the content starts at byte [off] of the resource
    [raw]: the checksum of the whole resource only from byte 0, the length
    of what is left, and always the same entity tag. *)
Definition respond (raw : bytes) (etag : option string) (off : nat)
  : Z * Headers :=
  (if Nat.eqb off 0 then 206 else 200,
   {| h_content_md5 := if Nat.eqb off 0 then Some (digest raw) else None;
      h_content_length :=
        Some (string_of_number (Z.of_nat (List.length raw - off)));
      h_etag := etag |}).

(** What a read of the body yields at byte [pos]: nothing yet ([None]), or
    at most [k] of the bytes that follow; a read never yields an empty
    buffer. *)
Definition body_read (raw : bytes) (pos : nat) (r : option nat)
  : option bytes :=
  match r with
  | None => None
  | Some k =>
      match firstn k (skipn pos raw) with
      | [] => None
      | b => Some b
      end
  end.

Definition read_length (rd : option bytes) : nat :=
  match rd with
  | Some b => List.length b
  | None => O
  end.

(** The reads of one connection after the first, and then its close: the
    consumer asks again after every chunk, and the source says 'readable'
    after every read that yielded nothing. *)
Fixpoint play_reads (raw : bytes) (res : ResId) (pos : nat)
  (rds : list (option nat)) (w : World) : option World :=
  match rds with
  | [] => step w (EvEnd res)
  | r :: rds' =>
      let rd := body_read raw pos r in
      let e := if mem res (p_readables (w_pending w))
               then EvReadable res rd else EvRead rd in
      match step w e with
      | Some w1 => play_reads raw res (pos + read_length rd) rds' w1
      | None => None
      end
  end.

(** One connection: the request in flight is answered from the byte it
    asks for, the body yields what [seg] says, read after read, and the
    server closes. *)
Definition play_segment (raw : bytes) (etag : option string)
  (seg : list (option nat)) (w : World) : option World :=
  match p_gets (w_pending w) with
  | [] => None
  | o :: _ =>
      match range_start o with
      | None => None
      | Some off =>
          match step w EvGetOk with
          | None => None
          | Some w1 =>
              let rd := body_read raw off (hd None seg) in
              match step w1 (EvResultOk (w_next w)
                               (fst (respond raw etag off))
                               (snd (respond raw etag off)) true rd) with
              | None => None
              | Some w2 =>
                  play_reads raw (w_next w1) (off + read_length rd)
                    (tl seg) w2
              end
          end
      end
  end.

(** Connection after connection, as long as the stream asks: those of
    [segs] first, then one that yields what [last] says and then all that
    is left. *)
Fixpoint serve (raw : bytes) (etag : option string)
  (segs : list (list (option nat))) (last : list (option nat)) (w : World)
  : option World :=
  match p_gets (w_pending w) with
  | [] => Some w
  | _ :: _ =>
      match segs with
      | [] =>
          play_segment raw etag (last ++ [Some (List.length raw)])%list w
      | seg :: segs' =>
          match play_segment raw etag seg w with
          | Some w1 => serve raw etag segs' last w1
          | None => None
          end
      end
  end.

(** A whole session: the stream is constructed, the consumer asks, and
    the resource comes over the connections. *)
Definition fetch (path : string) (pol : option RetryPolicy) (raw : bytes)
  (etag : option string) (segs : list (list (option nat)))
  (last : list (option nat)) : option World :=
  match step (create path pol) (EvRead None) with
  | Some w => serve raw etag segs last w
  | None => None
  end.

(** Where the server stands after the reads [rds] from byte [pos]. *)
Definition pos_after (raw : bytes) (pos : nat) (rds : list (option nat)) : nat :=
  fold_left (fun p r => (p + read_length (body_read raw p r))%nat) rds pos.

(** What holds of a session that [serve] is serving. *)
Definition served (raw : bytes) (w : World) : Prop :=
  let s := w_stream w in
  let pos := List.length (delivered (w_log w)) in
  w_crashed w = None /\
  rs_aborted s = None /\ rs_error s = None /\
  rs_md5 s = delivered (w_log w) /\
  rs_nbytesread s = Z.of_nat pos /\
  delivered (w_log w) = firstn pos raw /\
  notifications (w_log w) = map OnData (chunks (w_log w)) /\
  below (w_next w) (w_ended w) /\
  below (w_next w) (p_readables (w_pending w)) /\
  p_results (w_pending w) = [] /\ p_timers (w_pending w) = O.

(** The expected values when the first response came from the server of
    [raw]. *)
Definition captured (raw : bytes) (etag : option string)
  : option Z * option string * option string :=
  (Some (Z.of_nat (List.length raw)), or_null (Some (digest raw)),
   or_null etag).

(** A request is in flight. *)
Definition ready (raw : bytes) (etag : option string) (w : World) : Prop :=
  let s := w_stream w in
  served raw w /\
  p_gets (w_pending w) = [rqoptions s] /\ p_ends (w_pending w) = [] /\
  rs_request_pending s = true /\ rs_reading s = true /\
  rs_response s = None /\ rs_retry s <> None /\
  ((expected s = (None, None, None) /\
    List.length (delivered (w_log w)) = O) \/
   expected s = captured raw etag).

(** The response [res] is being read. *)
Definition reading (raw : bytes) (etag : option string) (res : ResId)
  (w : World) : Prop :=
  let s := w_stream w in
  served raw w /\
  p_gets (w_pending w) = [] /\ p_ends (w_pending w) = [res] /\
  mem res (w_ended w) = false /\ (res < w_next w)%nat /\
  (exists r, rs_response s = Some r /\ res_id r = res /\
             rs_source s = Some (source_of r)) /\
  rs_request_pending s = false /\
  expected s = captured raw etag /\
  ((rs_reading s = false /\ mem res (p_readables (w_pending w)) = false) \/
   (rs_reading s = true /\
    exists rl, p_readables (w_pending w) = res :: rl /\ mem res rl = false)).

(** The resource has come over, whole, and 'end' has been emitted. *)
Definition finished (raw : bytes) (w : World) : Prop :=
  w_crashed w = None /\ quiescent w = true /\
  delivered (w_log w) = raw /\
  notifications (w_log w) = (map OnData (chunks (w_log w)) ++ [OnEnd])%list.

(** What a connection leaves behind: a request for the rest, or the end. *)
Definition after_segment (raw : bytes) (etag : option string) (pos : nat)
  (w' : World) : Prop :=
  ((pos < List.length raw)%nat /\ ready raw etag w' /\
   List.length (delivered (w_log w')) = pos) \/
  (pos = List.length raw /\ finished raw w').


(* ================================================================== *)
(** * The server of the tests (tst.httpstream.js) *)

(** An entry of [chunks] in a test case: a number of bytes to send before
    the connection is closed, or a word ('change_etag', 'error_NNN'). *)
Inductive Chunk :=
| Size (n : nat)
| Word (s : string).

(** What the server reads of a test case; [t_md5] is [None] when the case
    has no 'md5' property or a null one. *)
Record TestCase := {
  t_chunks : list Chunk;
  t_md5 : option string
}.

(** The state the server keeps for a test case ([test_state[name]]). *)
Record TestState := {
  ts_etag : string;
  ts_raw : bytes;
  ts_md5sum : string;
  ts_nbytesread : nat;
  ts_nbytestotal : nat;
  ts_next_chunk : nat
}.

(** Objects used as maps from names. *)
Fixpoint lookup {A} (k : string) (m : list (string * A)) : option A :=
  match m with
  | [] => None
  | (k', v) :: r => if String.eqb k k' then Some v else lookup k r
  end.

Fixpoint store {A} (k : string) (v : A) (m : list (string * A))
  : list (string * A) :=
  match m with
  | [] => [(k, v)]
  | (k', v') :: r =>
      if String.eqb k k' then (k, v) :: r else (k', v') :: store k v r
  end.

(** [s.substr(0, n)] and [s.substr(n)]. *)
Fixpoint str_take (n : nat) (s : string) : string :=
  match n, s with
  | S n', String c r => String c (str_take n' r)
  | _, _ => EmptyString
  end.

Fixpoint str_drop (n : nat) (s : string) : string :=
  match n, s with
  | S n', String c r => str_drop n' r
  | _, _ => s
  end.

(** A string where one may be missing, taken as a condition. *)
Definition truthy (v : option string) : bool :=
  match v with
  | Some (String _ _) => true
  | _ => false
  end.

(** The value stored by [buf[i] = n]. *)
Definition byte_of_nat (n : nat) : Byte.byte :=
  match Byte.of_nat (n mod 256) with
  | Some b => b
  | None => Byte.x00
  end.

Definition clow : nat := nat_of_ascii "a".
Definition chigh : nat := nat_of_ascii "z".

(** The resource of a test case: [buf[i] = clow + (i % (chigh - clow))]. *)
Definition make_raw (expected_length : nat) : bytes :=
  map (fun i => byte_of_nat (clow + i mod (chigh - clow)))
      (seq 0 expected_length).

(** The sum of the numbers among the chunks. *)
Definition expected_length (chunks : list Chunk) : nat :=
  fold_left (fun len c => match c with
                          | Size n => (len + n)%nat
                          | Word _ => len
                          end) chunks O.

(** What the server writes: [writeHead(code, headers)] and [end(body)];
    the code is [None] when it is not a number. *)
Record Reply := {
  rp_code : option Z;
  rp_headers : Headers;
  rp_body : bytes
}.

Definition no_headers : Headers :=
  {| h_content_md5 := None; h_content_length := None; h_etag := None |}.

Definition next_chunk_incr (state : TestState) : TestState :=
  {| ts_etag := ts_etag state; ts_raw := ts_raw state;
     ts_md5sum := ts_md5sum state; ts_nbytesread := ts_nbytesread state;
     ts_nbytestotal := ts_nbytestotal state;
     ts_next_chunk := S (ts_next_chunk state) |}.

Definition change_etag (state : TestState) : TestState :=
  {| ts_etag := if String.eqb (ts_etag state) "etag0" then "etag1"
                else "etag0";
     ts_raw := ts_raw state;
     ts_md5sum := ts_md5sum state; ts_nbytesread := ts_nbytesread state;
     ts_nbytestotal := ts_nbytestotal state;
     ts_next_chunk := ts_next_chunk state |}.

Definition nbytesread_add (n : nat) (state : TestState) : TestState :=
  {| ts_etag := ts_etag state; ts_raw := ts_raw state;
     ts_md5sum := ts_md5sum state;
     ts_nbytesread := (ts_nbytesread state + n)%nat;
     ts_nbytestotal := ts_nbytestotal state;
     ts_next_chunk := ts_next_chunk state |}.

(** [fetchNext(req, res, t, state, offset)] from the entry [next_chunk]
    on, [rest] being the entries from there. *)
Fixpoint fetchNext_from (rest : list Chunk) (t : TestCase)
  (state : TestState) (offset : nat) : Completion Reply * TestState :=
  let state := next_chunk_incr state in
  match rest with
  | [] =>
      (Thrown (AssertionError "client requested past the end of the object"),
       state)
  | Word chunk :: rest' =>
      if String.eqb (str_take 6 chunk) "error_" then
        (Normal {| rp_code := parseInt (Some (str_drop 6 chunk));
                   rp_headers := no_headers;
                   rp_body := [] |},
         state)
      else if String.eqb chunk "change_etag" then
        fetchNext_from rest' t (change_etag state) offset
      else
        (Thrown (AssertionError "typeof (chunk) == 'number'"), state)
  | Size chunk :: _ =>
      (Normal
         {| rp_code := Some (if Nat.eqb offset 0 then 206 else 200);
            rp_headers :=
              {| h_content_md5 :=
                   if Nat.eqb offset 0 then
                     if truthy (t_md5 t) then t_md5 t
                     else Some (ts_md5sum state)
                   else None;
                 h_content_length :=
                   Some (string_of_number
                           (Z.of_nat (ts_nbytestotal state) -
                            Z.of_nat (ts_nbytesread state)));
                 h_etag := Some (ts_etag state) |};
            rp_body := firstn chunk (skipn (ts_nbytesread state)
                                           (ts_raw state)) |},
       nbytesread_add chunk state)
  end.

Definition fetchNext (t : TestCase) (state : TestState) (offset : nat)
  : Completion Reply * TestState :=
  fetchNext_from (skipn (ts_next_chunk state) (t_chunks t)) t state offset.

Definition quote : string := String (ascii_of_nat 34) EmptyString.

Definition wrong_range : Reply :=
  {| rp_code := Some 400;
     rp_headers := no_headers;
     rp_body := list_byte_of_string
                  ("client made the wrong " ++ quote ++ "Range" ++ quote
                   ++ " request") |}.

(** [handleRequest(req, res)]: [url] is [req.url], [range] is
    [req.headers['range']], using and updating [test_state]. *)
Definition handleRequest (test_cases : list (string * TestCase))
  (url : string) (range : option string)
  (test_state : list (string * TestState))
  : Completion Reply * list (string * TestState) :=
  let name := str_drop 1 url in
  match lookup name test_cases with
  | None =>
      (Thrown (AssertionError "test_cases.hasOwnProperty(name)"), test_state)
  | Some t =>
      if negb (truthy range) then
        match lookup name test_state with
        | Some _ =>
            (Thrown (AssertionError "!test_state.hasOwnProperty(name)"),
             test_state)
        | None =>
            let len := expected_length (t_chunks t) in
            let buf := make_raw len in
            let state := {| ts_etag := "etag0";
                            ts_raw := buf;
                            ts_md5sum := digest buf;
                            ts_nbytesread := O;
                            ts_nbytestotal := len;
                            ts_next_chunk := O |} in
            let (r, state') := fetchNext t state (ts_nbytesread state) in
            (r, store name state' test_state)
        end
      else
        match lookup name test_state with
        | None =>
            (Thrown (TypeError "Cannot read property 'nbytesread' of undefined"),
             test_state)
        | Some state =>
            let expected_range :=
              ("bytes=" ++ string_of_number (Z.of_nat (ts_nbytesread state))
               ++ "-")%string in
            if negb (String.eqb (match range with
                                 | Some v => v
                                 | None => EmptyString
                                 end) expected_range)
            then (Normal wrong_range, test_state)
            else
              let (r, state') := fetchNext t state (ts_nbytesread state) in
              (r, store name state' test_state)
        end
  end.

(** The entries of the test cases that run to an end or to an error of
    the server: numbers of bytes and 'error_NNN'. *)
Inductive Entry :=
| Bytes (n : nat)
| Status (code : Z).

Definition chunk_of (e : Entry) : Chunk :=
  match e with
  | Bytes n => Size n
  | Status code => Word ("error_" ++ string_of_number code)
  end.

Inductive Verdict :=
| Ends
| Fails (code : Z)
| Throws.

(** What is to come of a session that has read some bytes and has [left]
    more to read, with [budget] timeouts left in its retry operation. *)
Fixpoint expect (retries budget left : nat) (entries : list Entry)
  : Verdict :=
  match entries with
  | [] => Throws
  | Bytes n :: rest =>
      if Nat.leb left n then Ends
      else expect retries retries (left - n) rest
  | Status code :: rest =>
      if (Z.geb code 500 && negb (Nat.eqb budget 0))%bool
      then expect retries (pred budget) left rest
      else Fails code
  end.

(** The same from the first request on, when nothing has been read. *)
Definition expect_first (retries total : nat) (entries : list Entry)
  : Verdict :=
  match entries with
  | [] => Throws
  | Bytes n :: rest =>
      if Nat.eqb n total then Ends
      else if Nat.eqb n 0 then Throws
      else expect retries retries (total - n) rest
  | Status code :: _ =>
      if (Z.geb code 500 && negb (Nat.eqb retries 0))%bool
      then Throws
      else Fails code
  end.


(* ================================================================== *)
(** * The memory summary of stress-abort.js *)

(** A sample of [process.memoryUsage()]. *)
Record MemoryUsage := {
  rss : Z;
  heapTotal : Z;
  heapUsed : Z
}.

(** [mem[name]]: undefined for a name the sample has no property of. *)
Definition property (mem : MemoryUsage) (name : string) : option Z :=
  if String.eqb name "rss" then Some (rss mem)
  else if String.eqb name "heapTotal" then Some (heapTotal mem)
  else if String.eqb name "heapUsed" then Some (heapUsed mem)
  else None.

(** [a < b] and [a > b] for a property and a number: false when the
    property is undefined. *)
Definition num_lt (a : option Z) (b : Z) : bool :=
  match a with Some x => Z.ltb x b | None => false end.

Definition num_gt (a : option Z) (b : Z) : bool :=
  match a with Some x => Z.gtb x b | None => false end.

(** A low and a high watermark with the samples they were seen at. *)
Record Mark := {
  low : Z;
  low_which : nat;
  high : Z;
  high_which : nat
}.

Record Watermarks := {
  m_rss : Mark;
  m_used : Mark;
  m_total : Mark
}.

(** [if (below) { low = v; low_which = i; }
     else if (above) { high = v; high_which = i; }]. *)
Definition watch (below above : bool) (v : Z) (i : nat) (k : Mark) : Mark :=
  if below then
    {| low := v; low_which := i; high := high k; high_which := high_which k |}
  else if above then
    {| low := low k; low_which := low_which k; high := v; high_which := i |}
  else k.

(** The body of the first [forEach] of [finish]. *)
Definition sample (frNumWarmup : nat) (marks : Watermarks) (i : nat)
  (mem : MemoryUsage) : Watermarks :=
  if Nat.ltb i frNumWarmup then marks
  else
    {| m_rss :=
         watch (num_lt (property mem "rss") (low (m_rss marks)))
               (num_gt (property mem "rss") (high (m_rss marks)))
               (rss mem) i (m_rss marks);
       m_used :=
         watch (num_lt (property mem "heapUsed") (low (m_used marks)))
               (num_gt (property mem "used") (high (m_used marks)))
               (heapUsed mem) i (m_used marks);
       m_total :=
         watch (num_lt (property mem "heapTotal") (low (m_total marks)))
               (num_gt (property mem "total") (high (m_total marks)))
               (heapTotal mem) i (m_total marks) |}.

Definition mark_at (v : Z) (i : nat) : Mark :=
  {| low := v; low_which := i; high := v; high_which := i |}.

(** [array.forEach(function (x, i) ...)] from index [i] on. *)
Fixpoint forEach {A St} (f : St -> nat -> A -> St) (i : nat) (l : list A)
  (s : St) : St :=
  match l with
  | [] => s
  | x :: r => forEach f (S i) r (f s i x)
  end.

(** [finish()], up to the watermarks it prints. *)
Definition finish (frNumWarmup frNDone : nat)
  (frMemoryHistory : list MemoryUsage) : Completion Watermarks :=
  if negb (Nat.eqb (List.length frMemoryHistory) frNDone) then
    Thrown (AssertionError "frMemoryHistory.length == frNDone")
  else if negb (Nat.ltb frNumWarmup (List.length frMemoryHistory)) then
    Thrown (AssertionError "frMemoryHistory.length > frNumWarmup")
  else
    match nth_error frMemoryHistory frNumWarmup with
    | None => Thrown (TypeError "Cannot read property 'rss' of undefined")
    | Some first =>
        Normal (forEach (sample frNumWarmup) O frMemoryHistory
                  {| m_rss := mark_at (rss first) frNumWarmup;
                     m_used := mark_at (heapUsed first) frNumWarmup;
                     m_total := mark_at (heapTotal first) frNumWarmup |})
    end.

(* ================================================================== *)
(** * What is kept along a session *)

Fixpoint data_of (ns : list Notification) : list bytes :=
  match ns with
  | [] => []
  | OnData b :: r => b :: data_of r
  | _ :: r => data_of r
  end.

(** The bytes the consumer has, the length and the checksum agree. *)
Definition verified (w : World) : Prop :=
  exists len,
    rs_exp_len (w_stream w) = Some len /\
    len <= Z.of_nat (List.length (delivered (w_log w))) /\
    forall m, rs_exp_md5 (w_stream w) = Some m ->
              m = digest (delivered (w_log w)).

(** The first response declared no length, or none above 0, and the
    stream holds a response or has failed. *)
Definition settled (s : Stream) : Prop :=
  (exists len, rs_exp_len s = Some len /\ len <= 0) /\
  0 <= rs_nbytesread s /\
  (rs_response s <> None \/ rs_error s <> None).

(** The retry operation of a stream has recorded one failure for each
    timeout it has given out, and one more once it has refused. *)
Definition budget_kept (s : Stream) : Prop :=
  forall op, rs_retry s = Some op ->
    (op_timeouts op + List.length (op_errors op))%nat
      = retries (rs_retrypolicy s) \/
    (op_timeouts op = O /\
     List.length (op_errors op) = S (retries (rs_retrypolicy s)) /\
     rs_error s <> None).

(** While a response is being read, a read is in progress exactly when the
    stream waits for its source to become readable, and then with one
    listener. *)
Definition listening (w : World) : Prop :=
  forall res,
    rs_response (w_stream w) = Some res ->
    mem (res_id res) (w_ended w) = false ->
    (rs_reading (w_stream w) = false /\
     mem (res_id res) (p_readables (w_pending w)) = false) \/
    (rs_reading (w_stream w) = true /\
     exists rl, p_readables (w_pending w) = res_id res :: rl /\
                mem (res_id res) rl = false).

(** The request of the exchange in progress is the one the stream holds,
    and it holds none between two exchanges. *)
Definition exchange (w : World) : Prop :=
  (forall req, p_results (w_pending w) = [req] ->
               rs_request (w_stream w) = Some req) /\
  (p_ends (w_pending w) <> [] -> rs_request (w_stream w) <> None) /\
  (rs_aborted (w_stream w) = None ->
   p_results (w_pending w) = [] -> p_ends (w_pending w) = [] ->
   terminals (w_log w) = O -> rs_request (w_stream w) = None).

(** The path and the retry policy of a stream, which no turn changes. *)
Definition setup (w : World) : string * RetryPolicy :=
  (rs_path (w_stream w), rs_retrypolicy (w_stream w)).

(** What a connection leaves behind, with the retry operation of the
    request that follows it. *)
Definition after_hearing (raw : bytes) (etag : option string) (pos : nat)
  (w w' : World) : Prop :=
  after_segment raw etag pos w' /\
  setup w' = setup w /\
  (p_gets (w_pending w') <> [] ->
   rs_retry (w_stream w') = Some (operation (snd (setup w)))).

(* ================================================================== *)
(** * The books of the server *)





(** The other of the two entity tags. *)
Definition other_etag (etag : string) : string :=
  if String.eqb etag "etag0" then "etag1" else "etag0".

(** A status code that the client takes for an error. *)
Definition is_failure (e : Entry) : Prop :=
  match e with
  | Bytes _ => True
  | Status code => 400 <= code
  end.

(* ================================================================== *)
(** * Watermarks over a history *)

(** The low watermark over the samples from [warm] up to [j]: the least
    value, with the first sample that has it. *)
Definition low_of (get : MemoryUsage -> Z) (hist : list MemoryUsage)
  (warm j : nat) (k : Mark) : Prop :=
  (warm <= low_which k < j)%nat /\
  (exists m, nth_error hist (low_which k) = Some m /\ get m = low k) /\
  (forall i m, nth_error hist i = Some m -> (warm <= i < j)%nat ->
               low k <= get m) /\
  (forall i m, nth_error hist i = Some m -> (warm <= i < low_which k)%nat ->
               low k < get m).

(** The same for the high watermark. *)
Definition high_of (get : MemoryUsage -> Z) (hist : list MemoryUsage)
  (warm j : nat) (k : Mark) : Prop :=
  (warm <= high_which k < j)%nat /\
  (exists m, nth_error hist (high_which k) = Some m /\ get m = high k) /\
  (forall i m, nth_error hist i = Some m -> (warm <= i < j)%nat ->
               get m <= high k) /\
  (forall i m, nth_error hist i = Some m -> (warm <= i < high_which k)%nat ->
               get m < high k).

(** What the loop of [finish] has found when it has passed [j] samples. *)
Definition summed (hist : list MemoryUsage) (warm : nat)
  (first : MemoryUsage) (j : nat) (marks : Watermarks) : Prop :=
  ((j <= warm)%nat /\
   marks = {| m_rss := mark_at (rss first) warm;
              m_used := mark_at (heapUsed first) warm;
              m_total := mark_at (heapTotal first) warm |}) \/
  ((warm < j)%nat /\
   low_of rss hist warm j (m_rss marks) /\
   high_of rss hist warm j (m_rss marks) /\
   low_of heapUsed hist warm j (m_used marks) /\
   high (m_used marks) = heapUsed first /\
   high_which (m_used marks) = warm /\
   low_of heapTotal hist warm j (m_total marks) /\
   high (m_total marks) = heapTotal first /\
   high_which (m_total marks) = warm).

(* ================================================================== *)
(** * Lists and logs *)

Lemma notifications_app (a b : list Action) :
  notifications (a ++ b) = (notifications a ++ notifications b)%list.
Proof.
  induction a as [|x a IH]; simpl; [reflexivity|].
  destruct x as [| | | | | | | | |[c|]]; simpl; rewrite ?IH; reflexivity.
Qed.

Lemma terminals_app (a b : list Action) :
  terminals (a ++ b) = (terminals a + terminals b)%nat.
Proof.
  unfold terminals.
  rewrite notifications_app, filter_app, length_app. reflexivity.
Qed.

Lemma chunks_app (a b : list Action) :
  chunks (a ++ b) = (chunks a ++ chunks b)%list.
Proof.
  induction a as [|x a IH]; simpl; [reflexivity|].
  destruct x as [| | | | | | | | |[c|]]; simpl; rewrite ?IH; reflexivity.
Qed.

Lemma requests_app (a b : list Action) :
  requests (a ++ b) = (requests a ++ requests b)%list.
Proof.
  induction a as [|x a IH]; simpl; [reflexivity|].
  destruct x; simpl; rewrite ?IH; reflexivity.
Qed.

Lemma delivered_app (a b : list Action) :
  delivered (a ++ b) = (delivered a ++ delivered b)%list.
Proof.
  unfold delivered. rewrite chunks_app, concat_app. reflexivity.
Qed.

Lemma mem_remove_one (x y : nat) (l : list nat) :
  mem x (remove_one y l) = true -> mem x l = true.
Proof.
  induction l as [|z l IH]; simpl; [auto|].
  destruct (Nat.eqb y z) eqn:E.
  - intros H. rewrite H. destruct (Nat.eqb x z); reflexivity.
  - simpl. destruct (Nat.eqb x z); auto.
Qed.

Lemma mem_remove_all (x y : nat) (l : list nat) :
  mem x (remove_all y l) = true -> mem x l = true /\ x <> y.
Proof.
  induction l as [|z l IH]; simpl; [discriminate|].
  destruct (Nat.eqb y z) eqn:E.
  - intros H. destruct (IH H) as [H1 H2]. rewrite H1.
    destruct (Nat.eqb x z); auto.
  - simpl. destruct (Nat.eqb x z) eqn:E2; [|auto].
    intros _. split; [reflexivity|].
    apply Nat.eqb_eq in E2. apply Nat.eqb_neq in E. congruence.
Qed.

Lemma mem_cons_iff (x y : nat) (l : list nat) :
  mem x (y :: l) = true <-> x = y \/ mem x l = true.
Proof.
  simpl. destruct (Nat.eqb x y) eqn:E.
  - apply Nat.eqb_eq in E. tauto.
  - apply Nat.eqb_neq in E. tauto.
Qed.

Lemma subset_of_nil (m : list nat) : subset_of [] m.
Proof. intros x H. discriminate H. Qed.

Lemma subset_of_remove_one (y : nat) (l m : list nat) :
  subset_of l m -> subset_of (remove_one y l) m.
Proof. intros H x Hx. apply H. eapply mem_remove_one; eauto. Qed.

Lemma subset_of_cons_r (y : nat) (l m : list nat) :
  subset_of l m -> subset_of l (y :: m).
Proof. intros H x Hx. apply mem_cons_iff. right. auto. Qed.

Lemma subset_of_cons_l (y : nat) (l m : list nat) :
  mem y m = true -> subset_of l m -> subset_of (y :: l) m.
Proof.
  intros Hy H x Hx. apply mem_cons_iff in Hx. destruct Hx as [->|Hx]; auto.
Qed.

Lemma subset_of_remove_all (y : nat) (l m : list nat) :
  subset_of l (y :: m) -> subset_of (remove_all y l) m.
Proof.
  intros H x Hx. apply mem_remove_all in Hx. destruct Hx as [H1 H2].
  apply H in H1. apply mem_cons_iff in H1. tauto.
Qed.

Lemma below_cons (n y : nat) (l : list nat) :
  (y < n)%nat -> below n l -> below n (y :: l).
Proof.
  intros Hy H x Hx. apply mem_cons_iff in Hx. destruct Hx as [->|Hx]; auto.
Qed.

Lemma below_S (n : nat) (l : list nat) : below n l -> below (S n) l.
Proof. intros H x Hx. specialize (H x Hx). lia. Qed.

Lemma below_fresh (n : nat) (l : list nat) : below n l -> mem n l = false.
Proof.
  intros H. destruct (mem n l) eqn:E; [|reflexivity].
  specialize (H n E). lia.
Qed.

Lemma delivered_nil : delivered [] = [].
Proof. reflexivity. Qed.

Lemma delivered_cons (a : Action) (l : list Action) :
  delivered (a :: l) =
  match a with
  | Push (Some buf) => (buf ++ delivered l)%list
  | _ => delivered l
  end.
Proof. destruct a as [| | | | | | | | |[c|]]; reflexivity. Qed.

Lemma terminals_nil : terminals [] = O.
Proof. reflexivity. Qed.

Lemma terminals_cons (a : Action) (l : list Action) :
  terminals (a :: l) =
  match a with
  | Push None | EmitError _ => S (terminals l)
  | _ => terminals l
  end.
Proof. destruct a as [| | | | | | | | |[c|]]; reflexivity. Qed.

Arguments delivered : simpl never.
Arguments terminals : simpl never.

Lemma mem_head (x : nat) (l : list nat) : mem x (x :: l) = true.
Proof. simpl. rewrite Nat.eqb_refl. reflexivity. Qed.

Lemma nonempty_app {A} (l m : list A) : l <> [] -> (l ++ m)%list <> [].
Proof. destruct l; simpl; congruence. Qed.

Lemma nonempty_snoc {A} (l : list A) (x : A) : (l ++ [x])%list <> [].
Proof. destruct l; simpl; congruence. Qed.

Create HintDb stream_db.
#[local] Hint Resolve subset_of_nil subset_of_remove_one subset_of_cons_r
  subset_of_cons_l subset_of_remove_all below_cons below_S below_fresh
  mem_head nonempty_app nonempty_snoc : stream_db.

(* ================================================================== *)
(** * The invariant is kept by every turn *)

Lemma Inv_create (path : string) (pol : option RetryPolicy) :
  Inv (create path pol).
Proof.
  split.
  - constructor; simpl; auto. intros x H. discriminate H.
  - exists Fresh. simpl. repeat split; reflexivity.
Qed.

(** Symbolic execution of one turn: the world is opened up into its
    fields, the handler is reduced, and every test it meets is split. *)
Ltac scrutinee x :=
  first [ is_var x
        | match x with
          | mem _ _ => idtac
          | Nat.eqb _ _ => idtac
          | String.eqb _ _ => idtac
          | Z.gtb _ _ => idtac
          | Z.geb _ _ => idtac
          | js_gt _ _ => idtac
          | retryable _ => idtac
          | strict_neq _ _ => idtac
          | andb _ _ => idtac
          | op_timeouts _ => idtac
          | same_response _ _ => idtac
          end ].

Ltac red1_in H :=
  cbn -[Z.gtb Z.geb Z.add Z.of_nat String.eqb string_of_number retryable
        strict_neq parseInt or_null or_zero js_gt rqoptions andb] in H.

(** Assignments are carried out at once, so that states stay flat. *)
Ltac flat_in H :=
  cbv beta iota delta
    [set_nbytesread set_md5 set_request set_response set_source set_aborted
     set_request_pending set_error set_reading set_retry set_expected
     with_gets with_results with_timers with_ends with_readables
     rs_path rs_nbytesread rs_nresumes rs_md5 rs_request rs_response
     rs_source rs_aborted rs_request_pending rs_error rs_reading
     rs_retrypolicy rs_retry rs_exp_md5 rs_exp_len rs_exp_etag
     p_gets p_results p_timers p_ends p_readables] in H.

Ltac flat :=
  cbv beta iota delta
    [set_nbytesread set_md5 set_request set_response set_source set_aborted
     set_request_pending set_error set_reading set_retry set_expected
     with_gets with_results with_timers with_ends with_readables
     rs_path rs_nbytesread rs_nresumes rs_md5 rs_request rs_response
     rs_source rs_aborted rs_request_pending rs_error rs_reading
     rs_retrypolicy rs_retry rs_exp_md5 rs_exp_len rs_exp_etag
     p_gets p_results p_timers p_ends p_readables
     w_stream w_pending w_ended w_next w_log w_crashed].

Ltac red_in H :=
  red1_in H; rewrite ?Nat.eqb_refl in H; red1_in H; flat_in H.

Ltac break_hyp H :=
  repeat (match type of H with
          | context [is_some ?y] => is_var y; destruct y eqn:?
          | context [match ?x with _ => _ end] =>
              scrutinee x; destruct x eqn:?; try discriminate H
          | context [if ?x then _ else _] =>
              scrutinee x; destruct x eqn:?; try discriminate H
          end; red_in H).

Ltac unpack_world w :=
  destruct w as [s p ended next log crashed];
  destruct s; destruct p;
  cbn [w_stream w_pending w_ended w_next w_log w_crashed] in *.

Ltac split_mem :=
  repeat match goal with
         | H : (_ && _)%bool = true |- _ => apply andb_prop in H; destruct H
         | H : negb _ = true |- _ => apply negb_true_iff in H
         | H : Nat.eqb _ _ = true |- _ => apply Nat.eqb_eq in H; subst
         | H : subset_of ?l ?m, H1 : mem ?x ?l = true,
           H2 : mem ?x ?m = false |- _ =>
             exfalso; rewrite (H x H1) in H2; discriminate H2
         end.

Ltac run_event Hs :=
  unfold step, dispatch, handle in Hs; red_in Hs; try discriminate Hs;
  repeat match type of Hs with
         | context [Nat.eqb ?a ?b] =>
             destruct (Nat.eqb_spec a b); [subst|]; red_in Hs;
             try discriminate Hs
         end;
  break_hyp Hs;
  injection Hs as <-; split_mem; flat.

Ltac leaf :=
  cbn;
  rewrite ?terminals_app, ?requests_app, ?delivered_app, ?notifications_app;
  rewrite ?terminals_cons, ?terminals_nil, ?delivered_cons, ?delivered_nil;
  cbn;
  rewrite ?app_nil_r, ?length_app, ?Nat.add_0_r, ?Nat.eqb_refl;
  try solve [ reflexivity | assumption | discriminate | congruence | lia
            | intros; discriminate
            | auto with stream_db
            | eexists; reflexivity ].

Ltac conjuncts := repeat (split; [solve [leaf]|]); solve [leaf].

Ltac try_phase ph := exists ph; cbn; conjuncts.

Ltac try_phase_ex ph :=
  exists ph; cbn; eexists; split; [reflexivity|]; conjuncts.

Ltac pick_phase :=
  first [ try_phase Fresh | try_phase Requesting | try_phase AwaitingResult
        | try_phase BackingOff | try_phase_ex Streaming
        | try_phase_ex Completed | try_phase Failed | try_phase Halted ].

Ltac open_phase w B P :=
  destruct B as [Ba Bm Bn Bb Bc];
  unpack_world w; simpl in *; decompose [and ex] P; clear P; subst;
  repeat match goal with
         | H : ?x <> None |- _ => is_var x; destruct x; [clear H | congruence]
         | r : RetryOperation |- _ => destruct r as [[|?] ?]
         end.

Ltac phase_step w e Hs B P :=
  open_phase w B P;
  destruct e; run_event Hs;
  (split; [ constructor; solve [leaf] | pick_phase ]).

Lemma step_Fresh (w w' : World) (e : Event) :
  base_inv w -> phase_inv Fresh w -> step w e = Some w' -> Inv w'.
Proof. intros B P Hs. phase_step w e Hs B P. Qed.

Lemma step_Requesting (w w' : World) (e : Event) :
  base_inv w -> phase_inv Requesting w -> step w e = Some w' -> Inv w'.
Proof. intros B P Hs. phase_step w e Hs B P. Qed.

Lemma step_AwaitingResult (w w' : World) (e : Event) :
  base_inv w -> phase_inv AwaitingResult w -> step w e = Some w' -> Inv w'.
Proof. intros B P Hs. phase_step w e Hs B P. Qed.

Lemma step_BackingOff (w w' : World) (e : Event) :
  base_inv w -> phase_inv BackingOff w -> step w e = Some w' -> Inv w'.
Proof. intros B P Hs. phase_step w e Hs B P. Qed.

Lemma step_Streaming (w w' : World) (e : Event) :
  base_inv w -> phase_inv Streaming w -> step w e = Some w' -> Inv w'.
Proof. intros B P Hs. phase_step w e Hs B P. Qed.

(** The three phases without a callback left are never left again, and
    nothing more is said to the consumer or asked of the client. *)
Ltac stable_step w e Hs B P :=
  open_phase w B P;
  destruct e; run_event Hs;
  (split; [ constructor; solve [leaf]
          | split; [ first [ cbn; eexists; split; [reflexivity|]; conjuncts
                           | cbn; conjuncts ]
                   | split; solve [leaf] ] ]).

Lemma step_Completed (w w' : World) (e : Event) :
  base_inv w -> phase_inv Completed w -> step w e = Some w' ->
  base_inv w' /\ phase_inv Completed w' /\
  notifications (w_log w') = notifications (w_log w) /\
  requests (w_log w') = requests (w_log w).
Proof. intros B P Hs. stable_step w e Hs B P. Qed.

Lemma step_Failed (w w' : World) (e : Event) :
  base_inv w -> phase_inv Failed w -> step w e = Some w' ->
  base_inv w' /\ phase_inv Failed w' /\
  notifications (w_log w') = notifications (w_log w) /\
  requests (w_log w') = requests (w_log w).
Proof. intros B P Hs. stable_step w e Hs B P. Qed.

Lemma step_Halted (w w' : World) (e : Event) :
  base_inv w -> phase_inv Halted w -> step w e = Some w' ->
  base_inv w' /\ phase_inv Halted w' /\
  notifications (w_log w') = notifications (w_log w) /\
  requests (w_log w') = requests (w_log w).
Proof. intros B P Hs. stable_step w e Hs B P. Qed.

Lemma Inv_step (w w' : World) (e : Event) :
  Inv w -> step w e = Some w' -> Inv w'.
Proof.
  intros [B [ph P]] Hs. destruct ph.
  - eapply step_Fresh; eauto.
  - eapply step_Requesting; eauto.
  - eapply step_AwaitingResult; eauto.
  - eapply step_BackingOff; eauto.
  - eapply step_Streaming; eauto.
  - destruct (step_Completed _ _ _ B P Hs) as (B' & P' & _).
    split; [exact B' | exists Completed; exact P'].
  - destruct (step_Failed _ _ _ B P Hs) as (B' & P' & _).
    split; [exact B' | exists Failed; exact P'].
  - destruct (step_Halted _ _ _ B P Hs) as (B' & P' & _).
    split; [exact B' | exists Halted; exact P'].
Qed.

Lemma Inv_run (evs : list Event) (w w' : World) :
  Inv w -> run w evs = Some w' -> Inv w'.
Proof.
  revert w. induction evs as [|e evs IH]; simpl; intros w I H.
  - injection H as <-. exact I.
  - destruct (step w e) as [w1|] eqn:E; [|discriminate].
    eapply IH; [|exact H]. eapply Inv_step; eauto.
Qed.

(** Every world a session reaches from its construction. *)
Lemma Inv_reachable (path : string) (pol : option RetryPolicy)
  (evs : list Event) (w : World) :
  run (create path pol) evs = Some w -> Inv w.
Proof. apply Inv_run, Inv_create. Qed.

Lemma run_app (evs1 evs2 : list Event) (w : World) :
  run w (evs1 ++ evs2) =
  match run w evs1 with
  | Some w1 => run w1 evs2
  | None => None
  end.
Proof.
  revert w. induction evs1 as [|e evs1 IH]; simpl; intros w; [reflexivity|].
  destruct (step w e); [apply IH | reflexivity].
Qed.

(* ================================================================== *)
(** * What single handlers do *)

Lemma step_handler (w w' : World) (e : Event) :
  step w e = Some w' ->
  exists m, handler_of e m /\
            w_stream w' = out_stream (m (w_stream w)) /\
            w_log w' = (w_log w ++ out_actions (m (w_stream w)))%list.
Proof.
  unfold step. destruct (w_crashed w); [discriminate|].
  destruct (dispatch w e) as [[[[p en] nx] m]|] eqn:D; [|discriminate].
  intros H. injection H as <-. exists m.
  split.
  - destruct e; simpl in D.
    + injection D as <- <- <- <-. eexists; reflexivity.
    + injection D as <- <- <- <-. reflexivity.
    + destruct (p_gets (w_pending w)); [discriminate|].
      injection D as <- <- <- <-. reflexivity.
    + destruct (p_gets (w_pending w)); [discriminate|].
      injection D as <- <- <- <-. eexists; reflexivity.
    + destruct (mem req (p_results (w_pending w))); [|discriminate].
      injection D as <- <- <- <-. reflexivity.
    + destruct (mem req (p_results (w_pending w))); [|discriminate].
      injection D as <- <- <- <-. eexists; reflexivity.
    + destruct (p_timers (w_pending w)); [discriminate|].
      injection D as <- <- <- <-. reflexivity.
    + destruct (_ && _)%bool; [|discriminate].
      injection D as <- <- <- <-. eexists; reflexivity.
    + destruct (_ && _)%bool; [|discriminate].
      injection D as <- <- <- <-. reflexivity.
  - unfold handle, out_stream, out_actions.
    destruct (m (w_stream w)) as [[r s] acts]. split; reflexivity.
Qed.

(** Unfolds the handlers on a stream given by its fields. *)
Ltac exec :=
  repeat (progress (
    unfold _read, makeRequest, pump, abort, stopAndCleanUp, internalError,
      get_callback, on_result, retry_retry, responseEnd, on_end,
      bind, ret, get, modify, emit, throw, assert_ok,
      out_stream, out_actions;
    cbn [is_some orb negb andb fst snd app requests notifications chunks
         same_response source_of src_res res_id res_headers
         set_nbytesread set_md5 set_request set_response set_source
         set_aborted set_request_pending set_error set_reading set_retry
         set_expected
         rs_path rs_nbytesread rs_nresumes rs_md5 rs_request rs_response
         rs_source rs_aborted rs_request_pending rs_error rs_reading
         rs_retrypolicy rs_retry rs_exp_md5 rs_exp_len rs_exp_etag
         op_timeouts op_errors])).

Ltac split_goal :=
  repeat (match goal with
          | |- context [is_some ?y] => is_var y; destruct y eqn:?
          | |- context [negb ?y] => is_var y; destruct y eqn:?
          | |- context [orb ?y _] => is_var y; destruct y eqn:?
          | |- context [match ?x with _ => _ end] =>
              scrutinee x; destruct x eqn:?
          | |- context [if ?x then _ else _] =>
              scrutinee x; destruct x eqn:?
          end; exec).

Lemma makeRequest_issues (s : Stream) : issues false s (makeRequest s).
Proof.
  destruct s. unfold issues. exec. split_goal; auto.
Qed.

Lemma read_issues (rd : option bytes) (s : Stream) : issues true s (_read rd s).
Proof.
  destruct s. unfold issues. exec. split_goal; auto.
Qed.

Lemma on_end_issues (res : ResId) (s : Stream) : issues true s (on_end res s).
Proof.
  destruct s. unfold issues. exec. split_goal; auto.
Qed.

Lemma others_issue_nothing (m : M unit) (s : Stream) :
  (exists now, m = abort now) \/ (exists r, m = get_callback r) \/
  (exists r rd, m = on_result r rd) \/ (exists rd, m = pump rd) ->
  requests (out_actions (m s)) = [].
Proof.
  intros [[now ->]|[[r ->]|[[r [rd ->]]|[rd ->]]]]; destruct s.
  - exec. split_goal; reflexivity.
  - destruct r; exec; split_goal; reflexivity.
  - destruct r; exec; split_goal; reflexivity.
  - exec; split_goal; reflexivity.
Qed.

Lemma step_issues (w w' : World) (e : Event) :
  step w e = Some w' ->
  requests (w_log w') = requests (w_log w) \/
  (requests (w_log w') = (requests (w_log w) ++ [rqoptions (w_stream w)])%list /\
   rs_nbytesread (w_stream w') = rs_nbytesread (w_stream w) /\
   rs_retry (w_stream w') =
     match e with
     | EvTimer => rs_retry (w_stream w)
     | _ => Some (operation (rs_retrypolicy (w_stream w)))
     end).
Proof.
  intros H. destruct (step_handler _ _ _ H) as (m & Hm & Hs & Hl).
  rewrite Hl, Hs, requests_app.
  destruct e; cbn [handler_of] in Hm.
  - destruct Hm as [rd' ->].
    destruct (read_issues rd' (w_stream w)) as [E|(E & E1 & E2)];
      rewrite E; [left; apply app_nil_r | right; auto].
  - left. rewrite others_issue_nothing; [apply app_nil_r | eauto].
  - left. rewrite others_issue_nothing; [apply app_nil_r | eauto 6].
  - destruct Hm as [req ->].
    left. rewrite others_issue_nothing; [apply app_nil_r | eauto 6].
  - left. rewrite others_issue_nothing; [apply app_nil_r | eauto 8].
  - destruct Hm as [id ->].
    left. rewrite others_issue_nothing; [apply app_nil_r | eauto 8].
  - subst m.
    destruct (makeRequest_issues (w_stream w)) as [E|(E & E1 & E2)];
      rewrite E; [left; apply app_nil_r | right; auto].
  - destruct Hm as [rd' ->].
    left. rewrite others_issue_nothing; [apply app_nil_r | eauto 8].
  - subst m.
    destruct (on_end_issues res (w_stream w)) as [E|(E & E1 & E2)];
      rewrite E; [left; apply app_nil_r | right; auto].
Qed.

Lemma Inv_nbytes_nonneg (w : World) : Inv w -> 0 <= rs_nbytesread (w_stream w).
Proof. intros [B _]. rewrite (bi_nbytes _ B). lia. Qed.

(** C3.  A turn of a session issues at most one request.  Its options
    are built from the stream as the turn finds it, and the number of bytes
    read is the same when the turn is over: no 'range' header when that
    number is 0, and otherwise the header 'bytes=N-' for exactly that
    number N. *)
Theorem C3_range_follows_bytes_read
  (path : string) (pol : option RetryPolicy) (evs : list Event)
  (w w' : World) (e : Event) :
  run (create path pol) evs = Some w ->
  step w e = Some w' ->
  requests (w_log w') = requests (w_log w) \/
  (exists o,
     requests (w_log w') = (requests (w_log w) ++ [o])%list /\
     rs_nbytesread (w_stream w') = rs_nbytesread (w_stream w) /\
     0 <= rs_nbytesread (w_stream w) /\
     rq_path o = rs_path (w_stream w) /\
     rq_range o =
       if Z.eqb (rs_nbytesread (w_stream w)) 0 then None
       else Some ("bytes=" ++ string_of_number (rs_nbytesread (w_stream w))
                    ++ "-")%string).
Proof.
  intros R H.
  pose proof (Inv_nbytes_nonneg _ (Inv_reachable _ _ _ _ R)) as N.
  destruct (step_issues _ _ _ H) as [E|(E & E1 & _)]; [left; exact E|].
  right. exists (rqoptions (w_stream w)).
  repeat split; auto.
  unfold rqoptions; simpl.
  destruct (Z.gtb_spec (rs_nbytesread (w_stream w)) 0);
    destruct (Z.eqb_spec (rs_nbytesread (w_stream w)) 0); auto; lia.
Qed.

(** C10.  Whenever a turn issues a request, the retry operation of the
    stream is a new one holding the whole configured budget, unless the
    turn is the timer of the running operation, which goes on with what is
    left of it.  Requests are issued on a demand of the consumer, on the
    end of a short response, and by that timer, and by nothing else. *)
Theorem C10_retry_budget_per_cycle (w w' : World) (e : Event) :
  step w e = Some w' ->
  requests (w_log w') <> requests (w_log w) ->
  match e with
  | EvRead _ | EvEnd _ =>
      rs_retry (w_stream w') = Some (operation (rs_retrypolicy (w_stream w)))
  | EvTimer =>
      rs_retry (w_stream w') = rs_retry (w_stream w)
  | _ => False
  end.
Proof.
  intros H N.
  destruct (step_issues _ _ _ H) as [E|(E & _ & E2)]; [congruence|].
  destruct (step_handler _ _ _ H) as (m & Hm & Hs & Hl).
  destruct e; auto; exfalso; apply N; rewrite Hl, requests_app;
    cbn [handler_of] in Hm.
  - subst m. rewrite others_issue_nothing; [apply app_nil_r | eauto].
  - subst m. rewrite others_issue_nothing; [apply app_nil_r | eauto 6].
  - destruct Hm as [req ->].
    rewrite others_issue_nothing; [apply app_nil_r | eauto 6].
  - subst m. rewrite others_issue_nothing; [apply app_nil_r | eauto 8].
  - destruct Hm as [id ->].
    rewrite others_issue_nothing; [apply app_nil_r | eauto 8].
  - destruct Hm as [rd' ->].
    rewrite others_issue_nothing; [apply app_nil_r | eauto 8].
Qed.

(* ================================================================== *)
(** * Which phase an event finds *)

Lemma Inv_end_Streaming (w w' : World) (res : ResId) :
  Inv w -> step w (EvEnd res) = Some w' ->
  base_inv w /\ phase_inv Streaming w.
Proof.
  intros [B [ph P]] Hs. split; [exact B|].
  destruct ph; try exact P; exfalso;
    unfold step, dispatch in Hs; destruct (w_crashed w); try discriminate;
    simpl in P; decompose [and ex] P;
    match goal with H : p_ends _ = [] |- _ => rewrite H in Hs end;
    discriminate.
Qed.

Lemma Inv_result_AwaitingResult (w w' : World) (e : Event) :
  Inv w -> step w e = Some w' ->
  match e with EvResultErr _ _ | EvResultOk _ _ _ _ _ => True | _ => False end ->
  base_inv w /\ phase_inv AwaitingResult w.
Proof.
  intros [B [ph P]] Hs He. split; [exact B|].
  destruct e; try contradiction;
    (destruct ph; try exact P; exfalso;
     unfold step, dispatch in Hs; destruct (w_crashed w); try discriminate;
     simpl in P; decompose [and ex] P;
     match goal with H : p_results _ = [] |- _ => rewrite H in Hs end;
     discriminate).
Qed.


(* ================================================================== *)
(** * The metadata of the first response *)

Ltac handler_cases e Hm :=
  destruct e; cbn [handler_of] in Hm;
  [ destruct Hm as [? ->] | subst | subst | destruct Hm as [? ->] | subst
  | destruct Hm as [? ->] | subst | destruct Hm as [? ->] | subst ].

Lemma handler_keeps_expected (e : Event) (m : M unit) (s : Stream) :
  handler_of e m -> rs_exp_len s <> None ->
  expected (out_stream (m s)) = expected s.
Proof.
  intros Hm Hl. unfold expected.
  destruct s. cbn in Hl.
  destruct rs_exp_len0 as [len|]; [clear Hl|congruence].
  handler_cases e Hm; exec; split_goal; reflexivity.
Qed.

Lemma step_keeps_expected (w w' : World) (e : Event) :
  step w e = Some w' -> rs_exp_len (w_stream w) <> None ->
  expected (w_stream w') = expected (w_stream w).
Proof.
  intros H Hl. destruct (step_handler _ _ _ H) as (m & Hm & Hs & _).
  rewrite Hs. eapply handler_keeps_expected; eauto.
Qed.

Lemma run_keeps_expected (evs : list Event) (w w' : World) :
  run w evs = Some w' -> rs_exp_len (w_stream w) <> None ->
  expected (w_stream w') = expected (w_stream w).
Proof.
  revert w. induction evs as [|e evs IH]; simpl; intros w H Hl.
  - injection H as <-. reflexivity.
  - destruct (step w e) as [w1|] eqn:E; [|discriminate].
    pose proof (step_keeps_expected _ _ _ E Hl) as K.
    rewrite <- K. apply IH; [exact H|].
    unfold expected in K. injection K as K1 _ _. congruence.
Qed.

(** The first response is never refused, and its headers are recorded. *)
Lemma first_response_captured (w w' : World) (req : ReqId) (sc : Z)
  (h : Headers) (hr : bool) (rd : option bytes) :
  Inv w -> rs_exp_len (w_stream w) = None ->
  step w (EvResultOk req sc h hr rd) = Some w' ->
  expected (w_stream w') =
    (Some (or_zero (parseInt (h_content_length h))),
     or_null (h_content_md5 h), or_null (h_etag h)).
Proof.
  intros I Hl Hs.
  destruct (Inv_result_AwaitingResult _ _ _ I Hs Logic.I) as [B P].
  pose proof (bi_capture _ B Hl) as [He Hm].
  clear I. open_phase w B P; run_event Hs; reflexivity.
Qed.

Lemma run_after_first_response (w1 w2 w : World) (req : ReqId) (sc : Z)
  (h : Headers) (hr : bool) (rd : option bytes) (evs : list Event) :
  Inv w1 -> rs_exp_len (w_stream w1) = None ->
  step w1 (EvResultOk req sc h hr rd) = Some w2 ->
  run w2 evs = Some w ->
  Inv w /\
  expected (w_stream w) =
    (Some (or_zero (parseInt (h_content_length h))),
     or_null (h_content_md5 h), or_null (h_etag h)).
Proof.
  intros I Hl Hs Hr.
  pose proof (first_response_captured _ _ _ _ _ _ _ I Hl Hs) as C.
  split.
  - eapply Inv_run; [|exact Hr]. eapply Inv_step; eauto.
  - rewrite <- C. eapply run_keeps_expected; [exact Hr|].
    unfold expected in C. injection C as C1 _ _. congruence.
Qed.

(* ================================================================== *)
(** * What the decisive events do *)

Lemma Inv_error_Failed (w : World) :
  Inv w -> rs_error (w_stream w) <> None ->
  base_inv w /\ phase_inv Failed w.
Proof.
  intros [B [ph P]] E. split; [exact B|].
  destruct ph; try exact P; exfalso; apply E;
    simpl in P; decompose [and ex] P; assumption.
Qed.

Lemma Failed_forever (evs : list Event) (w w' : World) :
  base_inv w -> phase_inv Failed w -> run w evs = Some w' ->
  notifications (w_log w') = notifications (w_log w) /\
  requests (w_log w') = requests (w_log w).
Proof.
  revert w. induction evs as [|e evs IH]; simpl; intros w B P H.
  - injection H as <-. split; reflexivity.
  - destruct (step w e) as [w1|] eqn:E; [|discriminate].
    destruct (step_Failed _ _ _ B P E) as (B1 & P1 & N1 & R1).
    destruct (IH _ B1 P1 H) as [N2 R2]. split; congruence.
Qed.

Lemma Completed_forever (evs : list Event) (w w' : World) :
  base_inv w -> phase_inv Completed w -> run w evs = Some w' ->
  notifications (w_log w') = notifications (w_log w) /\
  requests (w_log w') = requests (w_log w).
Proof.
  revert w. induction evs as [|e evs IH]; simpl; intros w B P H.
  - injection H as <-. split; reflexivity.
  - destruct (step w e) as [w1|] eqn:E; [|discriminate].
    destruct (step_Completed _ _ _ B P E) as (B1 & P1 & N1 & R1).
    destruct (IH _ B1 P1 H) as [N2 R2]. split; congruence.
Qed.

Lemma no_terminal_yet (log : list Action) (n : Notification) :
  terminals log = O -> In n (notifications log) -> is_terminal n = false.
Proof.
  unfold terminals. intros T Hn.
  destruct (is_terminal n) eqn:E; [|reflexivity].
  assert (In n (filter is_terminal (notifications log))) as F
    by (apply filter_In; auto).
  destruct (filter is_terminal (notifications log)); [contradiction|discriminate].
Qed.

(** The end of a response. *)
Lemma response_end_outcome (w w' : World) (res : ResId) :
  Inv w -> step w (EvEnd res) = Some w' ->
  exists len,
    rs_exp_len (w_stream w) = Some len /\
    rs_md5 (w_stream w) = delivered (w_log w) /\
    rs_nbytesread (w_stream w) =
      Z.of_nat (List.length (delivered (w_log w))) /\
    terminals (w_log w) = O /\
    (rs_nbytesread (w_stream w) < len ->
       notifications (w_log w') = notifications (w_log w) /\
       (rs_aborted (w_stream w) = None ->
        w_log w' = (w_log w ++ [SrcRemoveAllReadable res;
                                ClientGet (rqoptions (w_stream w))])%list /\
        p_gets (w_pending w') = [rqoptions (w_stream w)] /\
        p_timers (w_pending w') = O /\
        rs_error (w_stream w') = None /\
        rs_retry (w_stream w') =
          Some (operation (rs_retrypolicy (w_stream w))))) /\
    (len <= rs_nbytesread (w_stream w) ->
       requests (w_log w') = requests (w_log w) /\
       p_gets (w_pending w') = [] /\
       match rs_exp_md5 (w_stream w) with
       | Some m =>
           if String.eqb m (digest (rs_md5 (w_stream w))) then
             notifications (w_log w') =
               (notifications (w_log w) ++ [OnEnd])%list /\
             rs_error (w_stream w') = None
           else
             notifications (w_log w') =
               (notifications (w_log w) ++
                [OnError (Md5Mismatch m (digest (rs_md5 (w_stream w))))])%list /\
             rs_error (w_stream w') <> None
       | None =>
           notifications (w_log w') =
             (notifications (w_log w) ++ [OnEnd])%list /\
           rs_error (w_stream w') = None
       end).
Proof.
  intros I Hs.
  destruct (Inv_end_Streaming _ _ _ I Hs) as [B P].
  clear I. open_phase w B P; run_event Hs.
  all: eexists; split; [reflexivity|].
  all: do 3 (split; [solve [leaf]|]).
  all: unfold js_gt in *.
  all: split; intros L; try (exfalso; lia).
  all: cbn; rewrite ?Heqb1.
  all: try solve [repeat split; first [leaf | intros; leaf]].
Qed.

(** A response arrives. *)
Lemma result_ok_outcome (w w' : World) (req : ReqId) (sc : Z)
  (h : Headers) (hr : bool) (rd : option bytes) :
  Inv w -> step w (EvResultOk req sc h hr rd) = Some w' ->
  let res := {| res_id := w_next w; res_statusCode := sc;
                res_headers := h; res_has_read := hr |} in
  terminals (w_log w) = O /\
  requests (w_log w') = requests (w_log w) /\
  if match rs_exp_etag (w_stream w) with
     | Some t => strict_neq t (h_etag h)
     | None => false
     end
  then
    notifications (w_log w') =
      (notifications (w_log w) ++ [OnError EtagMismatch])%list /\
    rs_error (w_stream w') = Some EtagMismatch /\
    p_ends (w_pending w') = []
  else
    notifications (w_log w') =
      (notifications (w_log w) ++
       match rd with Some buf => [OnData buf] | None => [] end)%list /\
    rs_error (w_stream w') = None /\
    rs_response (w_stream w') = Some res /\
    p_ends (w_pending w') = [w_next w].
Proof.
  intros I Hs.
  destruct (Inv_result_AwaitingResult _ _ _ I Hs Logic.I) as [B P].
  clear I. open_phase w B P; run_event Hs.
  all: cbn; rewrite ?Heqb0.
  all: try solve [repeat split; leaf].
Qed.

(** A request fails. *)
Lemma result_err_outcome (w w' : World) (req : ReqId) (err2 : HttpError) :
  Inv w -> step w (EvResultErr req err2) = Some w' ->
  exists op,
    rs_retry (w_stream w) = Some op /\
    terminals (w_log w) = O /\
    requests (w_log w') = requests (w_log w) /\
    if (retryable err2 && negb (Nat.eqb (op_timeouts op) 0))%bool
    then
      w_log w' = (w_log w ++ [RetryTimer])%list /\
      p_timers (w_pending w') = 1%nat /\
      rs_error (w_stream w') = None /\
      rs_retry (w_stream w') =
        Some {| op_timeouts := pred (op_timeouts op);
                op_errors := (op_errors op ++ [err2])%list |}
    else
      notifications (w_log w') =
        (notifications (w_log w) ++ [OnError (Upstream err2)])%list /\
      p_timers (w_pending w') = O /\
      rs_error (w_stream w') = Some (Upstream err2) /\
      op_timeouts_of (rs_retry (w_stream w')) = op_timeouts op.
Proof.
  intros I Hs.
  destruct (Inv_result_AwaitingResult _ _ _ I Hs Logic.I) as [B P].
  clear I. open_phase w B P; run_event Hs.
  all: eexists; split; [reflexivity|].
  all: cbn; rewrite ?Heqb0; cbn.
  all: try solve [repeat split; leaf].
Qed.

Lemma retryable_spec (err2 : HttpError) :
  retryable err2 = true <->
  err_statusCode err2 = None \/
  exists c, err_statusCode err2 = Some c /\ 500 <= c.
Proof.
  unfold retryable. destruct (err_statusCode err2) as [c|].
  - split.
    + intros H. right. exists c. split; [reflexivity|lia].
    + intros [H|[c' [H1 H2]]]; [discriminate|]. injection H1 as <-. lia.
  - split; auto.
Qed.

(** The timer of the retry operation. *)
Lemma timer_outcome (w w' : World) :
  Inv w -> step w EvTimer = Some w' ->
  rs_retry (w_stream w') = rs_retry (w_stream w) /\
  notifications (w_log w') = notifications (w_log w) /\
  (rs_aborted (w_stream w) = None ->
   w_log w' = (w_log w ++ [ClientGet (rqoptions (w_stream w))])%list).
Proof.
  intros [B [ph P]] Hs.
  destruct ph;
    try (exfalso; unfold step, dispatch in Hs;
         destruct (w_crashed w); try discriminate;
         simpl in P; decompose [and ex] P;
         match goal with H : p_timers _ = O |- _ => rewrite H in Hs end;
         discriminate).
  open_phase w B P; run_event Hs; repeat split; first [leaf | intros; leaf].
Qed.

Lemma timer_enabled (w : World) :
  w_crashed w = None -> p_timers (w_pending w) = 1%nat ->
  exists w', step w EvTimer = Some w'.
Proof.
  intros C T. unfold step, dispatch. rewrite C, T. eexists; reflexivity.
Qed.

(* ================================================================== *)
(** * The claims *)

(** C2.  When a response ends in a session that has not been aborted,
    the length taken from the first response decides.  With fewer bytes
    read than that length, the stream drops the response and at once issues
    the next request from the number of bytes read: no error is emitted, no
    timer is armed, and the retry operation is a new one with the whole
    budget.  With at least as many bytes read, more than the length
    included, no request is issued and the session goes on to verify the
    checksum and complete. *)
Theorem C2_response_end_resumes_iff_short
  (path : string) (pol : option RetryPolicy) (evs : list Event)
  (w w' : World) (res : ResId) :
  run (create path pol) evs = Some w ->
  rs_aborted (w_stream w) = None ->
  step w (EvEnd res) = Some w' ->
  exists len,
    rs_exp_len (w_stream w) = Some len /\
    (rs_nbytesread (w_stream w) < len ->
       w_log w' = (w_log w ++ [SrcRemoveAllReadable res;
                               ClientGet (rqoptions (w_stream w))])%list /\
       p_gets (w_pending w') = [rqoptions (w_stream w)] /\
       p_timers (w_pending w') = O /\
       rs_error (w_stream w') = None /\
       rs_retry (w_stream w') =
         Some (operation (rs_retrypolicy (w_stream w)))) /\
    (len <= rs_nbytesread (w_stream w) ->
       requests (w_log w') = requests (w_log w) /\
       p_gets (w_pending w') = [] /\
       notifications (w_log w') =
         (notifications (w_log w) ++
          [match rs_exp_md5 (w_stream w) with
           | Some m =>
               if String.eqb m (digest (rs_md5 (w_stream w))) then OnEnd
               else OnError (Md5Mismatch m (digest (rs_md5 (w_stream w))))
           | None => OnEnd
           end])%list).
Proof.
  intros R A Hs.
  destruct (response_end_outcome _ _ _ (Inv_reachable _ _ _ _ R) Hs)
    as (len & E & _ & _ & _ & Short & Full).
  exists len. split; [exact E|]. split.
  - intros L. destruct (Short L) as [_ K]. exact (K A).
  - intros L. destruct (Full L) as (Q & G & N).
    split; [exact Q|]. split; [exact G|].
    destruct (rs_exp_md5 (w_stream w)) as [m|]; [|tauto].
    destruct (String.eqb m (digest (rs_md5 (w_stream w)))); tauto.
Qed.

(** C4.  Let [h] be the headers of the first response of a session, and
    let a response end later on.  If [h] declares a checksum, the bytes
    read have reached the declared length, and the digest of the bytes
    handed to the consumer differs from the checksum, then 'error' is
    emitted with the md5 mismatch and 'end' is never emitted, whatever
    happens afterwards.  If [h] carries no checksum, nothing is compared:
    the session ends as soon as the bytes read reach the declared length,
    and not before. *)
Theorem C4_checksum_decides_completion
  (path : string) (pol : option RetryPolicy) (evs1 evs2 : list Event)
  (w1 w2 w w' : World) (req : ReqId) (sc : Z) (h : Headers) (hr : bool)
  (rd : option bytes) (res : ResId) :
  run (create path pol) evs1 = Some w1 ->
  rs_exp_len (w_stream w1) = None ->
  step w1 (EvResultOk req sc h hr rd) = Some w2 ->
  run w2 evs2 = Some w ->
  step w (EvEnd res) = Some w' ->
  let len := or_zero (parseInt (h_content_length h)) in
  let n := Z.of_nat (List.length (delivered (w_log w))) in
  let got := digest (delivered (w_log w)) in
  (forall m,
     or_null (h_content_md5 h) = Some m -> len <= n -> m <> got ->
     notifications (w_log w') =
       (notifications (w_log w) ++ [OnError (Md5Mismatch m got)])%list /\
     forall evs3 w3,
       run w' evs3 = Some w3 -> ~ In OnEnd (notifications (w_log w3))) /\
  (or_null (h_content_md5 h) = None ->
     (n < len -> notifications (w_log w') = notifications (w_log w)) /\
     (len <= n ->
      notifications (w_log w') = (notifications (w_log w) ++ [OnEnd])%list)).
Proof.
  intros R1 L1 S1 R2 Hs len n got.
  destruct (run_after_first_response _ _ _ _ _ _ _ _ _
              (Inv_reachable _ _ _ _ R1) L1 S1 R2) as [I X].
  unfold expected in X. injection X as X1 X2 X3.
  pose proof (Inv_step _ _ _ I Hs) as I'.
  destruct (response_end_outcome _ _ _ I Hs)
    as (len' & E & M & N & T & Short & Full).
  assert (len' = len) as -> by (unfold len; congruence).
  rewrite N in Short, Full. fold n in Short, Full.
  rewrite M, X2 in Full. fold got in Full.
  split.
  - intros m Hm L D. destruct (Full L) as (_ & _ & K).
    rewrite Hm in K.
    destruct (String.eqb_spec m got) as [->|_]; [congruence|].
    destruct K as [K1 K2]. split; [exact K1|].
    intros evs3 w3 R3 Hin.
    destruct (Inv_error_Failed _ I' K2) as [B' P'].
    destruct (Failed_forever _ _ _ B' P' R3) as [N3 _].
    rewrite N3, K1 in Hin. apply in_app_or in Hin.
    destruct Hin as [Hin|[Hin|[]]]; [|discriminate].
    pose proof (no_terminal_yet _ _ T Hin). discriminate.
  - intros Hm. split.
    + intros L. apply (Short L).
    + intros L. destruct (Full L) as (_ & _ & K).
      rewrite Hm in K. apply K.
Qed.

(** C5.  The length, checksum and entity tag a session expects are those
    of the headers [h] of its first response, at every later moment.  If
    [h] carries an entity tag and a later response carries another one, or
    none, 'error' is emitted with the etag mismatch, however many bytes
    have been read, and from then on the session issues no request and
    notifies the consumer of nothing. *)
Theorem C5_etag_mismatch_is_fatal
  (path : string) (pol : option RetryPolicy) (evs1 evs2 : list Event)
  (w1 w2 w : World) (req : ReqId) (sc : Z) (h : Headers) (hr : bool)
  (rd : option bytes) :
  run (create path pol) evs1 = Some w1 ->
  rs_exp_len (w_stream w1) = None ->
  step w1 (EvResultOk req sc h hr rd) = Some w2 ->
  run w2 evs2 = Some w ->
  expected (w_stream w) =
    (Some (or_zero (parseInt (h_content_length h))),
     or_null (h_content_md5 h), or_null (h_etag h)) /\
  forall t req' sc' h' hr' rd' w',
    or_null (h_etag h) = Some t ->
    step w (EvResultOk req' sc' h' hr' rd') = Some w' ->
    h_etag h' <> Some t ->
    notifications (w_log w') =
      (notifications (w_log w) ++ [OnError EtagMismatch])%list /\
    requests (w_log w') = requests (w_log w) /\
    forall evs3 w3,
      run w' evs3 = Some w3 ->
      requests (w_log w3) = requests (w_log w) /\
      notifications (w_log w3) = notifications (w_log w').
Proof.
  intros R1 L1 S1 R2.
  destruct (run_after_first_response _ _ _ _ _ _ _ _ _
              (Inv_reachable _ _ _ _ R1) L1 S1 R2) as [I X].
  split; [exact X|].
  unfold expected in X. injection X as X1 X2 X3.
  intros t req' sc' h' hr' rd' w' Ht Hs D.
  pose proof (Inv_step _ _ _ I Hs) as I'.
  destruct (result_ok_outcome _ _ _ _ _ _ _ I Hs) as (T & Q & K).
  rewrite X3, Ht in K.
  assert (strict_neq t (h_etag h') = true) as SN.
  { unfold strict_neq. destruct (h_etag h') as [v|]; [|reflexivity].
    destruct (String.eqb_spec t v) as [->|_]; [congruence|reflexivity]. }
  rewrite SN in K. destruct K as (K1 & K2 & _).
  split; [exact K1|]. split; [exact Q|].
  intros evs3 w3 R3.
  assert (rs_error (w_stream w') <> None) as E by congruence.
  destruct (Inv_error_Failed _ I' E) as [B' P'].
  destruct (Failed_forever _ _ _ B' P' R3) as [N3 Q3].
  split; congruence.
Qed.

(** C6.  A failed request is tried again exactly when the failure carries
    no status code or one of at least 500, and the retry operation has a
    timeout left: then nothing is emitted, one timeout is used up, and the
    timer that fires next issues the request again.  Otherwise 'error' is
    emitted with this very failure, no timer is armed, and no request
    follows, ever; for a status code from 400 to 499 that is so whatever is
    left of the budget, which is not touched. *)
Theorem C6_retry_only_transient_failures
  (path : string) (pol : option RetryPolicy) (evs : list Event)
  (w w' : World) (req : ReqId) (err2 : HttpError) :
  run (create path pol) evs = Some w ->
  step w (EvResultErr req err2) = Some w' ->
  exists op,
    rs_retry (w_stream w) = Some op /\
    (retryable err2 = true <->
     err_statusCode err2 = None \/
     exists c, err_statusCode err2 = Some c /\ 500 <= c) /\
    (retryable err2 = true -> (0 < op_timeouts op)%nat ->
       w_log w' = (w_log w ++ [RetryTimer])%list /\
       rs_error (w_stream w') = None /\
       op_timeouts_of (rs_retry (w_stream w')) = pred (op_timeouts op) /\
       exists w'',
         step w' EvTimer = Some w'' /\
         (rs_aborted (w_stream w') = None ->
          w_log w'' =
            (w_log w' ++ [ClientGet (rqoptions (w_stream w'))])%list)) /\
    (retryable err2 = false \/ op_timeouts op = O ->
       notifications (w_log w') =
         (notifications (w_log w) ++ [OnError (Upstream err2)])%list /\
       p_timers (w_pending w') = O /\
       forall evs2 w2,
         run w' evs2 = Some w2 ->
         requests (w_log w2) = requests (w_log w) /\
         notifications (w_log w2) = notifications (w_log w')) /\
    (forall c,
       err_statusCode err2 = Some c -> 400 <= c < 500 ->
       notifications (w_log w') =
         (notifications (w_log w) ++ [OnError (Upstream err2)])%list /\
       op_timeouts_of (rs_retry (w_stream w')) = op_timeouts op /\
       requests (w_log w') = requests (w_log w)).
Proof.
  intros R Hs.
  pose proof (Inv_reachable _ _ _ _ R) as I.
  pose proof (Inv_step _ _ _ I Hs) as I'.
  destruct (result_err_outcome _ _ _ _ I Hs) as (op & E & T & Q & K).
  exists op. split; [exact E|]. split; [apply retryable_spec|].
  split; [|split].
  - intros Hr Hn. rewrite Hr in K.
    destruct (op_timeouts op) as [|k] eqn:Ek; [lia|]. cbn in K.
    destruct K as (K1 & K2 & K3 & K4).
    split; [exact K1|]. split; [exact K3|].
    split; [rewrite K4; reflexivity|].
    destruct I' as [B' X'].
    destruct (timer_enabled w' (bi_alive _ B') K2) as [w'' S''].
    exists w''. split; [exact S''|].
    intros A.
    destruct (timer_outcome _ _ (conj B' X') S'') as (_ & _ & G).
    exact (G A).
  - intros D.
    assert ((retryable err2 && negb (Nat.eqb (op_timeouts op) 0))%bool = false)
      as F.
    { destruct D as [D|D]; rewrite D; [reflexivity|].
      simpl. apply andb_false_r. }
    rewrite F in K. destruct K as (K1 & K2 & K3 & _).
    split; [exact K1|]. split; [exact K2|].
    intros evs2 w2 R2.
    assert (rs_error (w_stream w') <> None) as Er by congruence.
    destruct (Inv_error_Failed _ I' Er) as [B' P'].
    destruct (Failed_forever _ _ _ B' P' R2) as [N3 Q3].
    split; congruence.
  - intros c Hc Range.
    assert (retryable err2 = false) as F.
    { unfold retryable. rewrite Hc. lia. }
    rewrite F in K. cbn in K. destruct K as (K1 & _ & _ & K4).
    split; [exact K1|]. split; [exact K4|exact Q].
Qed.

(** C9.  If the first response of a session carries no entity tag, the
    session expects none from then on, and every later response is taken
    whatever its entity tag: it becomes the response being read, its 'end'
    is listened for, and the consumer is notified of nothing but the data
    that may already be there. *)
Theorem C9_no_etag_no_validation
  (path : string) (pol : option RetryPolicy) (evs1 evs2 : list Event)
  (w1 w2 w : World) (req : ReqId) (sc : Z) (h : Headers) (hr : bool)
  (rd : option bytes) :
  run (create path pol) evs1 = Some w1 ->
  rs_exp_len (w_stream w1) = None ->
  step w1 (EvResultOk req sc h hr rd) = Some w2 ->
  h_etag h = None ->
  run w2 evs2 = Some w ->
  rs_exp_etag (w_stream w) = None /\
  forall req' sc' h' hr' rd' w',
    step w (EvResultOk req' sc' h' hr' rd') = Some w' ->
    rs_response (w_stream w') =
      Some {| res_id := w_next w; res_statusCode := sc';
              res_headers := h'; res_has_read := hr' |} /\
    p_ends (w_pending w') = [w_next w] /\
    rs_error (w_stream w') = None /\
    rs_exp_etag (w_stream w') = None /\
    notifications (w_log w') =
      (notifications (w_log w) ++
       match rd' with Some buf => [OnData buf] | None => [] end)%list.
Proof.
  intros R1 L1 S1 He R2.
  destruct (run_after_first_response _ _ _ _ _ _ _ _ _
              (Inv_reachable _ _ _ _ R1) L1 S1 R2) as [I X].
  unfold expected in X. injection X as X1 X2 X3.
  rewrite He in X3. cbn in X3.
  split; [exact X3|].
  intros req' sc' h' hr' rd' w' Hs.
  destruct (result_ok_outcome _ _ _ _ _ _ _ I Hs) as (T & Q & K).
  rewrite X3 in K. destruct K as (K1 & K2 & K3 & K4).
  repeat split; auto.
  assert (rs_exp_len (w_stream w) <> None) as NL by congruence.
  pose proof (step_keeps_expected _ _ _ Hs NL) as KE.
  unfold expected in KE. injection KE as _ _ KE. congruence.
Qed.

(** C7.  In every world a session can reach, at most one of 'end' and
    'error' has been emitted, once.  When nothing is outstanding any more
    (no request in flight, no timer armed, no response that can still end),
    the session has issued a request and has not been aborted, exactly one
    of them has been emitted. *)
Theorem C7_one_terminal_notification
  (path : string) (pol : option RetryPolicy) (evs : list Event) (w : World) :
  run (create path pol) evs = Some w ->
  (terminals (w_log w) <= 1)%nat /\
  (quiescent w = true -> rs_aborted (w_stream w) = None ->
   requests (w_log w) <> [] -> terminals (w_log w) = 1%nat).
Proof.
  intros R. destruct (Inv_reachable _ _ _ _ R) as [B [ph P]].
  unfold quiescent.
  destruct ph; simpl in P; decompose [and ex] P; clear P;
    repeat match goal with
           | H : p_gets _ = _ |- _ => rewrite H
           | H : p_results _ = _ |- _ => rewrite H
           | H : p_timers _ = _ |- _ => rewrite H
           | H : p_ends _ = _ |- _ => rewrite H
           | H : w_log _ = _ |- _ => rewrite H
           | H : terminals _ = _ |- _ => rewrite H
           end;
    split; try lia; try (intros; discriminate); try congruence.
  - rewrite terminals_nil. lia.
  - cbn. intros _ _ N. congruence.
Qed.

(* ================================================================== *)
(** * Numbers in headers *)

Lemma digits_prefix_string_of_uint (d : uint) :
  digits_prefix (NilEmpty.string_of_uint d) = NilEmpty.string_of_uint d.
Proof. induction d; simpl; rewrite ?IHd; reflexivity. Qed.

Lemma NilZero_string_of_uint_nonnil (d : uint) :
  d <> Nil -> NilZero.string_of_uint d = NilEmpty.string_of_uint d.
Proof. destruct d; [congruence | reflexivity ..]. Qed.

Lemma parse_digits_to_uint (p : positive) :
  parse_digits (NilEmpty.string_of_uint (Pos.to_uint p)) = Some (Z.pos p).
Proof.
  unfold parse_digits. rewrite digits_prefix_string_of_uint.
  pose proof (DecimalPos.Unsigned.to_uint_nonnil p) as N.
  rewrite <- (NilZero_string_of_uint_nonnil _ N).
  rewrite (NilZero.usu _ N).
  unfold Z.of_uint. rewrite DecimalPos.Unsigned.of_to. reflexivity.
Qed.

Lemma parseInt_string_of_number (n : Z) :
  0 <= n -> parseInt (Some (string_of_number n)) = Some n.
Proof.
  intros Hn. destruct n as [|p|p]; [reflexivity| |lia].
  unfold string_of_number. cbn [Z.to_int NilZero.string_of_int].
  pose proof (DecimalPos.Unsigned.to_uint_nonnil p) as N.
  rewrite (NilZero_string_of_uint_nonnil _ N).
  rewrite <- (parse_digits_to_uint p).
  destruct (Pos.to_uint p); [congruence | reflexivity ..].
Qed.

Lemma strip_dash_app (d : string) : strip_dash (d ++ "-") = Some d.
Proof.
  induction d as [|c d IH]; [reflexivity|].
  cbn [append strip_dash]. rewrite IH.
  destruct d; reflexivity.
Qed.

Lemma range_start_rqoptions (s : Stream) :
  0 <= rs_nbytesread s ->
  range_start (rqoptions s) = Some (Z.to_nat (rs_nbytesread s)).
Proof.
  intros Hn. unfold range_start, rqoptions. cbn [rq_range].
  destruct (rs_nbytesread s) as [|p|p]; [reflexivity| |lia].
  cbn [Z.gtb Z.compare strip_prefix append Ascii.eqb Bool.eqb].
  change (strip_prefix "bytes=" ("bytes=" ++ string_of_number (Z.pos p) ++ "-"))
    with (Some (string_of_number (Z.pos p) ++ "-")).
  rewrite strip_dash_app.
  unfold string_of_number. cbn [Z.to_int NilZero.string_of_int].
  rewrite (NilZero.usu _ (DecimalPos.Unsigned.to_uint_nonnil p)).
  unfold Z.of_uint. rewrite DecimalPos.Unsigned.of_to. reflexivity.
Qed.

(* ================================================================== *)
(** * Slices of the resource *)

Lemma firstn_add_skipn {A} (l : list A) (i j : nat) :
  firstn (i + j) l = (firstn i l ++ firstn j (skipn i l))%list.
Proof.
  revert l. induction i as [|i IH]; intros l; [reflexivity|].
  destruct l as [|x l]; simpl.
  - rewrite firstn_nil. reflexivity.
  - rewrite IH. reflexivity.
Qed.

Lemma firstn_length_firstn {A} (l : list A) (k : nat) :
  firstn (List.length (firstn k l)) l = firstn k l.
Proof.
  revert l. induction k as [|k IH]; intros l; [reflexivity|].
  destruct l as [|x l]; simpl; [reflexivity|]. rewrite IH. reflexivity.
Qed.

Lemma firstn_grow {A} (l : list A) (pos k : nat) :
  (firstn pos l ++ firstn k (skipn pos l))%list =
  firstn (pos + List.length (firstn k (skipn pos l))) l.
Proof.
  rewrite firstn_add_skipn, firstn_length_firstn. reflexivity.
Qed.

Lemma firstn_self_length {A} (l : list A) (pos : nat) :
  List.length (firstn pos l) = pos -> (pos <= List.length l)%nat.
Proof. rewrite length_firstn. lia. Qed.

(* ================================================================== *)
(** * A served session comes to its end *)

Lemma below_remove_all (n y : nat) (l : list nat) :
  below n l -> below n (remove_all y l).
Proof. intros H x Hx. apply mem_remove_all in Hx. apply H, Hx. Qed.

Lemma below_remove_one (n y : nat) (l : list nat) :
  below n l -> below n (remove_one y l).
Proof. intros H x Hx. apply mem_remove_one in Hx. apply H, Hx. Qed.

Lemma below_tail (n y : nat) (l : list nat) : below n (y :: l) -> below n l.
Proof. intros H x Hx. apply H. apply mem_cons_iff. auto. Qed.

#[local] Hint Resolve below_remove_all below_remove_one below_tail : stream_db.

Lemma map_OnData_app (a b : list bytes) :
  map OnData (a ++ b) = (map OnData a ++ map OnData b)%list.
Proof. apply map_app. Qed.

Ltac open_served w S :=
  unfold served in S;
  unpack_world w; cbn [w_stream w_pending w_ended w_next w_log w_crashed
    rs_path rs_nbytesread rs_nresumes rs_md5 rs_request rs_response
    rs_source rs_aborted rs_request_pending rs_error rs_reading
    rs_retrypolicy rs_retry rs_exp_md5 rs_exp_len rs_exp_etag
    p_gets p_results p_timers p_ends p_readables expected] in *.

Lemma ready_from_create (path : string) (pol : option RetryPolicy)
  (raw : bytes) (etag : option string) :
  exists w, step (create path pol) (EvRead None) = Some w /\ ready raw etag w.
Proof.
  eexists. split; [reflexivity|].
  unfold ready, served. cbn.
  repeat split; try reflexivity; try discriminate; try (intros x H; discriminate H).
  left. split; reflexivity.
Qed.

Lemma body_read_some (raw : bytes) (pos : nat) (r : option nat) (b : bytes) :
  body_read raw pos r = Some b -> exists k, b = firstn k (skipn pos raw).
Proof.
  destruct r as [k|]; simpl; [|discriminate].
  destruct (firstn k (skipn pos raw)) eqn:E; [discriminate|].
  intros H. injection H as <-. exists k. symmetry. exact E.
Qed.


Lemma grow_delivered (raw dl : bytes) (k : nat) :
  dl = firstn (List.length dl) raw ->
  (dl ++ firstn k (skipn (List.length dl) raw))%list =
  firstn (List.length (dl ++ firstn k (skipn (List.length dl) raw))) raw.
Proof.
  intros H. rewrite length_app. rewrite H at 1. apply firstn_grow.
Qed.

(** The fields of a served world, one by one. *)
Ltac served_fields :=
  cbn [w_stream w_pending w_ended w_next w_log w_crashed
       rs_path rs_nbytesread rs_nresumes rs_md5 rs_request rs_response
       rs_source rs_aborted rs_request_pending rs_error rs_reading
       rs_retrypolicy rs_retry rs_exp_md5 rs_exp_len rs_exp_etag
       p_gets p_results p_timers p_ends p_readables expected
       set_nbytesread set_md5 set_request set_response set_source
       set_aborted set_request_pending set_error set_reading set_retry
       set_expected with_gets with_results with_timers with_ends
       with_readables source_of src_res res_id res_headers
       h_content_md5 h_content_length h_etag fst snd read_length] in *.

Ltac served_leaf :=
  served_fields;
  rewrite ?notifications_app, ?chunks_app, ?map_app, ?delivered_app,
    ?requests_app;
  rewrite ?delivered_cons, ?delivered_nil;
  cbn [notifications chunks requests map app];
  rewrite ?app_nil_r, ?Nat.eqb_refl;
  try solve [ reflexivity | assumption | discriminate | congruence
            | rewrite ?length_app; lia
            | auto with stream_db
            | eapply below_tail; eassumption
            | apply grow_delivered; assumption
            | f_equal; assumption
            | eexists; repeat split; reflexivity ].

Lemma reading_read (raw : bytes) (etag : option string) (res : ResId)
  (w : World) (r : option nat) :
  reading raw etag res w ->
  let pos := List.length (delivered (w_log w)) in
  let rd := body_read raw pos r in
  let e := if mem res (p_readables (w_pending w))
           then EvReadable res rd else EvRead rd in
  exists w1,
    step w e = Some w1 /\ reading raw etag res w1 /\
    List.length (delivered (w_log w1)) = (pos + read_length rd)%nat.
Proof.
  intros (S & G & E & M & L & (r0 & R1 & R2 & R3) & P & X & D) pos rd e.
  destruct S as (S1 & S2 & S3 & S4 & S5 & S6 & S7 & S8 & S9 & S10 & S11).
  subst e rd pos. unfold expected in X.
  unpack_world w; served_fields; subst.
  destruct D as [[D1 D2]|[D1 (rl & D2 & D3)]]; subst;
    destruct (body_read raw _ r) as [b|] eqn:Hb;
    try (destruct (body_read_some _ _ _ _ Hb) as [k Hk]; clear Hb; subst b).
  all: try rewrite D2; cbn [mem]; rewrite ?Nat.eqb_refl.
  all: eexists; split;
    [ unfold step, dispatch, handle, avail; cbn; rewrite ?Nat.eqb_refl, ?M;
      cbn; flat; reflexivity | ].
  all: unfold reading, served, expected;
    repeat match goal with |- _ /\ _ => split end; try solve [served_leaf].
  all: try solve [left; split; served_leaf].
  all: try solve [right; split;
                  [ served_leaf
                  | eexists; split; [served_fields; reflexivity | served_leaf] ]].
Qed.

Lemma or_null_some (x m : string) : or_null (Some x) = Some m -> m = x.
Proof. destruct x; simpl; [discriminate|]. intros H. injection H as <-. reflexivity. Qed.

Lemma strict_neq_or_null (etag : option string) (t : string) :
  or_null etag = Some t -> strict_neq t etag = false.
Proof.
  destruct etag as [x|]; [|discriminate]. intros H.
  apply or_null_some in H. subst. simpl. rewrite String.eqb_refl. reflexivity.
Qed.

Ltac red_step :=
  cbn -[js_gt or_null or_zero parseInt String.eqb string_of_number strict_neq
        rqoptions Z.of_nat Z.add Nat.sub].

Lemma reading_end (raw : bytes) (etag : option string) (res : ResId)
  (w : World) :
  reading raw etag res w ->
  exists w',
    step w (EvEnd res) = Some w' /\
    (((List.length (delivered (w_log w)) < List.length raw)%nat /\
      ready raw etag w' /\ delivered (w_log w') = delivered (w_log w)) \/
     (List.length (delivered (w_log w)) = List.length raw /\
      finished raw w')).
Proof.
  intros (S & G & E & M & L & (r0 & R1 & R2 & R3) & P & X & D).
  destruct S as (S1 & S2 & S3 & S4 & S5 & S6 & S7 & S8 & S9 & S10 & S11).
  pose proof (firstn_self_length raw _ (eq_sym (f_equal (@List.length _) S6))) as Le.
  unfold expected in X.
  unpack_world w; served_fields; subst.
  destruct (Nat.ltb_spec (List.length (delivered log)) (List.length raw)) as [Lt|Ge].
  - unfold captured in X.
    remember (or_null (Some (digest raw))) as m eqn:Hm.
    remember (or_null etag) as t eqn:Ht.
    injection X as X1 X2 X3. subst.
    assert (js_gt (Some (Z.of_nat (List.length raw)))
              (Z.of_nat (List.length (delivered log))) = true) as J
      by (unfold js_gt; lia).
    eexists. split.
    + unfold step, dispatch, handle.
      repeat (red_step; flat; rewrite ?Nat.eqb_refl, ?M, ?J). reflexivity.
    + left. split; [exact Lt|]. split; [|served_leaf].
      unfold ready, served, expected, captured.
      repeat match goal with |- _ /\ _ => split end; try solve [served_leaf].
  - assert (List.length (delivered log) = List.length raw) as Eq by lia.
    assert (delivered log = raw) as Dl.
    { rewrite S6, Eq. apply firstn_all. }
    unfold captured in X.
    remember (or_null (Some (digest raw))) as m eqn:Hm.
    remember (or_null etag) as t eqn:Ht.
    injection X as X1 X2 X3. subst rs_exp_len0 rs_exp_md6 rs_exp_etag0.
    assert (js_gt (Some (Z.of_nat (List.length raw)))
              (Z.of_nat (List.length (delivered log))) = false) as J
      by (unfold js_gt; lia).
    assert (match m with
            | Some x => String.eqb x (digest (delivered log)) = true
            | None => True
            end) as Hd.
    { destruct m as [x|]; [|exact Logic.I].
      symmetry in Hm. apply or_null_some in Hm. subst x. rewrite Dl.
      apply String.eqb_refl. }
    destruct m as [x|]; (eexists; split;
      [ unfold step, dispatch, handle;
        repeat (red_step; flat; rewrite ?Nat.eqb_refl, ?M, ?J, ?Hd); reflexivity
      | right; split; [exact Eq|];
        unfold finished, quiescent;
        repeat match goal with |- _ /\ _ => split end;
        solve [served_leaf] ]).
Qed.

Lemma ready_respond (raw : bytes) (etag : option string) (w : World)
  (r : option nat) :
  ready raw etag w ->
  let pos := List.length (delivered (w_log w)) in
  let rd := body_read raw pos r in
  exists o w1 w2,
    p_gets (w_pending w) = [o] /\ range_start o = Some pos /\
    step w EvGetOk = Some w1 /\ w_next w1 = S (w_next w) /\
    step w1 (EvResultOk (w_next w) (fst (respond raw etag pos))
               (snd (respond raw etag pos)) true rd) = Some w2 /\
    reading raw etag (w_next w1) w2 /\
    List.length (delivered (w_log w2)) = (pos + read_length rd)%nat.
Proof.
  intros (S & G & E & P & Rd & Rs & Rt & X) pos rd.
  destruct S as (S1 & S2 & S3 & S4 & S5 & S6 & S7 & S8 & S9 & S10 & S11).
  subst rd pos.
  assert (range_start (rqoptions (w_stream w)) =
          Some (List.length (delivered (w_log w)))) as RS.
  { rewrite range_start_rqoptions; rewrite S5; [|lia].
    rewrite Nat2Z.id. reflexivity. }
  unfold expected in X.
  unpack_world w; served_fields; subst.
  destruct rs_retry0 as [op|]; [clear Rt|congruence].
  assert (mem next ended = false) as Fe by auto with stream_db.
  assert (mem next p_readables0 = false) as Fr by auto with stream_db.
  assert (mem (S next) ended = false) as Fe' by auto with stream_db.
  assert (mem (S next) p_readables0 = false) as Fr' by auto with stream_db.
  assert (Hlen : List.length (delivered log) = O ->
                 or_zero (parseInt (Some (string_of_number
                   (Z.of_nat (List.length raw -
                              List.length (delivered log)))))) =
                 Z.of_nat (List.length raw)).
  { intros ->. rewrite parseInt_string_of_number by lia.
    rewrite Nat.sub_0_r. reflexivity. }
  assert (Hz : List.length (delivered log) = O ->
               Nat.eqb (List.length (delivered log)) 0 = true).
  { intros ->. reflexivity. }
  destruct (body_read raw (List.length (delivered log)) r) as [b|] eqn:Hb;
    try (destruct (body_read_some _ _ _ _ Hb) as [k Hk]; clear Hb; subst b).
  all: destruct X as [[X Z0]|X];
    [ injection X as X1 X2 X3; subst;
      specialize (Hlen Z0); specialize (Hz Z0)
    | clear Hlen Hz; unfold captured in X;
      remember (or_null (Some (digest raw))) as m eqn:Hm;
      remember (or_null etag) as t eqn:Ht;
      injection X as X1 X2 X3; subst rs_exp_len0 rs_exp_md6 rs_exp_etag0;
      assert (match t with
              | Some x => strict_neq x etag = false
              | None => True
              end) as Hs
        by (destruct t; [apply strict_neq_or_null; auto | exact Logic.I]);
      destruct t as [x|] ].
  all: do 3 eexists; (split; [reflexivity|]); (split; [exact RS|]);
    (split; [unfold step, dispatch, handle; red_step; flat; reflexivity|]);
    (split; [reflexivity|]);
    (split; [unfold step, dispatch, handle, respond;
             repeat (red_step; flat; rewrite ?Nat.eqb_refl, ?Hs, ?Hlen, ?Hz);
             reflexivity|]).
  all: unfold reading, served, expected, captured; rewrite <- ?Hm, <- ?Ht;
    repeat match goal with |- _ /\ _ => split end; try solve [served_leaf].
  all: try solve [left; split; served_leaf].
  all: try solve [right; split;
                  [ served_leaf
                  | eexists; split; [served_fields; reflexivity | served_leaf] ]].
Qed.

Lemma pos_after_cons (raw : bytes) (pos : nat) (r : option nat)
  (rds : list (option nat)) :
  pos_after raw pos (r :: rds) =
  pos_after raw (pos + read_length (body_read raw pos r)) rds.
Proof. reflexivity. Qed.

Lemma pos_after_app (raw : bytes) (pos : nat) (a b : list (option nat)) :
  pos_after raw pos (a ++ b) = pos_after raw (pos_after raw pos a) b.
Proof. unfold pos_after. apply fold_left_app. Qed.

Lemma body_read_bound (raw : bytes) (pos : nat) (r : option nat) :
  (pos <= List.length raw)%nat ->
  (pos + read_length (body_read raw pos r) <= List.length raw)%nat.
Proof.
  intros Hp. destruct r as [k|]; simpl; [|lia].
  destruct (firstn k (skipn pos raw)) as [|x l] eqn:E; simpl; [lia|].
  assert (List.length (firstn k (skipn pos raw)) = S (List.length l)) as H
    by (rewrite E; reflexivity).
  rewrite length_firstn, length_skipn in H. lia.
Qed.

Lemma pos_after_bound (raw : bytes) (rds : list (option nat)) (pos : nat) :
  (pos <= List.length raw)%nat ->
  (pos_after raw pos rds <= List.length raw)%nat.
Proof.
  revert pos. induction rds as [|r rds IH]; intros pos Hp; [exact Hp|].
  rewrite pos_after_cons. apply IH. apply body_read_bound. exact Hp.
Qed.

Lemma body_read_all (raw : bytes) (pos : nat) :
  (pos <= List.length raw)%nat ->
  (pos + read_length (body_read raw pos (Some (List.length raw))))%nat =
  List.length raw.
Proof.
  intros Hp. simpl.
  destruct (firstn (List.length raw) (skipn pos raw)) as [|x l] eqn:E.
  - assert (List.length (firstn (List.length raw) (skipn pos raw)) = O) as H
      by (rewrite E; reflexivity).
    rewrite length_firstn, length_skipn in H. simpl. lia.
  - assert (List.length (firstn (List.length raw) (skipn pos raw)) =
            S (List.length l)) as H by (rewrite E; reflexivity).
    rewrite length_firstn, length_skipn in H. simpl. lia.
Qed.

Lemma pos_after_final (raw : bytes) (pos : nat) (l : list (option nat)) :
  (pos <= List.length raw)%nat ->
  pos_after raw pos (l ++ [Some (List.length raw)]) = List.length raw.
Proof.
  intros Hp. rewrite pos_after_app.
  change (pos_after raw ?p [?r]) with (p + read_length (body_read raw p r))%nat.
  apply body_read_all. apply pos_after_bound. exact Hp.
Qed.

Lemma play_reads_spec (raw : bytes) (etag : option string) (res : ResId)
  (rds : list (option nat)) (w : World) :
  reading raw etag res w ->
  exists w',
    play_reads raw res (List.length (delivered (w_log w))) rds w = Some w' /\
    after_segment raw etag
      (pos_after raw (List.length (delivered (w_log w))) rds) w'.
Proof.
  revert w. induction rds as [|r rds IH]; intros w R.
  - destruct (reading_end _ _ _ _ R) as (w' & Hs & C).
    exists w'. split; [exact Hs|].
    unfold after_segment, pos_after. simpl.
    destruct C as [(C1 & C2 & C3)|(C1 & C2)]; [left|right; auto].
    split; [exact C1|]. split; [exact C2|]. rewrite C3. reflexivity.
  - destruct (reading_read _ _ _ _ r R) as (w1 & Hs & R1 & L1).
    cbn [play_reads]. rewrite Hs.
    destruct (IH _ R1) as (w' & Hp & A).
    rewrite L1 in Hp, A.
    exists w'. split; [exact Hp|].
    rewrite pos_after_cons. exact A.
Qed.

Lemma play_segment_spec (raw : bytes) (etag : option string)
  (seg : list (option nat)) (w : World) :
  ready raw etag w ->
  exists w',
    play_segment raw etag seg w = Some w' /\
    after_segment raw etag
      (pos_after raw (List.length (delivered (w_log w))) seg) w'.
Proof.
  intros R.
  destruct (ready_respond _ _ _ (hd None seg) R)
    as (o & w1 & w2 & G & RS & S1 & N1 & S2 & R2 & L2).
  unfold play_segment. rewrite G, RS, S1, S2.
  destruct (play_reads_spec _ _ _ (tl seg) _ R2) as (w' & Hp & A).
  rewrite L2 in Hp, A.
  exists w'. split; [exact Hp|].
  destruct seg as [|r rest]; [|exact A].
  cbn [hd tl body_read read_length] in A.
  rewrite Nat.add_0_r in A. exact A.
Qed.

Lemma ready_pos_bound (raw : bytes) (etag : option string) (w : World) :
  ready raw etag w ->
  (List.length (delivered (w_log w)) <= List.length raw)%nat.
Proof.
  intros (S & _).
  destruct S as (_ & _ & _ & _ & _ & S6 & _).
  apply firstn_self_length. rewrite <- S6. reflexivity.
Qed.

Lemma serve_spec (raw : bytes) (etag : option string)
  (segs : list (list (option nat))) (last : list (option nat)) (w : World) :
  ready raw etag w ->
  exists w', serve raw etag segs last w = Some w' /\ finished raw w'.
Proof.
  revert w. induction segs as [|seg segs IH]; intros w R.
  - pose proof (ready_pos_bound _ _ _ R) as B.
    destruct (play_segment_spec _ _ (last ++ [Some (List.length raw)])%list _ R)
      as (w' & Hp & A).
    rewrite pos_after_final in A by exact B.
    destruct R as (_ & G & _). cbn [serve]. rewrite G.
    exists w'. split; [exact Hp|].
    destruct A as [(A1 & _)|(_ & A2)]; [lia|exact A2].
  - destruct (play_segment_spec _ _ seg _ R) as (w1 & Hp & A).
    destruct R as (_ & G & _). cbn [serve]. rewrite G, Hp.
    destruct A as [(_ & R1 & _)|(_ & F)].
    + apply IH. exact R1.
    + exists w1. split; [|exact F].
      destruct F as (_ & Q & _). unfold quiescent in Q.
      destruct segs; cbn [serve];
        destruct (p_gets (w_pending w1)); try reflexivity; discriminate.
Qed.

Lemma chunk_is_slice (cs : list bytes) (pre post : list bytes) (c : bytes) :
  cs = (pre ++ c :: post)%list ->
  c = firstn (List.length c)
        (skipn (List.length (List.concat pre)) (List.concat cs)).
Proof.
  intros ->. rewrite concat_app. cbn [List.concat].
  rewrite skipn_app, skipn_all, Nat.sub_diag. simpl.
  rewrite firstn_app, Nat.sub_diag, firstn_all. simpl.
  rewrite app_nil_r. reflexivity.
Qed.

(** C1.  Let a resource come over any number of connections: on each of
    [segs] the body yields what the connection says, read after read, and
    the server closes, early or not; the last one yields what is left.
    Served from the byte each request asks for, the session comes to its
    end: the chunks handed to the consumer make up the resource when put
    together, each chunk is the slice of the resource at the offset where
    the chunks before it end, and the consumer is notified of these chunks
    and then, once, of 'end', and of no error. *)
Theorem C1_interrupted_transfer_is_complete
  (path : string) (pol : option RetryPolicy) (raw : bytes)
  (etag : option string) (segs : list (list (option nat)))
  (last : list (option nat)) :
  exists w,
    fetch path pol raw etag segs last = Some w /\
    w_crashed w = None /\
    List.concat (chunks (w_log w)) = raw /\
    (forall pre c post,
       chunks (w_log w) = (pre ++ c :: post)%list ->
       c = firstn (List.length c)
             (skipn (List.length (List.concat pre)) raw)) /\
    notifications (w_log w) =
      (map OnData (chunks (w_log w)) ++ [OnEnd])%list.
Proof.
  destruct (ready_from_create path pol raw etag) as (w0 & S0 & R0).
  destruct (serve_spec raw etag segs last w0 R0) as (w & Hs & F).
  exists w. unfold fetch. rewrite S0.
  destruct F as (F1 & F2 & F3 & F4).
  split; [exact Hs|]. split; [exact F1|]. split; [exact F3|].
  split; [|exact F4].
  intros pre c post E. rewrite <- F3. apply chunk_is_slice with post. exact E.
Qed.

(* ================================================================== *)
(** * Abort *)

(** A second [abort()] changes nothing. *)
Lemma abort_twice (w w' : World) (now : Z) :
  rs_aborted (w_stream w) <> None ->
  step w (EvAbort now) = Some w' ->
  w_stream w' = w_stream w /\ w_log w' = w_log w /\
  w_pending w' = w_pending w.
Proof.
  intros A Hs. unfold step, dispatch, handle in Hs.
  destruct (w_crashed w); [discriminate|].
  unfold abort, bind, get in Hs.
  destruct (rs_aborted (w_stream w)); [|congruence].
  cbn in Hs. injection Hs as <-. cbn. rewrite app_nil_r. auto.
Qed.

(** A demand of the consumer is ignored once the stream is aborted. *)
Lemma read_after_abort (w w' : World) (rd : option bytes) :
  rs_aborted (w_stream w) <> None ->
  step w (EvRead rd) = Some w' ->
  w_stream w' = w_stream w /\ w_log w' = w_log w /\
  w_pending w' = w_pending w.
Proof.
  intros A Hs. unfold step, dispatch, handle in Hs.
  destruct (w_crashed w); [discriminate|].
  unfold _read, bind, get in Hs.
  destruct (rs_aborted (w_stream w)); [|congruence].
  cbn in Hs. injection Hs as <-. cbn. rewrite app_nil_r. auto.
Qed.

(** A request that was pending when [abort()] was called and that then
    succeeds is aborted in silence. *)
Lemma abort_then_request_starts (path : string) (pol : option RetryPolicy)
  (now : Z) :
  exists w,
    run (create path pol) [EvRead None; EvAbort now; EvGetOk] = Some w /\
    notifications (w_log w) = [] /\
    w_log w = [ClientGet (rqoptions (ReliableHttpStream path pol));
               ReqAbort O] /\
    quiescent w = true.
Proof. eexists. split; [reflexivity|]. repeat split. Qed.

(** No handler of an aborted stream issues a request or clears the
    abort. *)
Lemma aborted_handler (m : M unit) (e : Event) (s : Stream) :
  handler_of e m -> rs_aborted s <> None ->
  rs_aborted (out_stream (m s)) = rs_aborted s /\
  requests (out_actions (m s)) = [].
Proof.
  intros Hm A. destruct s. cbn [rs_aborted] in A.
  destruct rs_aborted0 as [t|]; [clear A|congruence].
  destruct e; cbn [handler_of] in Hm.
  - destruct Hm as [rd' ->]. exec. split_goal; auto.
  - subst m. exec. split_goal; auto.
  - subst m. exec. split_goal; auto.
  - destruct Hm as [req ->]. exec. split_goal; auto.
  - subst m. exec. split_goal; auto.
  - destruct Hm as [id ->]. exec. split_goal; auto.
  - subst m. exec. split_goal; auto.
  - destruct Hm as [rd' ->]. exec. split_goal; auto.
  - subst m. exec. split_goal; auto.
Qed.

(** X5.  Once the stream is aborted it stays aborted, with the time of the
    first [abort()], and it never issues another request, whatever the
    consumer, the client, the timers and the sources do afterwards. *)
Theorem X5_aborted_stream_asks_no_more (evs : list Event) (w w' : World) :
  rs_aborted (w_stream w) <> None ->
  run w evs = Some w' ->
  rs_aborted (w_stream w') = rs_aborted (w_stream w) /\
  requests (w_log w') = requests (w_log w).
Proof.
  revert w. induction evs as [|e r IH]; intros w A R; simpl in R.
  - injection R as <-. auto.
  - destruct (step w e) as [w1|] eqn:S1; [|discriminate].
    destruct (step_handler _ _ _ S1) as (m & Hm & Hs & Hl).
    destruct (aborted_handler m e (w_stream w) Hm A) as [A1 Q1].
    rewrite <- Hs in A1.
    destruct (IH w1 ltac:(congruence) R) as [A2 Q2].
    split; [congruence|].
    rewrite Q2, Hl, requests_app, Q1. apply app_nil_r.
Qed.

(** C8.  The stream is constructed, the consumer asks for data, and
    [abort()] is called while the request is pending, before any data: up
    to here the consumer has been notified of nothing.  The client then
    reports that the request could not be made, and the stream emits
    'error' with that failure, although it has been aborted. *)
Theorem C8_error_emitted_after_abort
  (path : string) (pol : option RetryPolicy) (now : Z) (err : HttpError) :
  exists w1 w2,
    run (create path pol) [EvRead None; EvAbort now] = Some w1 /\
    rs_aborted (w_stream w1) = Some now /\
    notifications (w_log w1) = [] /\
    step w1 (EvGetErr err) = Some w2 /\
    notifications (w_log w2) = [OnError (Upstream err)].
Proof. do 2 eexists. repeat split. Qed.

(* ================================================================== *)
(** * What every session keeps *)


(** X2.  The count of bytes read is the total length of the chunks pushed
    to the consumer so far, and the hash has been fed exactly those
    chunks, in the order they were pushed. *)
Theorem X2_bytes_read_are_bytes_pushed
  (path : string) (pol : option RetryPolicy) (evs : list Event) (w : World) :
  run (create path pol) evs = Some w ->
  rs_nbytesread (w_stream w) =
    Z.of_nat (List.length (List.concat (chunks (w_log w)))) /\
  rs_md5 (w_stream w) = List.concat (chunks (w_log w)).
Proof.
  intros R. destruct (Inv_reachable _ _ _ _ R) as [B _].
  split; [exact (bi_nbytes _ B) | exact (bi_md5 _ B)].
Qed.

(** X3.  A session has at most one thing outstanding at any time: a call
    of client.get that has not called back, a request that has not said
    'result', an armed retry timer, or a response that has not ended.  Two
    requests are never in flight together. *)
Theorem X3_one_activity_at_a_time
  (path : string) (pol : option RetryPolicy) (evs : list Event) (w : World) :
  run (create path pol) evs = Some w ->
  (List.length (p_gets (w_pending w)) + List.length (p_results (w_pending w)) +
   p_timers (w_pending w) + List.length (p_ends (w_pending w)) <= 1)%nat.
Proof.
  intros R. destruct (Inv_reachable _ _ _ _ R) as [_ [ph P]].
  destruct ph; simpl in P; decompose [and ex] P; clear P;
    repeat match goal with
           | H : p_gets _ = _ |- _ => rewrite H
           | H : p_results _ = _ |- _ => rewrite H
           | H : p_timers _ = _ |- _ => rewrite H
           | H : p_ends _ = _ |- _ => rewrite H
           end; simpl; lia.
Qed.

Lemma terminal_phase (w : World) :
  Inv w -> (0 < terminals (w_log w))%nat ->
  base_inv w /\ (phase_inv Completed w \/ phase_inv Failed w).
Proof.
  intros [B [ph P]] T. split; [exact B|].
  destruct ph; try (left; exact P); try (right; exact P); exfalso;
    simpl in P; decompose [and ex] P; clear P;
    repeat match goal with
           | H : w_log _ = _ |- _ => rewrite H in T
           | H : terminals _ = _ |- _ => rewrite H in T
           end; try rewrite terminals_nil in T; lia.
Qed.

(** X4.  Once 'end' or 'error' has been emitted, the consumer is notified
    of nothing more, data included, and no request is issued any more,
    whatever happens afterwards. *)
Theorem X4_nothing_after_the_terminal_notification
  (path : string) (pol : option RetryPolicy) (evs evs2 : list Event)
  (w w' : World) :
  run (create path pol) evs = Some w ->
  (0 < terminals (w_log w))%nat ->
  run w evs2 = Some w' ->
  notifications (w_log w') = notifications (w_log w) /\
  requests (w_log w') = requests (w_log w).
Proof.
  intros R T R2.
  destruct (terminal_phase _ (Inv_reachable _ _ _ _ R) T) as [B [P|P]].
  - exact (Completed_forever _ _ _ B P R2).
  - exact (Failed_forever _ _ _ B P R2).
Qed.

(* ------------------------------------------------------------------ *)

Lemma chunks_notifications (log : list Action) :
  chunks log = data_of (notifications log).
Proof.
  induction log as [|a log IH]; [reflexivity|].
  destruct a as [| | | | | | | | |[c|]]; simpl; rewrite ?IH; reflexivity.
Qed.

Lemma only_end_pushes_null (e : Event) (m : M unit) (s : Stream) :
  handler_of e m ->
  match e with EvEnd _ => False | _ => True end ->
  ~ In OnEnd (notifications (out_actions (m s))).
Proof.
  intros Hm Ne. destruct s.
  destruct e; try contradiction; cbn [handler_of] in Hm.
  - destruct Hm as [rd' ->]. exec. split_goal; cbn; intuition discriminate.
  - subst m. exec. split_goal; cbn; intuition discriminate.
  - subst m. exec. split_goal; cbn; intuition discriminate.
  - destruct Hm as [req ->]. exec. split_goal; cbn; intuition discriminate.
  - subst m. exec. split_goal; cbn; intuition discriminate.
  - destruct Hm as [id ->]. exec. split_goal; cbn; intuition discriminate.
  - subst m. exec. split_goal; cbn; intuition discriminate.
  - destruct Hm as [rd' ->]. exec. split_goal; cbn; intuition discriminate.
Qed.

Lemma verified_kept (w w' : World) (e : Event) :
  Inv w -> step w e = Some w' ->
  In OnEnd (notifications (w_log w)) -> verified w -> verified w'.
Proof.
  intros I Hs Old (len & E & L & M).
  assert (0 < terminals (w_log w))%nat as T.
  { unfold terminals.
    assert (In OnEnd (filter is_terminal (notifications (w_log w)))) as F
      by (apply filter_In; auto).
    destruct (filter is_terminal (notifications (w_log w)));
      [contradiction | simpl; lia]. }
  assert (notifications (w_log w') = notifications (w_log w)) as N.
  { destruct (terminal_phase _ I T) as [B [P|P]].
    - apply (step_Completed _ _ _ B P Hs).
    - apply (step_Failed _ _ _ B P Hs). }
  assert (delivered (w_log w') = delivered (w_log w)) as D
    by (unfold delivered; rewrite !chunks_notifications, N; reflexivity).
  assert (rs_exp_len (w_stream w) <> None) as NL by congruence.
  pose proof (step_keeps_expected _ _ _ Hs NL) as K.
  unfold expected in K. injection K as K1 K2 K3.
  exists len. rewrite D, K1, K2. auto.
Qed.

Lemma data_of_snoc (l : list Notification) (n : Notification) :
  is_terminal n = true -> data_of (l ++ [n]) = data_of l.
Proof.
  intros T. induction l as [|x l IH].
  - destruct n; [discriminate | reflexivity ..].
  - destruct x; simpl; rewrite ?IH; reflexivity.
Qed.

Lemma verified_step (w w' : World) (e : Event) :
  Inv w -> step w e = Some w' ->
  (In OnEnd (notifications (w_log w)) -> verified w) ->
  In OnEnd (notifications (w_log w')) -> verified w'.
Proof.
  intros I Hs V Hin.
  destruct e;
    try (destruct (step_handler _ _ _ Hs) as (m & Hm & _ & Hl);
         rewrite Hl, notifications_app in Hin;
         apply in_app_or in Hin; destruct Hin as [Hin|Hin];
         [ exact (verified_kept _ _ _ I Hs Hin (V Hin))
         | exfalso;
           exact (only_end_pushes_null _ m (w_stream w) Hm Logic.I Hin) ]).
  destruct (response_end_outcome _ _ _ I Hs)
    as (len & E & M & N & T & Short & Full).
  assert (rs_exp_len (w_stream w) <> None) as NL by congruence.
  pose proof (step_keeps_expected _ _ _ Hs NL) as K.
  unfold expected in K. injection K as K1 K2 K3.
  assert (~ In OnEnd (notifications (w_log w))) as New.
  { intros Old. pose proof (no_terminal_yet _ _ T Old). discriminate. }
  destruct (Z_lt_le_dec (rs_nbytesread (w_stream w)) len) as [Lt|Le].
  - exfalso. destruct (Short Lt) as [Nn _]. rewrite Nn in Hin. exact (New Hin).
  - destruct (Full Le) as (_ & _ & Out).
    assert (delivered (w_log w') = delivered (w_log w)) as D.
    { unfold delivered. rewrite !chunks_notifications.
      destruct (rs_exp_md5 (w_stream w)) as [m0|];
        [destruct (String.eqb m0 (digest (rs_md5 (w_stream w))))|];
        destruct Out as [Out _]; rewrite Out;
        rewrite data_of_snoc; reflexivity. }
    exists len. rewrite D, K1, K2. split; [exact E|]. split; [lia|].
    intros m Hm. rewrite Hm in Out. rewrite M in Out.
    destruct (String.eqb_spec m (digest (delivered (w_log w)))) as [Eq|Ne];
      [exact Eq|].
    exfalso. destruct Out as [Out _]. rewrite Out in Hin.
    apply in_app_or in Hin. destruct Hin as [Hin|[Hin|[]]];
      [exact (New Hin) | discriminate Hin].
Qed.

Lemma verified_run (evs : list Event) (w w' : World) :
  Inv w -> run w evs = Some w' ->
  (In OnEnd (notifications (w_log w)) -> verified w) ->
  In OnEnd (notifications (w_log w')) -> verified w'.
Proof.
  revert w. induction evs as [|e evs IH]; simpl; intros w I H V.
  - injection H as <-. exact V.
  - destruct (step w e) as [w1|] eqn:E; [|discriminate].
    apply (IH w1); [eapply Inv_step; eauto | exact H |].
    eapply verified_step; eauto.
Qed.

(** X6.  The stream says 'end' only when the consumer holds at least as
    many bytes as the first response declared and, if that response
    carried a checksum, when the digest of the bytes pushed equals it: a
    body that is short of the declared length or fails the checksum never
    ends in 'end'. *)
Theorem X6_end_means_verified
  (path : string) (pol : option RetryPolicy) (evs : list Event) (w : World) :
  run (create path pol) evs = Some w ->
  In OnEnd (notifications (w_log w)) ->
  exists len,
    rs_exp_len (w_stream w) = Some len /\
    len <= Z.of_nat (List.length (List.concat (chunks (w_log w)))) /\
    forall m, rs_exp_md5 (w_stream w) = Some m ->
              m = digest (List.concat (chunks (w_log w))).
Proof.
  intros R Hin.
  apply (verified_run evs (create path pol) w (Inv_create path pol) R);
    [|exact Hin].
  intros [].
Qed.

(* ------------------------------------------------------------------ *)

Lemma idle_aborted_step (w w' : World) (e : Event) :
  w_pending w = no_pending -> rs_aborted (w_stream w) <> None ->
  step w e = Some w' ->
  w_stream w' = w_stream w /\ w_log w' = w_log w /\
  w_pending w' = no_pending.
Proof.
  intros P A Hs. unfold step in Hs. destruct (w_crashed w); [discriminate|].
  destruct w as [s p en nx lg cr]; cbn in *. subst p.
  destruct (rs_aborted s) eqn:Ab; [clear A|congruence].
  destruct e; cbn in Hs; try discriminate.
  - unfold handle, _read, bind, get in Hs. cbn in Hs. rewrite Ab in Hs.
    cbn in Hs. injection Hs as <-. cbn. rewrite app_nil_r. auto.
  - unfold handle, abort, bind, get in Hs. cbn in Hs. rewrite Ab in Hs.
    cbn in Hs. injection Hs as <-. cbn. rewrite app_nil_r. auto.
Qed.

Lemma idle_aborted_run (evs : list Event) (w w' : World) :
  w_pending w = no_pending -> rs_aborted (w_stream w) <> None ->
  run w evs = Some w' ->
  w_stream w' = w_stream w /\ w_log w' = w_log w /\
  w_pending w' = no_pending.
Proof.
  revert w. induction evs as [|e evs IH]; simpl; intros w P A H.
  - injection H as <-. auto.
  - destruct (step w e) as [w1|] eqn:E; [|discriminate].
    destruct (idle_aborted_step _ _ _ P A E) as (S1 & L1 & P1).
    destruct (IH w1 P1 ltac:(congruence) H) as (S2 & L2 & P2).
    repeat split; congruence.
Qed.

(** X8.  A stream that is aborted before its first read never does
    anything: it issues no request, emits nothing and registers no
    callback, whatever is asked of it afterwards. *)
Theorem X8_aborted_before_the_first_read
  (path : string) (pol : option RetryPolicy) (now : Z) (evs : list Event)
  (w : World) :
  run (create path pol) (EvAbort now :: evs) = Some w ->
  w_log w = [] /\ w_pending w = no_pending /\
  rs_aborted (w_stream w) = Some now.
Proof.
  cbn [run].
  destruct (step (create path pol) (EvAbort now)) as [w0|] eqn:S0;
    [|discriminate].
  cbv in S0. injection S0 as <-.
  intros R.
  match type of R with run ?w0 _ = _ =>
    destruct (idle_aborted_run evs w0 w eq_refl ltac:(discriminate) R)
      as (S1 & L1 & P1)
  end.
  rewrite S1, L1. auto.
Qed.

Lemma handler_keeps_path_and_policy (e : Event) (m : M unit) (s : Stream) :
  handler_of e m ->
  rs_path (out_stream (m s)) = rs_path s /\
  rs_retrypolicy (out_stream (m s)) = rs_retrypolicy s.
Proof.
  intros Hm. destruct s.
  handler_cases e Hm; exec; split_goal; auto.
Qed.

Lemma requests_carry_run (path : string) (p : RetryPolicy)
  (evs : list Event) (w w' : World) :
  rs_path (w_stream w) = path -> rs_retrypolicy (w_stream w) = p ->
  Forall (fun o => rq_path o = path /\ rq_retry o = p) (requests (w_log w)) ->
  run w evs = Some w' ->
  rs_path (w_stream w') = path /\ rs_retrypolicy (w_stream w') = p /\
  Forall (fun o => rq_path o = path /\ rq_retry o = p) (requests (w_log w')).
Proof.
  revert w. induction evs as [|e evs IH]; simpl; intros w Hp Hr F H.
  - injection H as <-. auto.
  - destruct (step w e) as [w1|] eqn:E; [|discriminate].
    apply (IH w1); [| | |exact H].
    + destruct (step_handler _ _ _ E) as (m & Hm & Hs & _).
      rewrite Hs. rewrite (proj1 (handler_keeps_path_and_policy e m _ Hm)).
      exact Hp.
    + destruct (step_handler _ _ _ E) as (m & Hm & Hs & _).
      rewrite Hs. rewrite (proj2 (handler_keeps_path_and_policy e m _ Hm)).
      exact Hr.
    + destruct (step_issues _ _ _ E) as [Q|(Q & _)]; rewrite Q; [exact F|].
      apply Forall_app. split; [exact F|].
      constructor; [|constructor]. unfold rqoptions. cbn. auto.
Qed.

(** X9.  Every request of a session asks for the path the stream was
    constructed with and carries the retry policy it was constructed with,
    which is 3 retries between 1000 and 10000 milliseconds when none was
    given. *)
Theorem X9_requests_carry_path_and_policy
  (path : string) (pol : option RetryPolicy) (evs : list Event) (w : World) :
  run (create path pol) evs = Some w ->
  Forall (fun o =>
            rq_path o = path /\
            rq_retry o = match pol with
                         | Some p => p
                         | None => {| retries := 3; minTimeout := 1000;
                                      maxTimeout := 10000 |}
                         end)
         (requests (w_log w)).
Proof.
  intros R.
  eapply (requests_carry_run path _ evs (create path pol) w); eauto.
Qed.

(* ------------------------------------------------------------------ *)

Ltac settled_leaf :=
  repeat match goal with
         | H : (_ >? _) = true |- _ => apply Z.gtb_lt in H
         end;
  first
    [ discriminate
    | congruence
    | exfalso; lia
    | split;
      [ split; [eexists; split; [reflexivity | assumption]|];
        split; [lia|];
        first [ assumption | left; discriminate | right; discriminate ]
      | solve [leaf] ] ].

Lemma settled_step (w w' : World) (e : Event) :
  Inv w -> settled (w_stream w) -> step w e = Some w' ->
  settled (w_stream w') /\ requests (w_log w') = requests (w_log w).
Proof.
  intros [B [ph P]] St Hs. unfold settled in *.
  destruct St as ([len [El Ll]] & Nn & Rr).
  destruct ph;
    try (exfalso; simpl in P; decompose [and ex] P; destruct Rr; congruence).
  all: open_phase w B P; destruct e; run_event Hs.
  all: unfold js_gt in *.
  all: try (injection El as ->).
  all: settled_leaf.
Qed.

Lemma settled_run (evs : list Event) (w w' : World) :
  Inv w -> settled (w_stream w) -> run w evs = Some w' ->
  requests (w_log w') = requests (w_log w).
Proof.
  revert w. induction evs as [|e evs IH]; simpl; intros w I St H.
  - injection H as <-. reflexivity.
  - destruct (step w e) as [w1|] eqn:E; [|discriminate].
    destruct (settled_step _ _ _ I St E) as [St1 Q1].
    rewrite <- Q1. apply IH; [eapply Inv_step; eauto | exact St1 | exact H].
Qed.

(** X7.  If the first response of a session carries no 'content-length'
    header, or one that does not start with a number, or one that gives 0
    or less, the stream expects 0 bytes: it never asks again, so that a
    body cut short by a premature close is not resumed, and the first
    close ends the session. *)
Theorem X7_no_declared_length_no_resume
  (path : string) (pol : option RetryPolicy) (evs1 evs2 : list Event)
  (w1 w2 w : World) (req : ReqId) (sc : Z) (h : Headers) (hr : bool)
  (rd : option bytes) :
  run (create path pol) evs1 = Some w1 ->
  rs_exp_len (w_stream w1) = None ->
  step w1 (EvResultOk req sc h hr rd) = Some w2 ->
  or_zero (parseInt (h_content_length h)) <= 0 ->
  run w2 evs2 = Some w ->
  rs_exp_len (w_stream w) = Some (or_zero (parseInt (h_content_length h))) /\
  requests (w_log w) = requests (w_log w1) /\
  forall res w',
    step w (EvEnd res) = Some w' ->
    requests (w_log w') = requests (w_log w1) /\
    (terminals (w_log w') = 1)%nat.
Proof.
  intros R1 L1 S1 Z0 R2.
  pose proof (Inv_reachable _ _ _ _ R1) as I1.
  pose proof (Inv_step _ _ _ I1 S1) as I2.
  pose proof (first_response_captured _ _ _ _ _ _ _ I1 L1 S1) as C.
  unfold expected in C. injection C as C1 C2 C3.
  destruct (result_ok_outcome _ _ _ _ _ _ _ I1 S1) as (T & Q & K).
  pose proof (bi_capture _ (proj1 I1) L1) as [Et _].
  rewrite Et in K. destruct K as (_ & _ & K3 & _).
  assert (settled (w_stream w2)) as St2.
  { split; [eexists; split; [exact C1 | exact Z0]|].
    split; [apply Inv_nbytes_nonneg; exact I2|].
    left. congruence. }
  pose proof (settled_run _ _ _ I2 St2 R2) as Q2.
  destruct (run_after_first_response _ _ _ _ _ _ _ _ _ I1 L1 S1 R2) as [I X].
  unfold expected in X. injection X as X1 X2 X3.
  split; [exact X1|]. split; [congruence|].
  intros res w' Hs.
  destruct (response_end_outcome _ _ _ I Hs)
    as (len & E & M & N & T' & Short & Full).
  assert (len = or_zero (parseInt (h_content_length h))) as -> by congruence.
  pose proof (Inv_nbytes_nonneg _ I) as Nn.
  destruct (Full ltac:(lia)) as (Q3 & _ & Out).
  split; [congruence|].
  unfold terminals in *.
  destruct (rs_exp_md5 (w_stream w)) as [m0|];
    [destruct (String.eqb m0 (digest (rs_md5 (w_stream w))))|];
    destruct Out as [Out _]; rewrite Out, filter_app, length_app, T';
    reflexivity.
Qed.

(* ------------------------------------------------------------------ *)

Ltac budget_close :=
  first
    [ left; lia
    | right; split; [lia|]; split; [lia|]; first [assumption | discriminate] ].

Ltac budget_leaf Bk :=
  let op' := fresh "op" in
  let E' := fresh "E" in
  intros op' E';
  first
    [ discriminate E'
    | destruct (Bk _ E') as [?|(? & ? & ?)]; solve [budget_close]
    | injection E' as <-;
      try specialize (Bk _ eq_refl);
      cbn in *; rewrite ?length_app in *; cbn in *;
      first
        [ solve [budget_close]
        | destruct Bk as [?|(? & ? & ?)];
          first [ solve [budget_close] | congruence ] ] ].

Lemma budget_step (w w' : World) (e : Event) :
  Inv w -> budget_kept (w_stream w) -> step w e = Some w' ->
  budget_kept (w_stream w').
Proof.
  intros [B [ph P]] Bk Hs. unfold budget_kept in *.
  destruct ph.
  all: open_phase w B P; destruct e; run_event Hs.
  all: cbn in *.
  all: budget_leaf Bk.
Qed.

Lemma budget_run (evs : list Event) (w w' : World) :
  Inv w -> budget_kept (w_stream w) -> run w evs = Some w' ->
  budget_kept (w_stream w').
Proof.
  revert w. induction evs as [|e evs IH]; simpl; intros w I Bk H.
  - injection H as <-. exact Bk.
  - destruct (step w e) as [w1|] eqn:E; [|discriminate].
    apply (IH w1); [eapply Inv_step; eauto | | exact H].
    eapply budget_step; eauto.
Qed.

(** X10.  The retry operation of a session never gives out more timeouts
    than the policy has retries: while the session has not failed, the
    timeouts it has left and the failures it has recorded add up to the
    configured number of retries, and when it has recorded one failure
    more than that, no timeout is left and the stream has failed with an
    error of its own. *)
Theorem X10_retries_bound_the_failures_of_a_cycle
  (path : string) (pol : option RetryPolicy) (evs : list Event) (w : World)
  (op : RetryOperation) :
  run (create path pol) evs = Some w ->
  rs_retry (w_stream w) = Some op ->
  let n := retries (match pol with
                    | Some p => p
                    | None => default_retrypolicy
                    end) in
  (List.length (op_errors op) <= S n)%nat /\
  (rs_error (w_stream w) = None ->
   (op_timeouts op + List.length (op_errors op))%nat = n) /\
  (List.length (op_errors op) = S n ->
   op_timeouts op = O /\ rs_error (w_stream w) <> None).
Proof.
  intros R E n.
  assert (budget_kept (w_stream w)) as Bk.
  { apply (budget_run evs (create path pol) w (Inv_create path pol));
      [|exact R].
    intros op' E'. discriminate E'. }
  assert (rs_retrypolicy (w_stream w) =
          match pol with Some p => p | None => default_retrypolicy end) as Pp.
  { destruct (requests_carry_run path
                (match pol with Some p => p | None => default_retrypolicy end)
                evs (create path pol) w eq_refl eq_refl
                (Forall_nil _) R) as (_ & Q & _).
    exact Q. }
  destruct (Bk op E) as [K|(K1 & K2 & K3)]; rewrite Pp in *; fold n in K || fold n in K2.
  - repeat split; try lia.
  - repeat split; try lia; try congruence; auto.
Qed.

(* ------------------------------------------------------------------ *)

Lemma listening_step (w w' : World) (e : Event) :
  Inv w -> listening w -> step w e = Some w' -> listening w'.
Proof.
  intros [B [ph P]] Li Hs. unfold listening in *.
  destruct ph.
  all: open_phase w B P; destruct e; run_event Hs.
  all: cbn in *.
  all: intros res' E' N'; try discriminate E'.
  all: first [ injection E' as <-; cbn in *; try specialize (Li _ eq_refl N')
             | specialize (Li _ E' N') ].
  all: try match goal with
            | H : subset_of ?l ?en, Hb : below ?nx ?en |- _ =>
                assert (mem nx l = false)
                  by (destruct (mem nx l) eqn:Em; [|reflexivity];
                      apply H in Em; apply Hb in Em; lia)
            end.
  all: try discriminate; try congruence.
  all: try match goal with
           | H : subset_of ?l (?r :: ?en), H1 : mem ?x ?l = true,
             H2 : mem ?x ?en = false |- _ =>
               let K := fresh in
               pose proof (H x H1) as K; apply mem_cons_iff in K;
               destruct K as [K|K]; [subst x | congruence]
           end.
  all: try (destruct Li as [[? ?]|[? [rl [? ?]]]]; subst;
            try discriminate; try congruence).
  all: cbn in *; rewrite ?Nat.eqb_refl in *; cbn in *.
  all: try discriminate; try congruence.
  all: try solve [left; split; [reflexivity|assumption]].
  all: try solve [right; split; [reflexivity|]; eexists; split;
                  [reflexivity|assumption]].
Qed.

Lemma listening_run (evs : list Event) (w w' : World) :
  Inv w -> listening w -> run w evs = Some w' -> listening w'.
Proof.
  revert w. induction evs as [|e evs IH]; simpl; intros w I Li H.
  - injection H as <-. exact Li.
  - destruct (step w e) as [w1|] eqn:E; [|discriminate].
    apply (IH w1); [eapply Inv_step; eauto | | exact H].
    eapply listening_step; eauto.
Qed.

Lemma pushes_answer_reads (w w' : World) (e : Event) :
  Inv w -> listening w -> step w e = Some w' ->
  chunks (w_log w') = chunks (w_log w) \/
  exists buf,
    chunks (w_log w') = (chunks (w_log w) ++ [buf])%list /\
    rs_reading (w_stream w') = false /\
    match e with
    | EvRead _ => rs_reading (w_stream w) = false
    | _ => rs_reading (w_stream w) = true
    end.
Proof.
  intros [B [ph P]] Li Hs. unfold listening in *.
  destruct ph.
  all: open_phase w B P; destruct e; run_event Hs.
  all: cbn in *; rewrite ?chunks_app; cbn.
  all: try solve [left; rewrite ?app_nil_r; reflexivity].
  all: try discriminate; try congruence.
  all: try match goal with
           | H : subset_of ?l (?r :: ?en), H1 : mem ?x ?l = true,
             H2 : mem ?x ?en = false |- _ =>
               let K := fresh in
               pose proof (H x H1) as K; apply mem_cons_iff in K;
               destruct K as [K|K]; [subst x | congruence]
           end.
  all: try (specialize (Li _ eq_refl ltac:(assumption));
            destruct Li as [[? ?]|[? [rl [? ?]]]]; subst;
            try discriminate; try congruence).
  all: solve [right; eexists; repeat split; reflexivity].
Qed.

(** X11.  A turn of a session pushes at most one chunk, and only in answer
    to a read: either the turn is the consumer asking, with no read in
    progress, or a read is in progress, left by an earlier demand that
    found no data.  The push ends the read, so that two chunks are never
    pushed for one demand. *)
Theorem X11_one_chunk_for_one_read
  (path : string) (pol : option RetryPolicy) (evs : list Event)
  (w w' : World) (e : Event) :
  run (create path pol) evs = Some w ->
  step w e = Some w' ->
  chunks (w_log w') = chunks (w_log w) \/
  exists buf,
    chunks (w_log w') = (chunks (w_log w) ++ [buf])%list /\
    rs_reading (w_stream w') = false /\
    match e with
    | EvRead _ => rs_reading (w_stream w) = false
    | _ => rs_reading (w_stream w) = true
    end.
Proof.
  intros R Hs.
  apply pushes_answer_reads; [exact (Inv_reachable _ _ _ _ R) | | exact Hs].
  apply (listening_run evs (create path pol) w (Inv_create path pol));
    [|exact R].
  intros res E. discriminate E.
Qed.

(* ------------------------------------------------------------------ *)

Lemma exchange_step (w w' : World) (e : Event) :
  Inv w -> exchange w -> step w e = Some w' -> exchange w'.
Proof.
  intros [B [ph P]] (Ex1 & Ex2 & Ex3) Hs. unfold exchange in *.
  destruct ph.
  all: open_phase w B P; destruct e; run_event Hs.
  all: cbn in *.
  all: split; [intros req' E'; try discriminate E'
              | split; [intros N'; try congruence | intros A' R' N' T']].
  all: try (injection E' as <-; reflexivity).
  all: try discriminate.
  all: try (apply Ex1; assumption).
  all: try (apply Ex2; assumption).
  all: try (specialize (Ex1 _ eq_refl)).
  all: try congruence.
  all: try (apply Ex3; solve [leaf]).
  all: try (exfalso; revert T'; leaf).
Qed.

Lemma exchange_run (evs : list Event) (w w' : World) :
  Inv w -> exchange w -> run w evs = Some w' -> exchange w'.
Proof.
  revert w. induction evs as [|e evs IH]; simpl; intros w I Ex H.
  - injection H as <-. exact Ex.
  - destruct (step w e) as [w1|] eqn:E; [|discriminate].
    apply (IH w1); [eapply Inv_step; eauto | | exact H].
    eapply exchange_step; eauto.
Qed.

Lemma exchange_reachable (path : string) (pol : option RetryPolicy)
  (evs : list Event) (w : World) :
  run (create path pol) evs = Some w -> exchange w.
Proof.
  apply exchange_run; [apply Inv_create|].
  unfold exchange; cbn. repeat split; intros; congruence.
Qed.

Lemma Inv_get_Requesting (w w' : World) (e : Event) :
  Inv w -> step w e = Some w' ->
  match e with EvGetErr _ | EvGetOk => True | _ => False end ->
  base_inv w /\ phase_inv Requesting w.
Proof.
  intros [B [ph P]] Hs He. split; [exact B|].
  destruct e; try contradiction;
    (destruct ph; try exact P; exfalso;
     unfold step, dispatch in Hs; destruct (w_crashed w); try discriminate;
     simpl in P; decompose [and ex] P;
     match goal with H : p_gets _ = [] |- _ => rewrite H in Hs end;
     discriminate).
Qed.

(** X12.  A failure that client.get itself reports is fatal to the stream,
    whatever its status code and whatever is left of the retry budget:
    'error' is emitted with that failure, the retry operation is not
    asked, no timer is armed, and nothing follows. *)
Theorem X12_failure_of_get_is_fatal
  (path : string) (pol : option RetryPolicy) (evs : list Event)
  (w w' : World) (err : HttpError) :
  run (create path pol) evs = Some w ->
  step w (EvGetErr err) = Some w' ->
  notifications (w_log w') =
    (notifications (w_log w) ++ [OnError (Upstream err)])%list /\
  rs_retry (w_stream w') = rs_retry (w_stream w) /\
  quiescent w' = true /\
  forall evs2 w2,
    run w' evs2 = Some w2 ->
    requests (w_log w2) = requests (w_log w) /\
    notifications (w_log w2) = notifications (w_log w').
Proof.
  intros R Hs.
  pose proof (Inv_reachable _ _ _ _ R) as I.
  pose proof (Inv_step _ _ _ I Hs) as I'.
  destruct (Inv_get_Requesting _ _ _ I Hs Logic.I) as [B P].
  assert (notifications (w_log w') =
            (notifications (w_log w) ++ [OnError (Upstream err)])%list /\
          rs_retry (w_stream w') = rs_retry (w_stream w) /\
          quiescent w' = true /\
          requests (w_log w') = requests (w_log w) /\
          rs_error (w_stream w') <> None) as (K1 & K2 & K3 & K4 & K5).
  { clear I I' R. open_phase w B P; run_event Hs.
    all: repeat split; leaf. }
  split; [exact K1|]. split; [exact K2|]. split; [exact K3|].
  intros evs2 w2 R2.
  destruct (Inv_error_Failed _ I' K5) as [B' P'].
  destruct (Failed_forever _ _ _ B' P' R2) as [N3 Q3].
  split; congruence.
Qed.

(** X13.  A request that was pending when [abort()] was called and that
    then starts is aborted at once: its 'result' is not listened for, the
    consumer is told nothing, and nothing is left outstanding. *)
Theorem X13_request_started_after_abort_is_aborted
  (path : string) (pol : option RetryPolicy) (evs : list Event)
  (w w' : World) :
  run (create path pol) evs = Some w ->
  rs_aborted (w_stream w) <> None ->
  step w EvGetOk = Some w' ->
  w_log w' = (w_log w ++ [ReqAbort (w_next w)])%list /\
  rs_request (w_stream w') = Some (w_next w) /\
  quiescent w' = true.
Proof.
  intros R A Hs.
  pose proof (Inv_reachable _ _ _ _ R) as I.
  destruct (Inv_get_Requesting _ _ _ I Hs Logic.I) as [B P].
  clear I R. open_phase w B P; run_event Hs.
  all: try congruence.
  all: repeat split; leaf.
Qed.

(** X14.  [abort()] on a stream that has not been aborted tears down the
    exchange in progress and tells the consumer nothing: a request that
    waits for its result is aborted; while a response is being read, the
    request is aborted and the response destroyed; before the first
    request, while client.get has not called back and while the retry
    timer is armed there is nothing to tear down, and nothing is done. *)
Theorem X14_abort_tears_down_the_exchange
  (path : string) (pol : option RetryPolicy) (evs : list Event)
  (w w' : World) (now : Z) :
  run (create path pol) evs = Some w ->
  rs_aborted (w_stream w) = None ->
  step w (EvAbort now) = Some w' ->
  rs_aborted (w_stream w') = Some now /\
  notifications (w_log w') = notifications (w_log w) /\
  w_pending w' = w_pending w /\
  (forall req, p_results (w_pending w) = [req] ->
     w_log w' = (w_log w ++ [ReqAbort req])%list) /\
  (forall res, p_ends (w_pending w) = [res] ->
     exists req, rs_request (w_stream w) = Some req /\
       w_log w' = (w_log w ++ [ReqAbort req; ResDestroy res])%list) /\
  (p_results (w_pending w) = [] -> p_ends (w_pending w) = [] ->
   terminals (w_log w) = O -> w_log w' = w_log w).
Proof.
  intros R A Hs.
  destruct (Inv_reachable _ _ _ _ R) as [B [ph P]].
  destruct (exchange_reachable _ _ _ _ R) as (Ex1 & Ex2 & Ex3).
  clear R.
  destruct ph.
  all: open_phase w B P; run_event Hs.
  all: cbn in *.
  all: try discriminate.
  all: split; [reflexivity|].
  all: split; [solve [leaf]|].
  all: split; [reflexivity|].
  all: split; [intros req' E'; try discriminate E'|].
  all: try (specialize (Ex1 _ E'); try discriminate Ex1;
            injection Ex1 as ->).
  all: try (split; [intros res' E'; try discriminate E'|]).
  all: try (intros R' N' T').
  all: rewrite ?app_nil_r; try reflexivity; try discriminate.
  all: try (discriminate (Ex3 eq_refl R' N' T')).
  all: try congruence.
  all: try (exfalso; apply Ex2; [discriminate | reflexivity]).
  all: injection E' as <-; eexists; split; reflexivity.
Qed.

(* ================================================================== *)
(** * The server of the tests keeps its books *)

Lemma length_make_raw (n : nat) : List.length (make_raw n) = n.
Proof. unfold make_raw. rewrite length_map, length_seq. reflexivity. Qed.

Lemma make_raw_nth (n i : nat) :
  (i < n)%nat ->
  nth i (make_raw n) Byte.x00 = byte_of_nat (97 + i mod 25).
Proof.
  intros H. unfold make_raw.
  rewrite (nth_indep _ Byte.x00 (byte_of_nat (clow + 0 mod (chigh - clow))))
    by (rewrite length_map, length_seq; exact H).
  rewrite (map_nth (fun i => byte_of_nat (clow + i mod (chigh - clow)))).
  rewrite seq_nth by exact H. reflexivity.
Qed.

Lemma byte_of_nat_small (k : nat) :
  (k < 25)%nat -> byte_of_nat (97 + k) <> Byte.x7a.
Proof.
  intros H.
  do 25 (destruct k as [|k]; [vm_compute; discriminate|]).
  lia.
Qed.

(** X15.  The resource the server makes up for a test case has the length
    asked for, and its byte [i] is the letter ['a' + i mod 25]: the letters
    run from 'a' to 'y' and start again, and 'z' never occurs. *)
Theorem X15_resource_runs_from_a_to_y (n : nat) :
  List.length (make_raw n) = n /\
  (forall i, (i < n)%nat ->
     nth i (make_raw n) Byte.x00 = byte_of_nat (nat_of_ascii "a" + i mod 25)) /\
  ~ In Byte.x7a (make_raw n).
Proof.
  split; [apply length_make_raw|]. split; [apply make_raw_nth|].
  unfold make_raw. intros H. apply in_map_iff in H.
  destruct H as (i & E & _).
  apply (byte_of_nat_small (i mod 25)); [|exact E].
  apply Nat.mod_upper_bound. discriminate.
Qed.

Lemma expected_length_from (chunks : list Chunk) (a : nat) :
  fold_left (fun len c => match c with
                          | Size n => (len + n)%nat
                          | Word _ => len
                          end) chunks a =
  (a + expected_length chunks)%nat.
Proof.
  unfold expected_length. revert a.
  induction chunks as [|c chunks IH]; intros a; simpl; [lia|].
  rewrite IH. rewrite (IH (match c with Size n => n | Word _ => O end)).
  destruct c; simpl; lia.
Qed.

Lemma expected_length_cons (c : Chunk) (chunks : list Chunk) :
  expected_length (c :: chunks) =
  (match c with Size n => n | Word _ => O end + expected_length chunks)%nat.
Proof.
  unfold expected_length at 1. simpl. rewrite expected_length_from.
  destruct c; reflexivity.
Qed.

Lemma expected_length_nil : expected_length [] = O.
Proof. reflexivity. Qed.

Lemma expected_length_app (a b : list Chunk) :
  expected_length (a ++ b) = (expected_length a + expected_length b)%nat.
Proof.
  induction a as [|c a IH]; [reflexivity|].
  simpl. rewrite !expected_length_cons, IH. lia.
Qed.

Lemma expected_length_split (i : nat) (chunks : list Chunk) :
  expected_length chunks =
  (expected_length (firstn i chunks) + expected_length (skipn i chunks))%nat.
Proof. rewrite <- expected_length_app, firstn_skipn. reflexivity. Qed.

Lemma skipn_S_nth {A} (i : nat) (l : list A) (x : A) (r : list A) :
  skipn i l = x :: r -> skipn (S i) l = r /\ firstn (S i) l = (firstn i l ++ [x])%list.
Proof.
  revert l. induction i as [|i IH]; intros l H.
  - simpl in H. subst l. split; reflexivity.
  - destruct l as [|y l]; [discriminate|]. simpl in H.
    destruct (IH l H) as [H1 H2]. split; [exact H1|].
    change (firstn (S (S i)) (y :: l)) with (y :: firstn (S i) l).
    rewrite H2. reflexivity.
Qed.

Ltac books :=
  cbn [fetchNext_from fst snd next_chunk_incr change_etag nbytesread_add
       ts_etag ts_raw ts_md5sum ts_nbytesread ts_nbytestotal ts_next_chunk
       rp_body rp_headers rp_code h_content_length h_etag h_content_md5].

Ltac books_in H :=
  cbn [fetchNext_from fst snd next_chunk_incr change_etag nbytesread_add
       ts_etag ts_raw ts_md5sum ts_nbytesread ts_nbytestotal ts_next_chunk
       rp_body rp_headers rp_code h_content_length h_etag h_content_md5] in H.


Lemma lookup_store {A} (k : string) (v : A) (m : list (string * A)) :
  lookup k (store k v m) = Some v.
Proof.
  induction m as [|[k' v'] m IH]; simpl.
  - rewrite String.eqb_refl. reflexivity.
  - destruct (String.eqb k k') eqn:E; simpl.
    + rewrite String.eqb_refl. reflexivity.
    + rewrite E. exact IH.
Qed.





Lemma other_etag_twice (etag : string) :
  etag = "etag0" \/ etag = "etag1" -> other_etag (other_etag etag) = etag.
Proof. intros [->| ->]; reflexivity. Qed.

Lemma other_etag_known (etag : string) :
  other_etag etag = "etag0" \/ other_etag etag = "etag1".
Proof. unfold other_etag. destruct (String.eqb etag "etag0"); auto. Qed.

Lemma change_etag_passed
  (t : TestCase) (k n : nat) (tail : list Chunk) (state : TestState)
  (offset : nat) :
  ts_etag state = "etag0" \/ ts_etag state = "etag1" ->
  exists reply state',
    fetchNext_from (repeat (Word "change_etag") k ++ Size n :: tail)
      t state offset = (Normal reply, state') /\
    rp_code reply = Some (if Nat.eqb offset 0 then 206 else 200) /\
    rp_body reply = firstn n (skipn (ts_nbytesread state) (ts_raw state)) /\
    h_etag (rp_headers reply) =
      Some (if Nat.even k then ts_etag state else other_etag (ts_etag state)) /\
    ts_etag state' =
      (if Nat.even k then ts_etag state else other_etag (ts_etag state)) /\
    ts_next_chunk state' = (ts_next_chunk state + k + 1)%nat /\
    ts_nbytesread state' = (ts_nbytesread state + n)%nat.
Proof.
  revert state. induction k as [|k IH]; intros state E.
  - do 2 eexists. split; [reflexivity|]. books.
    repeat split; try lia.
  - cbn [repeat app fetchNext_from].
    change (String.eqb (str_take 6 "change_etag") "error_") with false.
    change (String.eqb "change_etag" "change_etag") with true.
    cbv iota.
    destruct (IH (change_etag (next_chunk_incr state))
                (other_etag_known (ts_etag state)))
      as (reply & state' & F & H0 & Hb & H1 & H2 & H3 & H4).
    exists reply, state'. split; [exact F|]. split; [exact H0|].
    split; [exact Hb|].
    books_in H1. books_in H2. books_in H3. books_in H4.
    fold (other_etag (ts_etag state)) in H1, H2.
    rewrite Nat.even_succ, <- Nat.negb_even.
    rewrite H1, H2, H3, H4.
    destruct (Nat.even k); cbn [negb];
      rewrite ?(other_etag_twice _ E); repeat split; lia.
Qed.

(** X17.  Entries 'change_etag' are passed without a reply of their own,
    each switching the entity tag between 'etag0' and 'etag1': the data
    reply that follows [k] of them carries the tag the server had when
    [k] is even, and the other one when [k] is odd, so that two changes
    in a row are not seen by the client. *)
Theorem X17_change_etag_switches_the_tag
  (t : TestCase) (k n : nat) (tail : list Chunk) (state : TestState)
  (offset : nat) :
  ts_etag state = "etag0" \/ ts_etag state = "etag1" ->
  exists reply state',
    fetchNext_from (repeat (Word "change_etag") k ++ Size n :: tail)
      t state offset = (Normal reply, state') /\
    h_etag (rp_headers reply) =
      Some (if Nat.even k then ts_etag state else other_etag (ts_etag state)) /\
    ts_etag state' =
      (if Nat.even k then ts_etag state else other_etag (ts_etag state)) /\
    ts_next_chunk state' = (ts_next_chunk state + k + 1)%nat /\
    ts_nbytesread state' = (ts_nbytesread state + n)%nat.
Proof.
  intros E.
  destruct (change_etag_passed t k n tail state offset E)
    as (reply & state' & F & _ & _ & H1 & H2 & H3 & H4).
  exists reply, state'. auto.
Qed.

Lemma range_header_injective (n m : Z) :
  0 <= n -> 0 <= m ->
  ("bytes=" ++ string_of_number n ++ "-")%string =
  ("bytes=" ++ string_of_number m ++ "-")%string ->
  n = m.
Proof.
  intros Hn Hm E. cbn [append] in E.
  injection E as E.
  apply (f_equal strip_dash) in E. rewrite !strip_dash_app in E.
  injection E as E.
  apply (f_equal (fun s => parseInt (Some s))) in E.
  rewrite !parseInt_string_of_number in E by assumption.
  congruence.
Qed.

Lemma fetchNext_not_refusal (rest : list Chunk) (t : TestCase)
  (state : TestState) (offset : nat) :
  fst (fetchNext_from rest t state offset) <> Normal wrong_range.
Proof.
  revert state. induction rest as [|c rest IH]; intros state.
  - cbn. discriminate.
  - destruct c as [n|s]; cbn [fetchNext_from].
    + cbn. intros H. injection H as _ _ H _. discriminate H.
    + destruct (String.eqb (str_take 6 s) "error_").
      * cbn [fst]. intros H. injection H as _ H. vm_compute in H.
        discriminate H.
      * destruct (String.eqb s "change_etag"); [apply IH|].
        cbn. discriminate.
Qed.

(** X24.  The 'range' header the stream sends and the one the server
    expects agree exactly when their counts agree: the request of a stream
    that has read [N] bytes, [N] above 0, is refused by the server with
    status 400, its state untouched, if and only if the server has
    counted another number of bytes sent for the case. *)
Theorem X24_range_is_taken_when_the_counts_agree
  (test_cases : list (string * TestCase)) (url : string) (t : TestCase)
  (test_state : list (string * TestState)) (state : TestState) (s : Stream) :
  lookup (str_drop 1 url) test_cases = Some t ->
  lookup (str_drop 1 url) test_state = Some state ->
  0 < rs_nbytesread s ->
  (handleRequest test_cases url (rq_range (rqoptions s)) test_state =
     (Normal wrong_range, test_state)
   <-> rs_nbytesread s <> Z.of_nat (ts_nbytesread state)) /\
  (fst (handleRequest test_cases url (rq_range (rqoptions s)) test_state) =
     Normal wrong_range
   <-> rs_nbytesread s <> Z.of_nat (ts_nbytesread state)).
Proof.
  intros Lc Ls Pos.
  unfold rqoptions. cbn [rq_range].
  destruct (Z.gtb_spec (rs_nbytesread s) 0) as [_|Le]; [|lia].
  unfold handleRequest. rewrite Lc.
  change (truthy (Some ("bytes=" ++ string_of_number (rs_nbytesread s) ++ "-")%string))
    with true.
  cbn [negb]. rewrite Ls.
  destruct (String.eqb_spec
              ("bytes=" ++ string_of_number (rs_nbytesread s) ++ "-")
              ("bytes=" ++ string_of_number (Z.of_nat (ts_nbytesread state))
               ++ "-")) as [E|N]; cbn [negb].
  - apply range_header_injective in E; [|lia|lia].
    pose proof (fetchNext_not_refusal
                  (skipn (ts_next_chunk state) (t_chunks t)) t state
                  (ts_nbytesread state)) as Nr.
    unfold fetchNext.
    destruct (fetchNext_from (skipn (ts_next_chunk state) (t_chunks t)) t
                state (ts_nbytesread state)) as [r state'].
    cbn [fst] in *.
    split; split; intros H; try contradiction;
      exfalso; apply Nr; congruence.
  - split; split; intros H; try reflexivity;
      intros E; apply N; rewrite E; reflexivity.
Qed.

(* ================================================================== *)
(** * The watermarks of stress-abort.js *)

Lemma forEach_invariant {A St} (f : St -> nat -> A -> St)
  (I : nat -> St -> Prop)
  (l0 : list A) :
  (forall j s x, nth_error l0 j = Some x -> I j s -> I (S j) (f s j x)) ->
  forall l pre s,
    l0 = (pre ++ l)%list -> I (List.length pre) s ->
    I (List.length l0) (forEach f (List.length pre) l s).
Proof.
  intros Step. induction l as [|x r IH]; intros pre s E H.
  - rewrite E, app_nil_r. exact H.
  - cbn [forEach].
    replace (S (List.length pre)) with (List.length (pre ++ [x])%list)
      by (rewrite length_app; simpl; lia).
    apply IH.
    + rewrite <- app_assoc. exact E.
    + rewrite length_app. simpl. rewrite Nat.add_1_r.
      apply Step; [|exact H].
      rewrite E, nth_error_app2, Nat.sub_diag by lia. reflexivity.
Qed.

Lemma low_of_watch (get : MemoryUsage -> Z) (hist : list MemoryUsage)
  (warm j : nat) (k : Mark) (m : MemoryUsage) (above : bool) :
  nth_error hist j = Some m -> (warm < j)%nat ->
  low_of get hist warm j k ->
  low_of get hist warm (S j) (watch (Z.ltb (get m) (low k)) above (get m) j k).
Proof.
  intros Hj Wj (L1 & (ml & L2 & L2') & L3 & L4).
  unfold watch. destruct (Z.ltb_spec (get m) (low k)) as [Lt|Ge].
  - unfold low_of; cbn. split; [lia|]. split; [eauto|]. split.
    + intros i m' Hi Ri. destruct (Nat.eq_dec i j) as [->|N].
      * replace m' with m by congruence. lia.
      * specialize (L3 i m' Hi ltac:(lia)). lia.
    + intros i m' Hi Ri. specialize (L3 i m' Hi ltac:(lia)). lia.
  - assert (low_of get hist warm (S j) k) as K.
    { unfold low_of. split; [lia|]. split; [eauto|]. split; [|exact L4].
      intros i m' Hi Ri. destruct (Nat.eq_dec i j) as [->|N].
      - replace m' with m by congruence. lia.
      - apply (L3 i m' Hi). lia. }
    destruct above; [|exact K].
    destruct K as (K1 & K2 & K3 & K4).
    unfold low_of; cbn. auto.
Qed.

Lemma high_of_watch (get : MemoryUsage -> Z) (hist : list MemoryUsage)
  (warm j : nat) (k : Mark) (m : MemoryUsage) :
  nth_error hist j = Some m -> (warm < j)%nat ->
  low_of get hist warm j k -> high_of get hist warm j k ->
  high_of get hist warm (S j)
    (watch (Z.ltb (get m) (low k)) (Z.gtb (get m) (high k)) (get m) j k).
Proof.
  intros Hj Wj (L1 & (ml & L2 & L2') & L3 & L4)
         (H1 & (mh & H2 & H2') & H3 & H4).
  assert (low k <= high k) as LH.
  { specialize (L3 _ _ H2 ltac:(lia)). lia. }
  unfold watch. destruct (Z.ltb_spec (get m) (low k)) as [Lt|Ge].
  - unfold high_of; cbn. split; [lia|]. split; [eauto|]. split; [|exact H4].
    intros i m' Hi Ri. destruct (Nat.eq_dec i j) as [->|N].
    + replace m' with m by congruence. lia.
    + apply (H3 i m' Hi). lia.
  - destruct (Z.gtb_spec (get m) (high k)) as [Gt|Le].
    + unfold high_of; cbn. split; [lia|]. split; [eauto|]. split.
      * intros i m' Hi Ri. destruct (Nat.eq_dec i j) as [->|N].
        -- replace m' with m by congruence. lia.
        -- specialize (H3 i m' Hi ltac:(lia)). lia.
      * intros i m' Hi Ri. specialize (H3 i m' Hi ltac:(lia)). lia.
    + unfold high_of. split; [lia|]. split; [eauto|]. split; [|exact H4].
      intros i m' Hi Ri. destruct (Nat.eq_dec i j) as [->|N].
      * replace m' with m by congruence. lia.
      * apply (H3 i m' Hi). lia.
Qed.

Lemma mark_at_low (get : MemoryUsage -> Z) (hist : list MemoryUsage)
  (warm : nat) (first : MemoryUsage) :
  nth_error hist warm = Some first ->
  low_of get hist warm (S warm) (mark_at (get first) warm) /\
  high_of get hist warm (S warm) (mark_at (get first) warm).
Proof.
  intros H. unfold low_of, high_of, mark_at; cbn.
  repeat split; try lia; eauto;
    intros i m Hi Ri; try lia;
    assert (i = warm) as -> by lia; replace m with first by congruence; lia.
Qed.

Lemma sample_first (warm : nat) (first : MemoryUsage) :
  let init := {| m_rss := mark_at (rss first) warm;
                 m_used := mark_at (heapUsed first) warm;
                 m_total := mark_at (heapTotal first) warm |} in
  sample warm init warm first = init.
Proof.
  intros init. unfold sample. rewrite Nat.ltb_irrefl.
  unfold init, watch, mark_at, num_lt, num_gt.
  change (property first "rss") with (Some (rss first)).
  change (property first "heapUsed") with (Some (heapUsed first)).
  change (property first "heapTotal") with (Some (heapTotal first)).
  change (property first "used") with (@None Z).
  change (property first "total") with (@None Z).
  cbn [m_rss m_used m_total low high low_which high_which].
  rewrite !Z.ltb_irrefl.
  assert (Z.gtb (rss first) (rss first) = false) as -> by lia.
  reflexivity.
Qed.

Lemma watch_stuck (below : bool) (v : Z) (i : nat) (k : Mark) :
  high (watch below false v i k) = high k /\
  high_which (watch below false v i k) = high_which k.
Proof. unfold watch. destruct below; split; reflexivity. Qed.

Lemma sample_summed (hist : list MemoryUsage) (warm : nat)
  (first : MemoryUsage) (j : nat) (marks : Watermarks) (m : MemoryUsage) :
  nth_error hist warm = Some first ->
  nth_error hist j = Some m ->
  summed hist warm first j marks ->
  summed hist warm first (S j) (sample warm marks j m).
Proof.
  intros Hw Hj [[Le ->]|(Lt & R1 & R2 & U1 & U2 & U3 & T1 & T2 & T3)];
    unfold sample.
  - destruct (Nat.ltb_spec j warm) as [Lj|Gj].
    + left. split; [lia|reflexivity].
    + assert (j = warm) as -> by lia.
      replace m with first by congruence.
      right. split; [lia|].
      pose proof (sample_first warm first) as Sf. cbv zeta in Sf.
      unfold sample in Sf. rewrite Nat.ltb_irrefl in Sf. rewrite Sf.
      cbn [m_rss m_used m_total].
      destruct (mark_at_low rss hist warm first Hw) as [A1 A2].
      destruct (mark_at_low heapUsed hist warm first Hw) as [B1 _].
      destruct (mark_at_low heapTotal hist warm first Hw) as [C1 _].
      split; [exact A1|]. split; [exact A2|]. split; [exact B1|].
      split; [reflexivity|]. split; [reflexivity|]. split; [exact C1|].
      split; reflexivity.
  - destruct (Nat.ltb_spec j warm) as [Lj|Gj]; [lia|].
    right. split; [lia|].
    change (property m "rss") with (Some (rss m)).
    change (property m "heapUsed") with (Some (heapUsed m)).
    change (property m "heapTotal") with (Some (heapTotal m)).
    change (property m "used") with (@None Z).
    change (property m "total") with (@None Z).
    cbn [m_rss m_used m_total num_lt num_gt].
    split; [apply low_of_watch; assumption|].
    split; [apply high_of_watch; assumption|].
    split; [apply low_of_watch; assumption|].
    destruct (watch_stuck (Z.ltb (heapUsed m) (low (m_used marks)))
                (heapUsed m) j (m_used marks)) as [-> ->].
    split; [exact U2|]. split; [exact U3|].
    split; [apply low_of_watch; assumption|].
    destruct (watch_stuck (Z.ltb (heapTotal m) (low (m_total marks)))
                (heapTotal m) j (m_total marks)) as [-> ->].
    split; [exact T2|exact T3].
Qed.

Lemma finish_summed (warm n : nat) (hist : list MemoryUsage)
  (marks : Watermarks) :
  finish warm n hist = Normal marks ->
  n = List.length hist /\ (warm < n)%nat /\
  exists first,
    nth_error hist warm = Some first /\
    summed hist warm first (List.length hist) marks.
Proof.
  unfold finish.
  destruct (Nat.eqb_spec (List.length hist) n) as [E|N]; [|discriminate].
  destruct (Nat.ltb_spec warm (List.length hist)) as [L|G]; [|discriminate].
  cbn [negb].
  destruct (nth_error hist warm) as [first|] eqn:F; [|discriminate].
  intros H. injection H as <-.
  split; [congruence|]. split; [lia|].
  exists first. split; [reflexivity|].
  apply (forEach_invariant (sample warm) (summed hist warm first) hist)
    with (pre := []).
  - intros j s x Hj Hs. apply sample_summed; assumption.
  - reflexivity.
  - left. split; [simpl; lia|reflexivity].
Qed.

(** X18.  When [finish] gets through its two assertions, there are as many
    samples as iterations done and more than the warm-up ones, and the RSS
    watermarks it prints are right: the low one is the least RSS among the
    samples from the first after the warm-up on, the high one is the
    greatest, and each names the first sample that has it. *)
Theorem X18_rss_watermarks_are_least_and_greatest
  (frNumWarmup frNDone : nat) (frMemoryHistory : list MemoryUsage)
  (marks : Watermarks) :
  finish frNumWarmup frNDone frMemoryHistory = Normal marks ->
  frNDone = List.length frMemoryHistory /\ (frNumWarmup < frNDone)%nat /\
  (forall i m, nth_error frMemoryHistory i = Some m ->
     (frNumWarmup <= i)%nat ->
     low (m_rss marks) <= rss m <= high (m_rss marks)) /\
  (exists m, nth_error frMemoryHistory (low_which (m_rss marks)) = Some m /\
             rss m = low (m_rss marks)) /\
  (exists m, nth_error frMemoryHistory (high_which (m_rss marks)) = Some m /\
             rss m = high (m_rss marks)) /\
  (frNumWarmup <= low_which (m_rss marks))%nat /\
  (frNumWarmup <= high_which (m_rss marks))%nat /\
  (forall i m, nth_error frMemoryHistory i = Some m ->
     (frNumWarmup <= i < low_which (m_rss marks))%nat ->
     low (m_rss marks) < rss m) /\
  (forall i m, nth_error frMemoryHistory i = Some m ->
     (frNumWarmup <= i < high_which (m_rss marks))%nat ->
     rss m < high (m_rss marks)).
Proof.
  intros H. destruct (finish_summed _ _ _ _ H) as (E & L & first & F & Sm).
  split; [exact E|]. split; [exact L|].
  destruct Sm as [[Le _]|(_ & (L1 & L2 & L3 & L4) & (H1 & H2 & H3 & H4) & _)];
    [lia|].
  assert (forall i m, nth_error frMemoryHistory i = Some m ->
                      (i < List.length frMemoryHistory)%nat) as Bound.
  { intros i m Hi. apply nth_error_Some. congruence. }
  split.
  { intros i m Hi Wi. pose proof (Bound i m Hi).
    split; [apply (L3 i m Hi) | apply (H3 i m Hi)]; lia. }
  repeat split; try assumption; lia.
Qed.


(* ================================================================== *)
(** * The stream against the server of the tests *)

Section AgainstTheServer.

(** The name the client gives to the error it makes of a status code: the
    test cases want 'BadRequestError' for 400 and 'ServiceUnavailableError'
    for 503; the stream never looks at it. *)
Variable error_name : Z -> string.

(** The error the client makes of a reply with a status code of 400 or
    more. *)
Definition http_error (code : Z) : HttpError :=
  {| err_name := error_name code;
     err_statusCode := Some code |}.

(** What a read yields of the part of a body that has not been read:
    nothing yet ([None]), or at most [k] bytes of it. *)
Definition body_chunk (body : bytes) (r : option nat) : option bytes :=
  match r with
  | None => None
  | Some k =>
      match firstn k body with
      | [] => None
      | b => Some b
      end
  end.

(** The reads of a body after the first, as [rds] says, then a read of
    what is left, and the end of the source. *)
Fixpoint read_body (body : bytes) (res : ResId) (rds : list (option nat))
  (w : World) : option World :=
  match rds with
  | [] =>
      match body with
      | [] => step w (EvEnd res)
      | _ =>
          let e := if mem res (p_readables (w_pending w))
                   then EvReadable res (Some body) else EvRead (Some body) in
          match step w e with
          | Some w1 => step w1 (EvEnd res)
          | None => None
          end
      end
  | r :: rds' =>
      let rd := body_chunk body r in
      let e := if mem res (p_readables (w_pending w))
               then EvReadable res rd else EvRead rd in
      match step w e with
      | Some w1 => read_body (skipn (read_length rd) body) res rds' w1
      | None => None
      end
  end.

(** The client hands the reply to the stream: the request starts, the
    response arrives, and its body is read as [seg] says, unless the
    stream has not listened for its 'end', having dropped it at once. *)
Definition hear (reply : Reply) (code : Z) (seg : list (option nat))
  (w : World) : option World :=
  match step w EvGetOk with
  | None => None
  | Some w1 =>
      let rd := body_chunk (rp_body reply) (hd None seg) in
      match step w1 (EvResultOk (w_next w) code (rp_headers reply) true rd)
      with
      | None => None
      | Some w2 =>
          match p_ends (w_pending w2) with
          | [] => Some w2
          | _ :: _ =>
              read_body (skipn (read_length rd) (rp_body reply)) (w_next w1)
                (tl seg) w2
          end
      end
  end.

(** The client reports the failure to the stream: the request starts,
    'result' comes with the error, and the retry timer fires if the stream
    has armed it. *)
Definition refuse (code : Z) (w : World) : option World :=
  match step w EvGetOk with
  | None => None
  | Some w1 =>
      match step w1 (EvResultErr (w_next w) (http_error code)) with
      | None => None
      | Some w2 =>
          match p_timers (w_pending w2) with
          | O => Some w2
          | S _ => step w2 EvTimer
          end
      end
  end.

Inductive Outcome :=
| Settled (w : World) (test_state : list (string * TestState))
    (* the stream asks for nothing more *)
| ServerThrew (e : Exn) (w : World)
    (* an exception escaped [handleRequest] *)
| Unanswered.
    (* the stream still asks when [segs] is used up, or the reply has no
       status code *)

(** Request after request, each answered by the server and its reply
    handed to the stream; [segs] tells how the body of each reply is
    read. *)
Fixpoint converse (test_cases : list (string * TestCase))
  (segs : list (list (option nat))) (w : World)
  (test_state : list (string * TestState)) : Outcome :=
  match p_gets (w_pending w) with
  | [] => Settled w test_state
  | o :: _ =>
      match segs with
      | [] => Unanswered
      | seg :: segs' =>
          match handleRequest test_cases (rq_path o) (rq_range o) test_state
          with
          | (Thrown e, _) => ServerThrew e w
          | (Normal reply, test_state') =>
              match rp_code reply with
              | None => Unanswered
              | Some code =>
                  match (if Z.geb code 400 then refuse code w
                         else hear reply code seg w) with
                  | Some w' => converse test_cases segs' w' test_state'
                  | None => Unanswered
                  end
              end
          end
      end
  end.

(** A test case run as [runTestCase] runs it: the stream is made for the
    path of the case, and the consumer asks. *)
Definition session (test_cases : list (string * TestCase)) (name : string)
  (pol : option RetryPolicy) (segs : list (list (option nat))) : Outcome :=
  match step (create ("/" ++ name) pol) (EvRead None) with
  | Some w => converse test_cases segs w []
  | None => Unanswered
  end.

(* ================================================================== *)
(** * Sessions against the server of the tests *)

Lemma register_gets (acts : list Action) (p : Pending) :
  p_gets (fold_left register acts p) = (p_gets p ++ requests acts)%list.
Proof.
  revert p. induction acts as [|a acts IH]; intros p; simpl.
  - rewrite app_nil_r. reflexivity.
  - rewrite IH. destruct a; cbn [register p_gets requests];
      rewrite <- ?app_assoc; reflexivity.
Qed.

Lemma step_gets (w w' : World) (e : Event) :
  step w e = Some w' ->
  exists acts,
    w_log w' = (w_log w ++ acts)%list /\
    p_gets (w_pending w') =
      (match e with
       | EvGetErr _ | EvGetOk => tl (p_gets (w_pending w))
       | _ => p_gets (w_pending w)
       end ++ requests acts)%list.
Proof.
  unfold step. destruct (w_crashed w); [discriminate|].
  destruct (dispatch w e) as [[[[p en] nx] m]|] eqn:D; [|discriminate].
  intros H. injection H as <-. unfold handle.
  destruct (m (w_stream w)) as [[r s] acts]. cbn.
  exists acts. split; [reflexivity|]. rewrite register_gets. f_equal.
  destruct e; simpl in D.
  - injection D as <- _ _ _. reflexivity.
  - injection D as <- _ _ _. reflexivity.
  - destruct (p_gets (w_pending w)); [discriminate|].
    injection D as <- _ _ _. reflexivity.
  - destruct (p_gets (w_pending w)); [discriminate|].
    injection D as <- _ _ _. reflexivity.
  - destruct (mem req (p_results (w_pending w))); [|discriminate].
    injection D as <- _ _ _. reflexivity.
  - destruct (mem req (p_results (w_pending w))); [|discriminate].
    injection D as <- _ _ _. reflexivity.
  - destruct (p_timers (w_pending w)); [discriminate|].
    injection D as <- _ _ _. reflexivity.
  - destruct (_ && _)%bool; [|discriminate].
    injection D as <- _ _ _. reflexivity.
  - destruct (_ && _)%bool; [|discriminate].
    injection D as <- _ _ _. reflexivity.
Qed.

Lemma step_policy (w w' : World) (e : Event) :
  step w e = Some w' -> setup w' = setup w.
Proof.
  intros H. destruct (step_handler _ _ _ H) as (m & Hm & Hs & _).
  unfold setup. rewrite Hs.
  destruct (handler_keeps_path_and_policy e m (w_stream w) Hm) as [-> ->].
  reflexivity.
Qed.

Lemma end_fresh (w w' : World) (res : ResId) :
  p_gets (w_pending w) = [] ->
  step w (EvEnd res) = Some w' ->
  p_gets (w_pending w') <> [] ->
  rs_retry (w_stream w') = Some (operation (rs_retrypolicy (w_stream w))).
Proof.
  intros G Hs N.
  destruct (step_gets _ _ _ Hs) as (acts & L & P).
  rewrite G in P. simpl in P.
  destruct (step_issues _ _ _ Hs) as [Q|(_ & _ & Q)]; [|exact Q].
  exfalso. rewrite L, requests_app in Q.
  assert (requests acts = []) as Z0.
  { destruct (requests acts); [reflexivity|].
    apply (f_equal (@List.length _)) in Q. rewrite length_app in Q.
    simpl in Q. lia. }
  congruence.
Qed.

Lemma body_chunk_slice (raw : bytes) (pos left : nat) (r : option nat) :
  (pos + left <= List.length raw)%nat ->
  let r' := option_map (fun k => Nat.min k left) r in
  body_chunk (firstn left (skipn pos raw)) r = body_read raw pos r' /\
  (read_length (body_read raw pos r') <= left)%nat /\
  skipn (read_length (body_read raw pos r')) (firstn left (skipn pos raw)) =
    firstn (left - read_length (body_read raw pos r'))
           (skipn (pos + read_length (body_read raw pos r')) raw).
Proof.
  intros Le r'. subst r'. destruct r as [k|]; cbn [option_map body_chunk body_read].
  - rewrite firstn_firstn.
    assert (List.length (firstn (Nat.min k left) (skipn pos raw)) =
            Nat.min k left) as Ln.
    { rewrite length_firstn, length_skipn. lia. }
    destruct (firstn (Nat.min k left) (skipn pos raw)) as [|x l] eqn:E.
    + cbn [read_length]. split; [reflexivity|]. split; [lia|].
      rewrite Nat.sub_0_r, Nat.add_0_r. reflexivity.
    + cbn [read_length]. split; [reflexivity|].
      split; [rewrite Ln; lia|].
      rewrite skipn_firstn_comm, skipn_skipn.
      rewrite (Nat.add_comm (List.length (x :: l)) pos). reflexivity.
  - cbn [read_length]. split; [reflexivity|]. split; [lia|].
    rewrite Nat.sub_0_r, Nat.add_0_r. reflexivity.
Qed.

Lemma reading_end_hearing (raw : bytes) (etag : option string) (res : ResId)
  (w : World) :
  reading raw etag res w ->
  exists w',
    step w (EvEnd res) = Some w' /\
    after_hearing raw etag (List.length (delivered (w_log w))) w w'.
Proof.
  intros R. destruct (reading_end _ _ _ _ R) as (w' & Hs & C).
  exists w'. split; [exact Hs|].
  split; [|split].
  - unfold after_segment.
    destruct C as [(C1 & C2 & C3)|(C1 & C2)]; [left|right; auto].
    split; [exact C1|]. split; [exact C2|]. rewrite C3. reflexivity.
  - exact (step_policy _ _ _ Hs).
  - intros N. cbn [setup snd].
    apply end_fresh with res; [|exact Hs|exact N].
    destruct R as (_ & G & _). exact G.
Qed.

Ltac took Hs :=
  match goal with
  | |- match ?X with Some _ => _ | None => _ end = _ =>
      match type of Hs with
      | _ = ?Y => replace X with Y by (symmetry; exact Hs)
      end
  end.

Lemma read_body_spec (raw : bytes) (etag : option string) (res : ResId)
  (rds : list (option nat)) (w : World) (left : nat) :
  reading raw etag res w ->
  let pos := List.length (delivered (w_log w)) in
  (pos + left <= List.length raw)%nat ->
  exists w',
    read_body (firstn left (skipn pos raw)) res rds w = Some w' /\
    after_hearing raw etag (pos + left) w w'.
Proof.
  revert w left. induction rds as [|r rds IH]; intros w left R pos Le.
  - cbn [read_body]. cbv zeta.
    destruct (firstn left (skipn pos raw)) as [|x l] eqn:E.
    + assert (left = O) as ->.
      { apply (f_equal (@List.length _)) in E.
        rewrite length_firstn, length_skipn in E. simpl in E. lia. }
      rewrite Nat.add_0_r. apply reading_end_hearing. exact R.
    + destruct (reading_read _ _ _ _ (Some left) R) as (w1 & Hs & R1 & L1).
      fold pos in Hs, L1. cbn [body_read] in Hs, L1. rewrite E in Hs, L1.
      destruct (reading_end_hearing _ _ _ _ R1) as (w' & He & A1 & A2 & A3).
      exists w'. split; [took Hs; exact He|].
      assert (List.length (x :: l) = left) as Ll.
      { rewrite <- E, length_firstn, length_skipn. lia. }
      cbn [read_length] in L1. rewrite Ll in L1. rewrite L1 in A1.
      pose proof (step_policy _ _ _ Hs) as P1.
      split; [exact A1|]. split; [congruence|].
      intros N. rewrite (A3 N). congruence.
  - cbn [read_body]. cbv zeta.
    destruct (body_chunk_slice raw pos left r Le) as (B1 & B2 & B3).
    cbv zeta in B1, B2, B3.
    destruct (reading_read _ _ _ _
                (option_map (fun k => Nat.min k left) r) R)
      as (w1 & Hs & R1 & L1).
    fold pos in Hs, L1. rewrite B1, Hs, B3.
    set (n := read_length
                (body_read raw pos
                   (option_map (fun k => Nat.min k left) r))) in *.
    rewrite <- L1.
    destruct (IH w1 (left - n)%nat R1 ltac:(rewrite L1; lia))
      as (w' & Hr & A1 & A2 & A3).
    exists w'. split; [exact Hr|].
    pose proof (step_policy _ _ _ Hs) as P1.
    rewrite L1 in A1.
    replace (pos + n + (left - n))%nat with (pos + left)%nat in A1 by lia.
    split; [exact A1|]. split; [congruence|].
    intros N. rewrite (A3 N). congruence.
Qed.

Lemma hear_spec (raw : bytes) (etag : option string) (reply : Reply)
  (code : Z) (seg : list (option nat)) (w : World) (left : nat) :
  ready raw etag w ->
  let pos := List.length (delivered (w_log w)) in
  (pos + left <= List.length raw)%nat ->
  code = fst (respond raw etag pos) ->
  rp_headers reply = snd (respond raw etag pos) ->
  rp_body reply = firstn left (skipn pos raw) ->
  exists w',
    hear reply code seg w = Some w' /\
    after_hearing raw etag (pos + left) w w'.
Proof.
  intros R pos Le Ec Eh Eb.
  destruct (body_chunk_slice raw pos left (hd None seg) Le) as (B1 & B2 & B3).
  cbv zeta in B1, B2, B3.
  destruct (ready_respond _ _ _
              (option_map (fun k => Nat.min k left) (hd None seg)) R)
    as (o & w1 & w2 & G & RS & S1 & N1 & S2 & R2 & L2).
  fold pos in S2, L2.
  assert (p_ends (w_pending w2) = [w_next w1]) as Pe
    by (destruct R2 as (_ & _ & Pe & _); exact Pe).
  unfold hear. cbv zeta. rewrite S1, Eb, B1, Ec, Eh, S2, Pe, B3.
  set (n := read_length
              (body_read raw pos
                 (option_map (fun k => Nat.min k left) (hd None seg)))) in *.
  rewrite <- L2.
  destruct (read_body_spec raw etag (w_next w1) (tl seg) w2 (left - n)%nat R2
              ltac:(rewrite L2; lia)) as (w' & Hr & A1 & A2 & A3).
  exists w'. split; [exact Hr|].
  pose proof (step_policy _ _ _ S1) as P1.
  pose proof (step_policy _ _ _ S2) as P2.
  rewrite L2 in A1.
  replace (pos + n + (left - n))%nat with (pos + left)%nat in A1 by lia.
  split; [exact A1|]. split; [congruence|].
  intros N. rewrite (A3 N). congruence.
Qed.

Ltac red_refuse :=
  cbn -[js_gt or_null or_zero parseInt String.eqb string_of_number strict_neq
        rqoptions Z.of_nat Z.add Nat.sub Z.geb Z.eqb].

Lemma ready_refuse (raw : bytes) (etag : option string) (w : World)
  (code : Z) (op : RetryOperation) :
  ready raw etag w ->
  rs_retry (w_stream w) = Some op ->
  exists w',
    refuse code w = Some w' /\
    setup w' = setup w /\
    delivered (w_log w') = delivered (w_log w) /\
    if (Z.geb code 500 && negb (Nat.eqb (op_timeouts op) 0))%bool then
      ready raw etag w' /\
      rs_retry (w_stream w') =
        Some {| op_timeouts := pred (op_timeouts op);
                op_errors := (op_errors op ++ [http_error code])%list |}
    else
      w_crashed w' = None /\ quiescent w' = true /\
      notifications (w_log w') =
        (notifications (w_log w) ++ [OnError (Upstream (http_error code))])%list.
Proof.
  intros (S & G & E & P & Rd & Rs & Rt & X) Hop.
  destruct S as (S1 & S2 & S3 & S4 & S5 & S6 & S7 & S8 & S9 & S10 & S11).
  unfold expected in X.
  unpack_world w; served_fields; subst.
  destruct op as [[|n] errs]; destruct (Z.geb code 500) eqn:Hc.
  all: cbn [andb negb Nat.eqb op_timeouts op_errors pred].
  all: eexists; split;
    [ unfold refuse, step, dispatch, handle;
      repeat (red_refuse; flat; rewrite ?Nat.eqb_refl, ?Hc); reflexivity | ].
  all: split; [reflexivity|].
  all: split; [solve [served_leaf]|].
  all: try solve [repeat split; served_leaf].
  all: split; [|reflexivity].
  all: unfold ready, served, expected;
    repeat match goal with |- _ /\ _ => split end; try solve [served_leaf].
  all: exact X.
Qed.

Lemma ready_mismatch (raw : bytes) (w : World) (code : Z) (h : Headers)
  (rd : option bytes) :
  ready raw (Some "etag0") w ->
  (0 < List.length (delivered (w_log w)))%nat ->
  h_etag h = Some "etag1" ->
  exists w1 w2,
    step w EvGetOk = Some w1 /\
    step w1 (EvResultOk (w_next w) code h true rd) = Some w2 /\
    p_ends (w_pending w2) = [] /\ quiescent w2 = true /\
    w_crashed w2 = None /\
    notifications (w_log w2) =
      (notifications (w_log w) ++ [OnError EtagMismatch])%list /\
    delivered (w_log w2) = delivered (w_log w).
Proof.
  intros (S & G & E & P & Rd & Rs & Rt & X) Pos He.
  destruct S as (S1 & S2 & S3 & S4 & S5 & S6 & S7 & S8 & S9 & S10 & S11).
  unfold expected in X.
  destruct h as [hm hl he]. cbn [h_etag] in He. subst he.
  unpack_world w; served_fields; subst.
  destruct X as [[_ Z0]|X]; [lia|].
  unfold captured in X. cbn [or_null] in X.
  remember (match digest raw with
            | EmptyString => None
            | String a s => Some (String a s)
            end) as m eqn:Hm.
  injection X as X1 X2 X3. subst rs_exp_len0 rs_exp_md6 rs_exp_etag0.
  assert (strict_neq "etag0" (Some "etag1") = true) as Sn by reflexivity.
  do 2 eexists.
  split; [unfold step, dispatch, handle; red_refuse; flat; reflexivity|].
  split; [unfold step, dispatch, handle;
          repeat (red_refuse; flat; rewrite ?Nat.eqb_refl, ?Sn); reflexivity|].
  repeat split; served_leaf.
Qed.

Section OneCase.

Variable test_cases : list (string * TestCase).
Variable name : string.
Variable t : TestCase.
Hypothesis Hcase : lookup name test_cases = Some t.
Hypothesis Hmd5 : truthy (t_md5 t) = false.

Let total : nat := expected_length (t_chunks t).
Let raw : bytes := make_raw total.
Let etag0 : option string := Some "etag0".

(** The state of the server for the case when it has passed [i] entries
    and sent [k] bytes, with the entity tag it starts with. *)
Definition state_at (i k : nat) : TestState :=
  {| ts_etag := "etag0"; ts_raw := raw; ts_md5sum := digest raw;
     ts_nbytesread := k; ts_nbytestotal := total; ts_next_chunk := i |}.

Definition data_reply (k c : nat) : Reply :=
  {| rp_code := Some (fst (respond raw etag0 k));
     rp_headers := snd (respond raw etag0 k);
     rp_body := firstn c (skipn k raw) |}.

Definition error_reply (code : Z) : Reply :=
  {| rp_code := Some code; rp_headers := no_headers; rp_body := [] |}.

Lemma fetch_at (i k : nat) (e : Entry) (more : list Chunk) :
  skipn i (t_chunks t) = chunk_of e :: more ->
  (k <= total)%nat ->
  match e with Status code => 0 <= code | Bytes _ => True end ->
  fetchNext t (state_at i k) k =
    match e with
    | Bytes c => (Normal (data_reply k c), state_at (S i) (k + c))
    | Status code => (Normal (error_reply code), state_at (S i) k)
    end.
Proof.
  intros E Le Hc. unfold fetchNext. cbn [state_at ts_next_chunk].
  rewrite E. destruct e as [c|code]; cbn [chunk_of fetchNext_from].
  - unfold data_reply, respond, state_at. books.
    rewrite Hmd5.
    replace (List.length raw) with total
      by (unfold raw; rewrite length_make_raw; reflexivity).
    rewrite Nat2Z.inj_sub by exact Le.
    reflexivity.
  - change (str_take 6 ("error_" ++ string_of_number code)) with "error_".
    change (String.eqb "error_" "error_") with true. cbv iota.
    change (str_drop 6 ("error_" ++ string_of_number code))
      with (string_of_number code).
    rewrite parseInt_string_of_number by exact Hc.
    reflexivity.
Qed.

Lemma fetch_past (i k : nat) :
  skipn i (t_chunks t) = [] ->
  fetchNext t (state_at i k) k =
    (Thrown (AssertionError "client requested past the end of the object"),
     state_at (S i) k).
Proof.
  intros E. unfold fetchNext. cbn [state_at ts_next_chunk]. rewrite E.
  reflexivity.
Qed.

Lemma handle_first (test_state : list (string * TestState)) :
  lookup name test_state = None ->
  handleRequest test_cases ("/" ++ name) None test_state =
    (fst (fetchNext t (state_at 0 0) 0),
     store name (snd (fetchNext t (state_at 0 0) 0)) test_state).
Proof.
  intros L. unfold handleRequest.
  change (str_drop 1 ("/" ++ name)) with name.
  rewrite Hcase. cbn [truthy negb]. rewrite L.
  fold total. fold raw. cbn [ts_nbytesread].
  change {| ts_etag := "etag0"; ts_raw := raw; ts_md5sum := digest raw;
            ts_nbytesread := 0; ts_nbytestotal := total;
            ts_next_chunk := 0 |} with (state_at 0 0).
  destruct (fetchNext t (state_at 0 0) 0). reflexivity.
Qed.

Lemma handle_again (test_state : list (string * TestState))
  (state : TestState) :
  lookup name test_state = Some state ->
  handleRequest test_cases ("/" ++ name) None test_state =
    (Thrown (AssertionError "!test_state.hasOwnProperty(name)"), test_state).
Proof.
  intros L. unfold handleRequest.
  change (str_drop 1 ("/" ++ name)) with name.
  rewrite Hcase. cbn [truthy negb]. rewrite L. reflexivity.
Qed.

Lemma handle_range (test_state : list (string * TestState)) (i k : nat) :
  lookup name test_state = Some (state_at i k) ->
  handleRequest test_cases ("/" ++ name)
    (Some ("bytes=" ++ string_of_number (Z.of_nat k) ++ "-")%string)
    test_state =
    (fst (fetchNext t (state_at i k) k),
     store name (snd (fetchNext t (state_at i k) k)) test_state).
Proof.
  intros L. unfold handleRequest.
  change (str_drop 1 ("/" ++ name)) with name.
  rewrite Hcase.
  change (truthy (Some ("bytes=" ++ string_of_number (Z.of_nat k) ++ "-")%string))
    with true.
  cbn [negb]. rewrite L. cbn [state_at ts_nbytesread].
  rewrite String.eqb_refl. cbn [negb].
  change {| ts_etag := "etag0"; ts_raw := raw; ts_md5sum := digest raw;
            ts_nbytesread := k; ts_nbytestotal := total;
            ts_next_chunk := i |} with (state_at i k).
  destruct (fetchNext t (state_at i k) k). reflexivity.
Qed.

(** The request of a stream that is ready to be served. *)
Lemma ready_asks (w : World) :
  ready raw etag0 w ->
  rs_path (w_stream w) = ("/" ++ name)%string ->
  let k := List.length (delivered (w_log w)) in
  exists o rest,
    p_gets (w_pending w) = o :: rest /\
    rq_path o = ("/" ++ name)%string /\
    rq_range o =
      if Nat.eqb k 0 then None
      else Some ("bytes=" ++ string_of_number (Z.of_nat k) ++ "-")%string.
Proof.
  intros (S & G & _) Hp k.
  destruct S as (_ & _ & _ & _ & S5 & _).
  exists (rqoptions (w_stream w)), []. split; [exact G|].
  unfold rqoptions. cbn [rq_path rq_range]. split; [exact Hp|].
  rewrite S5. fold k. destruct k; [reflexivity|].
  cbn [Nat.eqb].
  destruct (Z.gtb_spec (Z.of_nat (S k)) 0); [reflexivity|lia].
Qed.

(** How a session has come out, against what was to come of it. *)
Definition comes_out (v : Verdict) (o : Outcome) : Prop :=
  match v with
  | Ends =>
      exists w ts, o = Settled w ts /\ finished raw w
  | Fails code =>
      exists w ts,
        o = Settled w ts /\ w_crashed w = None /\
        notifications (w_log w) =
          (map OnData (chunks (w_log w)) ++
           [OnError (Upstream (http_error code))])%list /\
        delivered (w_log w) = firstn (List.length (delivered (w_log w))) raw
  | Throws =>
      exists what w, o = ServerThrew (AssertionError what) w
  end.

Lemma settled_at_once (segs : list (list (option nat))) (w : World)
  (ts : list (string * TestState)) :
  quiescent w = true -> converse test_cases segs w ts = Settled w ts.
Proof.
  unfold quiescent. intros Q.
  destruct (p_gets (w_pending w)) eqn:G; [|discriminate].
  destruct segs; cbn [converse]; rewrite G; reflexivity.
Qed.

Lemma length_raw : List.length raw = total.
Proof. apply length_make_raw. Qed.

Lemma sent_so_far (i : nat) (c : Chunk) (more : list Chunk) :
  skipn i (t_chunks t) = c :: more ->
  expected_length (firstn (S i) (t_chunks t)) =
    (expected_length (firstn i (t_chunks t)) +
     match c with Size n => n | Word _ => O end)%nat /\
  (expected_length (firstn (S i) (t_chunks t)) <= total)%nat /\
  skipn (S i) (t_chunks t) = more.
Proof.
  intros E. destruct (skipn_S_nth _ _ _ _ E) as [E1 E2].
  split; [|split; [|exact E1]].
  - rewrite E2, expected_length_app, expected_length_cons,
      expected_length_nil. lia.
  - unfold total.
    rewrite (expected_length_split (S i) (t_chunks t)). lia.
Qed.

Lemma converse_expect (rest : list Entry) :
  forall (segs : list (list (option nat))) (w : World)
         (ts : list (string * TestState)) (i k : nat) (op : RetryOperation),
    ready raw etag0 w ->
    rs_path (w_stream w) = ("/" ++ name)%string ->
    List.length (delivered (w_log w)) = k ->
    (0 < k < total)%nat ->
    k = expected_length (firstn i (t_chunks t)) ->
    rs_retry (w_stream w) = Some op ->
    lookup name ts = Some (state_at i k) ->
    skipn i (t_chunks t) = map chunk_of rest ->
    Forall is_failure rest ->
    (List.length rest <= List.length segs)%nat ->
    comes_out
      (expect (retries (rs_retrypolicy (w_stream w))) (op_timeouts op)
              (total - k) rest)
      (converse test_cases segs w ts).
Proof.
  induction rest as [|e rest IH];
    intros segs w ts i k op R Hp Hk Kr Ks Hop Ls Er Fr Lg.
  - exfalso. cbn [map] in Er.
    pose proof (expected_length_split i (t_chunks t)) as Sp.
    rewrite Er, expected_length_nil in Sp. fold total in Sp. lia.
  - destruct segs as [|seg segs]; [simpl in Lg; lia|].
    cbn [map] in Er.
    destruct (sent_so_far _ _ _ Er) as (Sn & Sb & Sk).
    destruct (ready_asks w R Hp) as (o & more & G & Op & Or).
    cbv zeta in Or. rewrite Hk in Or.
    destruct (Nat.eqb_spec k 0) as [Z0|_]; [lia|].
    cbn [converse]. rewrite G, Op, Or, (handle_range ts i k Ls).
    apply Forall_cons_iff in Fr. destruct Fr as [F1 F2].
    rewrite (fetch_at i k e _ Er ltac:(lia)
               ltac:(destruct e; [exact Logic.I | cbn in F1; lia])).
    simpl in Lg.
    destruct e as [c|code]; cbn [fst snd].
    + (* a part of the resource *)
      cbn [chunk_of] in Sn.
      cbn [data_reply rp_code].
      assert (Z.geb (fst (respond raw etag0 k)) 400 = false) as Hg.
      { unfold respond. cbn [fst].
        destruct (Nat.eqb _ 0); reflexivity. }
      rewrite Hg.
      destruct (hear_spec raw etag0
                  (data_reply k c) (fst (respond raw etag0 k)) seg w c R)
        as (w' & Hh & A & St & Fresh);
        try (rewrite Hk; reflexivity).
      { rewrite Hk, length_raw. lia. }
      rewrite Hh. rewrite Hk in A.
      cbn [expect].
      destruct (Nat.leb_spec (total - k) c)
        as [Full|Short].
      * destruct A as [(A1 & _)|(_ & A2)];
          [rewrite length_raw in A1; lia|].
        exists w', (store name
                     (state_at (S i)
                        (k + c)) ts).
        split; [|exact A2].
        apply settled_at_once. destruct A2 as (_ & Q & _). exact Q.
      * destruct A as [(_ & A2 & A3)|(A1 & _)];
          [|rewrite length_raw in A1; lia].
        assert (p_gets (w_pending w') <> []) as N.
        { destruct A2 as (_ & G' & _). rewrite G'. discriminate. }
        specialize (Fresh N).
        unfold setup in St. injection St as St1 St2.
        cbn [setup snd] in Fresh.
        replace (total - k - c)%nat with (total - (k + c))%nat by lia.
        rewrite <- St2.
        change (retries (rs_retrypolicy (w_stream w')))
          with (op_timeouts (operation (rs_retrypolicy (w_stream w')))) at 2.
        apply (IH segs w' _ (S i)); auto.
        -- congruence.
        -- lia.
        -- lia.
        -- rewrite Fresh, St2. reflexivity.
        -- apply lookup_store.
        -- lia.
    + (* a failure *)
      cbn [chunk_of] in Sn. cbn [is_failure] in F1.
      cbn [error_reply rp_code].
      assert (Z.geb code 400 = true) as Hg by lia.
      rewrite Hg.
      destruct (ready_refuse raw etag0 w code op R Hop)
        as (w' & Hr & St & Dl & Out).
      rewrite Hr. cbn [expect].
      destruct (Z.geb code 500 && negb (Nat.eqb (op_timeouts op) 0))%bool.
      * destruct Out as [R' Op'].
        unfold setup in St. injection St as St1 St2.
        rewrite <- St2.
        change (pred (op_timeouts op))
          with (op_timeouts
                  {| op_timeouts := pred (op_timeouts op);
                     op_errors := (op_errors op ++ [http_error code])%list |}).
        apply (IH segs w' _ (S i)); auto.
        -- congruence.
        -- rewrite Dl. exact Hk.
        -- lia.
        -- apply lookup_store.
        -- lia.
      * destruct Out as (C' & Q' & N').
        exists w', (store name
                     (state_at (S i) k) ts).
        split; [apply settled_at_once; exact Q'|].
        split; [exact C'|].
        destruct R as (S & _).
        destruct S as (_ & _ & _ & _ & _ & S6 & S7 & _).
        split.
        -- rewrite chunks_notifications, N', data_of_snoc by reflexivity.
           rewrite <- chunks_notifications, <- S7. reflexivity.
        -- rewrite Dl. exact S6.
Qed.

Lemma thrown_again (segs : list (list (option nat))) (seg : list (option nat))
  (w : World) (ts : list (string * TestState)) (state : TestState) :
  ready raw etag0 w ->
  rs_path (w_stream w) = ("/" ++ name)%string ->
  List.length (delivered (w_log w)) = O ->
  lookup name ts = Some state ->
  converse test_cases (seg :: segs) w ts =
    ServerThrew (AssertionError "!test_state.hasOwnProperty(name)") w.
Proof.
  intros R Hp Hk Ls.
  destruct (ready_asks w R Hp) as (o & more & G & Op & Or).
  cbv zeta in Or. rewrite Hk in Or. cbn [Nat.eqb] in Or.
  cbn [converse]. rewrite G, Op, Or, (handle_again ts state Ls).
  reflexivity.
Qed.

Lemma session_expect (entries : list Entry) (pol : option RetryPolicy)
  (segs : list (list (option nat))) :
  t_chunks t = map chunk_of entries ->
  Forall is_failure entries ->
  (List.length entries < List.length segs)%nat ->
  comes_out
    (expect_first
       (retries (match pol with Some p => p | None => default_retrypolicy end))
       total entries)
    (session test_cases name pol segs).
Proof.
  intros Hc Fr Lg.
  destruct (ready_from_create ("/" ++ name) pol raw etag0) as (w0 & S0 & R0).
  unfold session. rewrite S0.
  assert (rs_path (w_stream w0) = ("/" ++ name)%string /\
          List.length (delivered (w_log w0)) = O /\
          rs_retry (w_stream w0) =
            Some (operation (match pol with
                             | Some p => p
                             | None => default_retrypolicy
                             end)) /\
          rs_retrypolicy (w_stream w0) =
            match pol with Some p => p | None => default_retrypolicy end)
    as (Hp & Hk & Hop & Hpol).
  { cbn in S0. injection S0 as <-. cbn. repeat split; reflexivity. }
  clear S0.
  destruct segs as [|seg segs]; [simpl in Lg; lia|]. simpl in Lg.
  destruct (ready_asks w0 R0 Hp) as (o & more & G & Op & Or).
  cbv zeta in Or. rewrite Hk in Or. cbn [Nat.eqb] in Or.
  cbn [converse]. rewrite G, Op, Or, (handle_first [] eq_refl).
  destruct entries as [|e rest].
  - (* no entry at all *)
    rewrite (fetch_past 0 0) by (rewrite Hc; reflexivity).
    cbn [fst snd expect_first]. do 2 eexists. reflexivity.
  - assert (skipn 0 (t_chunks t) = chunk_of e :: map chunk_of rest) as Er
      by (rewrite Hc; reflexivity).
    destruct (sent_so_far _ _ _ Er) as (Sn & Sb & Sk).
    change (expected_length (firstn 0 (t_chunks t))) with O in Sn.
    apply Forall_cons_iff in Fr. destruct Fr as [F1 F2].
    rewrite (fetch_at 0 0 e _ Er ltac:(lia)
               ltac:(destruct e; [exact Logic.I | cbn in F1; lia])).
    simpl in Lg.
    destruct e as [c|code]; cbn [fst snd expect_first]; cbn [chunk_of] in Sn.
    + cbn [data_reply rp_code].
      change (Z.geb (fst (respond raw etag0 0)) 400) with false. cbv iota.
      destruct (hear_spec raw etag0 (data_reply 0 c)
                  (fst (respond raw etag0 0)) seg w0 c R0)
        as (w' & Hh & A & St & Fresh);
        try (rewrite Hk; reflexivity).
      { rewrite Hk, length_raw. lia. }
      rewrite Hh. rewrite Hk in A. cbn [Nat.add] in A.
      unfold setup in St. injection St as St1 St2.
      destruct (Nat.eqb_spec c total) as [Full|Short].
      * destruct A as [(A1 & _)|(_ & A2)];
          [rewrite length_raw in A1; lia|].
        exists w', (store name (state_at 1 (0 + c)) []).
        split; [|exact A2].
        apply settled_at_once. destruct A2 as (_ & Q & _). exact Q.
      * destruct A as [(_ & A2 & A3)|(A1 & _)];
          [|rewrite length_raw in A1; lia].
        destruct (Nat.eqb_spec c 0) as [Z0|Pos].
        -- destruct segs as [|seg' segs]; [simpl in Lg; lia|].
           rewrite (thrown_again segs seg' w' _ (state_at 1 (0 + c)));
             [do 2 eexists; reflexivity | exact A2 | congruence | congruence
             | apply lookup_store].
        -- assert (p_gets (w_pending w') <> []) as N.
           { destruct A2 as (_ & G' & _). rewrite G'. discriminate. }
           specialize (Fresh N). cbn [setup snd] in Fresh.
           rewrite <- Hpol, <- St2.
           change (retries (rs_retrypolicy (w_stream w')))
             with (op_timeouts (operation (rs_retrypolicy (w_stream w'))))
             at 2.
           assert (rs_path (w_stream w') = ("/" ++ name)%string) as Hp'
             by congruence.
           assert (List.length (delivered (w_log w')) = c) as Hk'
             by (rewrite A3; reflexivity).
           assert (0 < c < total)%nat as Kr' by lia.
           assert (c = expected_length (firstn 1 (t_chunks t))) as Ks'
             by lia.
           assert (rs_retry (w_stream w') =
                   Some (operation (rs_retrypolicy (w_stream w')))) as Hop'
             by (rewrite Fresh, St2; reflexivity).
           assert (lookup name (store name (state_at 1 (0 + c)) []) =
                   Some (state_at 1 c)) as Ls'
             by (apply lookup_store).
           replace (total - c)%nat with (total - c)%nat by reflexivity.
           exact (converse_expect rest segs w' _ 1 c _ A2 Hp' Hk' Kr' Ks'
                    Hop' Ls' Sk F2 ltac:(lia)).
    + cbn [is_failure] in F1. cbn [error_reply rp_code].
      assert (Z.geb code 400 = true) as Hg by lia.
      rewrite Hg.
      destruct (ready_refuse raw etag0 w0 code _ R0 Hop)
        as (w' & Hr & St & Dl & Out).
      rewrite Hr. cbn [operation op_timeouts] in Out.
      unfold setup in St. injection St as St1 St2.
      destruct (Z.geb code 500 &&
                negb (Nat.eqb (retries match pol with
                                       | Some p => p
                                       | None => default_retrypolicy
                                       end) 0))%bool.
      * destruct Out as [R' _].
        destruct segs as [|seg' segs]; [simpl in Lg; lia|].
        rewrite (thrown_again segs seg' w' _ (state_at 1 0));
          [do 2 eexists; reflexivity | exact R' | congruence
          | rewrite Dl; exact Hk | apply lookup_store].
      * destruct Out as (C' & Q' & N').
        exists w', (store name (state_at 1 0) []).
        split; [apply settled_at_once; exact Q'|].
        split; [exact C'|].
        destruct R0 as (S & _).
        destruct S as (_ & _ & _ & _ & _ & S6 & S7 & _).
        split.
        -- rewrite chunks_notifications, N', data_of_snoc by reflexivity.
           rewrite <- chunks_notifications, <- S7. reflexivity.
        -- rewrite Dl. exact S6.
Qed.

(** The first request of a session and its answer, when the case starts
    with a number of bytes. *)
Lemma first_part (c : nat) (more : list Chunk) (pol : option RetryPolicy)
  (seg : list (option nat)) (segs : list (list (option nat))) :
  t_chunks t = Size c :: more ->
  exists w0 w1,
    step (create ("/" ++ name) pol) (EvRead None) = Some w0 /\
    converse test_cases (seg :: segs) w0 [] =
      converse test_cases segs w1 (store name (state_at 1 c) []) /\
    (c <= total)%nat /\
    after_segment raw etag0 c w1 /\
    rs_path (w_stream w1) = ("/" ++ name)%string.
Proof.
  intros Hc.
  destruct (ready_from_create ("/" ++ name) pol raw etag0) as (w0 & S0 & R0).
  assert (rs_path (w_stream w0) = ("/" ++ name)%string /\
          List.length (delivered (w_log w0)) = O) as (Hp & Hk).
  { pose proof S0 as S0'. cbn in S0'. injection S0' as <-. cbn.
    split; reflexivity. }
  destruct (ready_asks w0 R0 Hp) as (o & rest & G & Op & Or).
  cbv zeta in Or. rewrite Hk in Or. cbn [Nat.eqb] in Or.
  assert (skipn 0 (t_chunks t) = chunk_of (Bytes c) :: more) as Er
    by (rewrite Hc; reflexivity).
  destruct (sent_so_far _ _ _ Er) as (Sn & Sb & Sk).
  change (expected_length (firstn 0 (t_chunks t))) with O in Sn.
  cbn [chunk_of] in Sn.
  destruct (hear_spec raw etag0 (data_reply 0 c)
              (fst (respond raw etag0 0)) seg w0 c R0)
    as (w1 & Hh & A & St & Fresh);
    try (rewrite Hk; reflexivity).
  { rewrite Hk, length_raw. lia. }
  rewrite Hk in A. cbn [Nat.add] in A.
  unfold setup in St. injection St as St1 St2.
  exists w0, w1. split; [exact S0|].
  split; [|split; [lia|split; [exact A|congruence]]].
  cbn [converse]. rewrite G, Op, Or, (handle_first [] eq_refl).
  rewrite (fetch_at 0 0 (Bytes c) _ Er ltac:(lia) Logic.I).
  cbn [fst snd data_reply rp_code].
  change (Z.geb (fst (respond raw etag0 0)) 400) with false. cbv iota.
  change {| rp_code := Some (fst (respond raw etag0 0));
            rp_headers := snd (respond raw etag0 0);
            rp_body := firstn c (skipn 0 raw) |} with (data_reply 0 c).
  rewrite Hh. reflexivity.
Qed.

Lemma changed_etag_found (c1 k c2 : nat) (more : list Chunk)
  (pol : option RetryPolicy) (segs : list (list (option nat))) :
  t_chunks t =
    Size c1 :: (repeat (Word "change_etag") k ++ Size c2 :: more)%list ->
  Nat.odd k = true ->
  (0 < c1 < total)%nat ->
  (2 <= List.length segs)%nat ->
  exists w ts,
    session test_cases name pol segs = Settled w ts /\
    w_crashed w = None /\
    notifications (w_log w) =
      (map OnData (chunks (w_log w)) ++ [OnError EtagMismatch])%list /\
    delivered (w_log w) = firstn c1 raw.
Proof.
  intros Hc Odd Kr Lg.
  destruct segs as [|seg [|seg' segs]]; try (simpl in Lg; lia).
  destruct (first_part c1 _ pol seg (seg' :: segs) Hc)
    as (w0 & w1 & S0 & Cv & Le & A & Hp).
  unfold session. rewrite S0, Cv.
  destruct A as [(_ & R1 & Hk)|(A1 & _)]; [|rewrite length_raw in A1; lia].
  destruct (ready_asks w1 R1 Hp) as (o & rest & G & Op & Or).
  cbv zeta in Or. rewrite Hk in Or.
  destruct (Nat.eqb_spec c1 0) as [Z0|_]; [lia|].
  cbn [converse]. rewrite G, Op, Or.
  rewrite (handle_range _ 1 c1 (lookup_store name _ [])).
  destruct (change_etag_passed t k c2 more (state_at 1 c1) c1
              (or_introl eq_refl))
    as (reply & state' & F & Hcode & _ & He & _).
  assert (fetchNext t (state_at 1 c1) c1 = (Normal reply, state')) as F'.
  { unfold fetchNext. cbn [state_at ts_next_chunk]. rewrite Hc.
    cbn [skipn]. exact F. }
  rewrite F'. cbn [fst snd]. rewrite Hcode.
  destruct (Nat.eqb_spec c1 0) as [Z0|_]; [lia|].
  change (Z.geb 200 400) with false. cbv iota.
  cbn [state_at ts_etag] in He.
  rewrite <- Nat.negb_odd, Odd in He. cbn [negb] in He.
  change (other_etag "etag0") with "etag1" in He.
  destruct (ready_mismatch raw w1 200 (rp_headers reply)
              (body_chunk (rp_body reply) (hd None seg')) R1
              ltac:(rewrite Hk; lia) He)
    as (w2 & w3 & S2 & S3 & Pe & Q & C & N & Dl).
  unfold hear. cbv zeta. rewrite S2, S3, Pe.
  exists w3, (store name state' (store name (state_at 1 c1) [])).
  split; [apply settled_at_once; exact Q|].
  split; [exact C|].
  destruct R1 as (S & _).
  destruct S as (_ & _ & _ & _ & _ & S6 & S7 & _).
  split.
  - rewrite chunks_notifications, N, data_of_snoc by reflexivity.
    rewrite <- chunks_notifications, <- S7. reflexivity.
  - rewrite Dl, S6, Hk. reflexivity.
Qed.

Lemma retry_at_the_start (first : Chunk) (more : list Chunk)
  (pol : option RetryPolicy) (segs : list (list (option nat))) :
  t_chunks t = first :: more ->
  (exists code,
     first = Word ("error_" ++ string_of_number code) /\ 500 <= code /\
     retries (match pol with Some p => p | None => default_retrypolicy end)
       <> O) \/
  (first = Size 0 /\ (0 < total)%nat) ->
  (2 <= List.length segs)%nat ->
  exists w,
    session test_cases name pol segs =
      ServerThrew (AssertionError "!test_state.hasOwnProperty(name)") w.
Proof.
  intros Hc Hf Lg.
  destruct segs as [|seg [|seg' segs]]; try (simpl in Lg; lia).
  destruct Hf as [(code & -> & C5 & Rn)|[-> Tp]].
  - destruct (ready_from_create ("/" ++ name) pol raw etag0)
      as (w0 & S0 & R0).
    unfold session. rewrite S0.
    assert (rs_path (w_stream w0) = ("/" ++ name)%string /\
            List.length (delivered (w_log w0)) = O /\
            rs_retry (w_stream w0) =
              Some (operation (match pol with
                               | Some p => p
                               | None => default_retrypolicy
                               end))) as (Hp & Hk & Hop).
    { pose proof S0 as S0'. cbn in S0'. injection S0' as <-. cbn.
      repeat split; reflexivity. }
    destruct (ready_asks w0 R0 Hp) as (o & rest & G & Op & Or).
    cbv zeta in Or. rewrite Hk in Or. cbn [Nat.eqb] in Or.
    cbn [converse]. rewrite G, Op, Or, (handle_first [] eq_refl).
    assert (skipn 0 (t_chunks t) = chunk_of (Status code) :: more) as Er
      by (rewrite Hc; reflexivity).
    rewrite (fetch_at 0 0 (Status code) _ Er ltac:(lia) ltac:(cbn; lia)).
    cbn [fst snd error_reply rp_code].
    assert (Z.geb code 400 = true) as Hg by lia.
    rewrite Hg.
    destruct (ready_refuse raw etag0 w0 code _ R0 Hop)
      as (w' & Hr & St & Dl & Out).
    rewrite Hr. cbn [operation op_timeouts] in Out.
    unfold setup in St. injection St as St1 St2.
    assert (Z.geb code 500 = true) as Hg5 by lia.
    rewrite Hg5 in Out.
    destruct (Nat.eqb_spec
                (retries match pol with
                         | Some p => p
                         | None => default_retrypolicy
                         end) 0) as [Z0|_]; [contradiction|].
    cbn [andb negb] in Out. destruct Out as [R' _].
    exists w'.
    apply (thrown_again segs seg' w' _ (state_at 1 0)).
    + exact R'.
    + congruence.
    + rewrite Dl. exact Hk.
    + apply lookup_store.
  - destruct (first_part 0 _ pol seg (seg' :: segs) Hc)
      as (w0 & w1 & S0 & Cv & Le & A & Hp).
    unfold session. rewrite S0, Cv.
    destruct A as [(_ & R1 & Hk)|(A1 & _)]; [|rewrite length_raw in A1; lia].
    exists w1.
    apply (thrown_again segs seg' w1 _ (state_at 1 0)).
    + exact R1.
    + exact Hp.
    + exact Hk.
    + apply lookup_store.
Qed.

End OneCase.

Lemma expect_bytes (retries : nat) (sizes : list nat) :
  forall budget left,
    (0 < left <= fold_right Nat.add O sizes)%nat ->
    expect retries budget left (map Bytes sizes) = Ends.
Proof.
  induction sizes as [|n sizes IH]; intros budget left H; simpl in H.
  - lia.
  - cbn [map expect]. destruct (Nat.leb_spec left n); [reflexivity|].
    apply IH. lia.
Qed.

Lemma expected_length_sizes (sizes : list nat) :
  expected_length (map Size sizes) = fold_right Nat.add O sizes.
Proof.
  induction sizes as [|n sizes IH]; [reflexivity|].
  cbn [map]. rewrite expected_length_cons, IH. reflexivity.
Qed.

(** X20.  A test case whose entries are numbers of bytes and 'error_NNN'
    with NNN from 400 on, and whose checksum is not overridden, run against
    the stream as [runTestCase] runs it, comes out as [expect_first] says,
    however the bodies are cut up by the reads.  The session ends with the
    whole resource delivered when the entries deliver it with at most
    [retries] failures of 500 and more in a row; it fails with the status
    of the first failure below 500, or of the failure that follows
    [retries] others in a row; and the server throws when the stream asks
    a second time before it has read a byte, since such a request has no
    'range' header. *)
Theorem X20_sessions_come_out_as_the_entries_say
  (test_cases : list (string * TestCase)) (name : string) (t : TestCase)
  (entries : list Entry) (pol : option RetryPolicy)
  (segs : list (list (option nat))) :
  lookup name test_cases = Some t ->
  truthy (t_md5 t) = false ->
  t_chunks t = map chunk_of entries ->
  Forall is_failure entries ->
  (List.length entries < List.length segs)%nat ->
  let raw := make_raw (expected_length (t_chunks t)) in
  match expect_first
          (retries (match pol with
                    | Some p => p
                    | None => default_retrypolicy
                    end))
          (expected_length (t_chunks t)) entries
  with
  | Ends =>
      exists w ts,
        session test_cases name pol segs = Settled w ts /\
        w_crashed w = None /\
        List.concat (chunks (w_log w)) = raw /\
        notifications (w_log w) =
          (map OnData (chunks (w_log w)) ++ [OnEnd])%list
  | Fails code =>
      exists w ts,
        session test_cases name pol segs = Settled w ts /\
        w_crashed w = None /\
        notifications (w_log w) =
          (map OnData (chunks (w_log w)) ++
           [OnError (Upstream (http_error code))])%list /\
        List.concat (chunks (w_log w)) =
          firstn (List.length (List.concat (chunks (w_log w)))) raw
  | Throws =>
      exists what w,
        session test_cases name pol segs = ServerThrew (AssertionError what) w
  end.
Proof.
  intros Hcase Hmd5 Hc Fr Lg raw.
  pose proof (session_expect test_cases name t Hcase Hmd5 entries pol segs
                Hc Fr Lg) as K.
  unfold comes_out in K.
  destruct (expect_first _ _ entries) as [|code|].
  - destruct K as (w & ts & E & F1 & F2 & F3 & F4).
    exists w, ts. auto.
  - destruct K as (w & ts & E & K1 & K2 & K3).
    exists w, ts. auto.
  - exact K.
Qed.

(** X21.  A test case that is made of numbers of bytes only, and that
    starts with a number above 0 or with the whole resource, is fetched to
    its end: however often the server closes early, and however the bodies
    are cut up by the reads, the consumer gets the resource the server
    made up, chunk by chunk, and then 'end', and no error. *)
Theorem X21_interrupted_cases_are_fetched
  (test_cases : list (string * TestCase)) (name : string) (t : TestCase)
  (first : nat) (sizes : list nat) (pol : option RetryPolicy)
  (segs : list (list (option nat))) :
  lookup name test_cases = Some t ->
  truthy (t_md5 t) = false ->
  t_chunks t = map Size (first :: sizes) ->
  (0 < first)%nat \/ sizes = [] ->
  (List.length (first :: sizes) < List.length segs)%nat ->
  exists w ts,
    session test_cases name pol segs = Settled w ts /\
    w_crashed w = None /\
    List.concat (chunks (w_log w)) =
      make_raw (fold_right Nat.add O (first :: sizes)) /\
    notifications (w_log w) =
      (map OnData (chunks (w_log w)) ++ [OnEnd])%list.
Proof.
  intros Hcase Hmd5 Hc Hf Lg.
  assert (t_chunks t = map chunk_of (map Bytes (first :: sizes))) as Hc'
    by (rewrite Hc, map_map; reflexivity).
  assert (Forall is_failure (map Bytes (first :: sizes))) as Fr
    by (apply Forall_forall; intros e He; apply in_map_iff in He;
        destruct He as (n & <- & _); exact Logic.I).
  pose proof (session_expect test_cases name t Hcase Hmd5 _ pol segs
                Hc' Fr ltac:(rewrite length_map; exact Lg)) as K.
  assert (expected_length (t_chunks t) = fold_right Nat.add O (first :: sizes))
    as Tl by (rewrite Hc; apply expected_length_sizes).
  rewrite Tl in K. cbn [map expect_first] in K.
  assert (comes_out t Ends (session test_cases name pol segs)) as K'.
  { cbn [fold_right] in K.
    destruct (Nat.eqb_spec first (first + fold_right Nat.add O sizes));
      [exact K|].
    destruct (Nat.eqb_spec first 0) as [Z0|Pos].
    - exfalso. destruct Hf as [Hf| ->]; [lia|]. simpl in n. lia.
    - rewrite expect_bytes in K by lia. exact K. }
  destruct K' as (w & ts & E & F1 & F2 & F3 & F4).
  exists w, ts. rewrite <- Tl. auto.
Qed.

(** X22.  The server of the tests cannot serve a second request for a case
    from a stream that has read nothing: the stream sends no 'range'
    header before its first byte, the server takes a request without one
    for the start of a new stream, and its assertion that it has no state
    for the case fails.  This happens when the case starts with a failure
    of 500 or more and the policy has a retry, and when it starts with 0
    bytes of a resource that is not empty. *)
Theorem X22_second_request_before_the_first_byte
  (test_cases : list (string * TestCase)) (name : string) (t : TestCase)
  (first : Chunk) (more : list Chunk) (pol : option RetryPolicy)
  (segs : list (list (option nat))) :
  lookup name test_cases = Some t ->
  truthy (t_md5 t) = false ->
  t_chunks t = first :: more ->
  (exists code,
     first = Word ("error_" ++ string_of_number code) /\ 500 <= code /\
     retries (match pol with Some p => p | None => default_retrypolicy end)
       <> O) \/
  (first = Size 0 /\ (0 < expected_length (t_chunks t))%nat) ->
  (2 <= List.length segs)%nat ->
  exists w,
    session test_cases name pol segs =
      ServerThrew (AssertionError "!test_state.hasOwnProperty(name)") w.
Proof.
  intros Hcase Hmd5 Hc Hf Lg.
  exact (retry_at_the_start test_cases name t Hcase Hmd5 first more pol segs
           Hc Hf Lg).
Qed.

(** X23.  A change of the entity tag between two connections is found
    out: when the case sends a part of the resource, then passes an odd
    number of 'change_etag' entries and sends on, the stream hands the
    first part to the consumer, emits 'error' for the changed object on
    the second response, of which it reads nothing, and asks no more. *)
Theorem X23_changed_etag_is_found_out
  (test_cases : list (string * TestCase)) (name : string) (t : TestCase)
  (c1 k c2 : nat) (more : list Chunk) (pol : option RetryPolicy)
  (segs : list (list (option nat))) :
  lookup name test_cases = Some t ->
  truthy (t_md5 t) = false ->
  t_chunks t =
    Size c1 :: (repeat (Word "change_etag") k ++ Size c2 :: more)%list ->
  Nat.odd k = true ->
  (0 < c1 < expected_length (t_chunks t))%nat ->
  (2 <= List.length segs)%nat ->
  exists w ts,
    session test_cases name pol segs = Settled w ts /\
    w_crashed w = None /\
    notifications (w_log w) =
      (map OnData (chunks (w_log w)) ++ [OnError EtagMismatch])%list /\
    List.concat (chunks (w_log w)) =
      firstn c1 (make_raw (expected_length (t_chunks t))).
Proof.
  intros Hcase Hmd5 Hc Odd Kr Lg.
  exact (changed_etag_found test_cases name t Hcase Hmd5 c1 k c2 more pol
           segs Hc Odd Kr Lg).
Qed.

End AgainstTheServer.

End WithDigest.

(* ================================================================== *)
(** * The sessions of the test suite *)

(** A stand-in for the digest in the examples: the bytes themselves. *)
Definition plain_digest (b : bytes) : string := string_of_list_byte b.

Definition test_policy : RetryPolicy :=
  {| retries := 2; minTimeout := 500; maxTimeout := 2000 |}.

Definition abc : bytes := [Byte.x61; Byte.x62; Byte.x63].

Definition headers_of (md5 : option string) (len : string)
  (etag : option string) : Headers :=
  {| h_content_md5 := md5; h_content_length := Some len; h_etag := etag |}.

Definition error_500 : HttpError :=
  {| err_name := "InternalServerError"; err_statusCode := Some 500 |}.
Definition error_503 : HttpError :=
  {| err_name := "ServiceUnavailableError"; err_statusCode := Some 503 |}.
Definition error_400 : HttpError :=
  {| err_name := "BadRequestError"; err_statusCode := Some 400 |}.

(** The world a run ends in; the fresh world when the run cannot happen. *)
Definition after (evs : list Event) : World :=
  match run plain_digest (create "/t" (Some test_policy)) evs with
  | Some w => w
  | None => create "/t" (Some test_policy)
  end.

Definition a : bytes := [Byte.x61].
Definition bc : bytes := [Byte.x62; Byte.x63].

(** One byte arrives, and the server closes. *)
Definition short_response : list Event :=
  [EvRead None; EvGetOk;
   EvResultOk O 206 (headers_of (Some "abc") "3" (Some "etag0")) true (Some a)].

(** 'transient_500': failures between the parts do not add up. *)
Example transient_500 :
  notifications
    (w_log (after
       (short_response ++
        [EvEnd 1%nat; EvGetOk; EvResultErr 2%nat error_500; EvTimer; EvGetOk;
         EvResultErr 3%nat error_503; EvTimer; EvGetOk;
         EvResultOk 4%nat 200 (headers_of None "2" (Some "etag0")) true
           (Some [Byte.x62]);
         EvEnd 5%nat; EvGetOk; EvResultErr 6%nat error_500; EvTimer; EvGetOk;
         EvResultErr 7%nat error_503; EvTimer; EvGetOk;
         EvResultOk 8%nat 200 (headers_of None "1" (Some "etag0")) true
           (Some [Byte.x63]);
         EvEnd 9%nat]))) =
  [OnData a; OnData [Byte.x62]; OnData [Byte.x63]; OnEnd].
Proof. reflexivity. Qed.

(** 'persistent_500': the third failure in a row is emitted. *)
Example persistent_500 :
  notifications
    (w_log (after
       (short_response ++
        [EvEnd 1%nat; EvGetOk; EvResultErr 2%nat error_500; EvTimer; EvGetOk;
         EvResultErr 3%nat error_503; EvTimer; EvGetOk;
         EvResultErr 4%nat error_503]))) =
  [OnData a; OnError (Upstream error_503)].
Proof. reflexivity. Qed.

(** 'error_400'. *)
Example error_400_is_fatal :
  notifications
    (w_log (after [EvRead None; EvGetOk; EvResultErr O error_400])) =
  [OnError (Upstream error_400)] /\
  requests (w_log (after [EvRead None; EvGetOk; EvResultErr O error_400])) =
  [rqoptions (ReliableHttpStream "/t" (Some test_policy))].
Proof. split; reflexivity. Qed.

(** 'changed_etag'. *)
Example changed_etag :
  notifications
    (w_log (after
       (short_response ++
        [EvEnd 1%nat; EvGetOk;
         EvResultOk 2%nat 200 (headers_of None "2" (Some "etag1")) true
           (Some bc)]))) =
  [OnData a; OnError EtagMismatch].
Proof. reflexivity. Qed.

(** 'bad_md5'. *)
Example bad_md5 :
  notifications
    (w_log (after
       [EvRead None; EvGetOk;
        EvResultOk O 206 (headers_of (Some "deadbeef") "3" (Some "etag0"))
          true (Some abc);
        EvEnd 1%nat])) =
  [OnData abc; OnError (Md5Mismatch "deadbeef" "abc")].
Proof. reflexivity. Qed.

(** 'interrupted', in small: three bytes over four connections, two of
    which the server closes at once. *)
Example interrupted :
  option_map (fun w => (notifications (w_log w),
                        map rq_range (requests (w_log w))))
    (fetch plain_digest "/t" (Some test_policy) abc (Some "etag0")
       [[Some 1%nat]; []; [None]] []) =
  Some ([OnData a; OnData bc; OnEnd],
        [None; Some "bytes=1-"; Some "bytes=1-"; Some "bytes=1-"]).
Proof. reflexivity. Qed.

(** A source that still says 'readable' and 'end' after [abort()] gets its
    data and the end of the stream through to the consumer: [pump] and
    [responseEnd] do not look at [rs_aborted] either. *)
Example abort_then_source_goes_on :
  notifications
    (w_log (after
       [EvRead None; EvGetOk;
        EvResultOk O 206 (headers_of (Some "abc") "3" (Some "etag0")) true
          None;
        EvAbort 7; EvReadable 1%nat (Some abc); EvEnd 1%nat])) =
  [OnData abc; OnEnd].
Proof. reflexivity. Qed.

(* ================================================================== *)
(** * The claims at work *)

Definition start : World := create "/t" (Some test_policy).

(** Closed equations are settled by evaluation. *)
Ltac computed := vm_compute; reflexivity.

(** One of three bytes has been read and the response is still open. *)
Definition w_short : World := after short_response.

(** The server has closed, and the next request is out. *)
Definition w_resumed : World := after (short_response ++ [EvEnd 1%nat]).

Lemma C2_witness :
  run plain_digest start short_response = Some w_short /\
  rs_aborted (w_stream w_short) = None /\
  step plain_digest w_short (EvEnd 1%nat) = Some w_resumed /\
  rs_exp_len (w_stream w_short) = Some 3 /\
  w_log w_resumed =
    (w_log w_short ++ [SrcRemoveAllReadable 1%nat;
                       ClientGet (rqoptions (w_stream w_short))])%list.
Proof.
  split; [vm_compute; reflexivity|]. split; [vm_compute; reflexivity|]. split; [vm_compute; reflexivity|].
  split; [vm_compute; reflexivity|].
  destruct (C2_response_end_resumes_iff_short plain_digest "/t"
              (Some test_policy) short_response w_short w_resumed 1%nat
              ltac:(computed) ltac:(computed) ltac:(computed)) as (len & E & Short & _).
  apply Short. vm_compute in E. injection E as <-. computed.
Defined.

Lemma C3_witness :
  run plain_digest start short_response = Some w_short /\
  step plain_digest w_short (EvEnd 1%nat) = Some w_resumed /\
  exists o,
    requests (w_log w_resumed) = (requests (w_log w_short) ++ [o])%list /\
    rq_range o = Some "bytes=1-".
Proof.
  split; [vm_compute; reflexivity|]. split; [vm_compute; reflexivity|].
  destruct (C3_range_follows_bytes_read plain_digest "/t"
              (Some test_policy) short_response w_short w_resumed
              (EvEnd 1%nat) ltac:(computed) ltac:(computed))
    as [H|(o & H1 & _ & _ & _ & H2)].
  - vm_compute in H. discriminate H.
  - exists o. split; [exact H1|]. rewrite H2. computed.
Defined.

(** The whole resource arrives under a checksum that is not its own. *)
Definition bad_headers : Headers :=
  headers_of (Some "deadbeef") "3" (Some "etag0").
Definition w_asked : World := after [EvRead None; EvGetOk].
Definition w_all_read : World :=
  after [EvRead None; EvGetOk; EvResultOk O 206 bad_headers true (Some abc)].
Definition w_bad_md5 : World :=
  after [EvRead None; EvGetOk; EvResultOk O 206 bad_headers true (Some abc);
         EvEnd 1%nat].

Lemma C4_witness :
  run plain_digest start [EvRead None; EvGetOk] = Some w_asked /\
  rs_exp_len (w_stream w_asked) = None /\
  step plain_digest w_asked (EvResultOk O 206 bad_headers true (Some abc)) =
    Some w_all_read /\
  run plain_digest w_all_read [] = Some w_all_read /\
  step plain_digest w_all_read (EvEnd 1%nat) = Some w_bad_md5 /\
  notifications (w_log w_bad_md5) =
    (notifications (w_log w_all_read) ++
     [OnError (Md5Mismatch "deadbeef" "abc")])%list /\
  ~ In OnEnd (notifications (w_log (after
       [EvRead None; EvGetOk; EvResultOk O 206 bad_headers true (Some abc);
        EvEnd 1%nat; EvRead None; EvAbort 9]))).
Proof.
  do 5 (split; [vm_compute; reflexivity|]).
  destruct (C4_checksum_decides_completion plain_digest "/t"
              (Some test_policy) [EvRead None; EvGetOk] [] w_asked w_all_read
              w_all_read w_bad_md5 O 206 bad_headers true (Some abc) 1%nat
              ltac:(computed) ltac:(computed) ltac:(computed) ltac:(computed) ltac:(computed)) as [Bad _].
  destruct (Bad "deadbeef") as [N Never].
  - computed.
  - vm_compute. discriminate.
  - vm_compute. discriminate.
  - split; [exact N|].
    apply (Never [EvRead None; EvAbort 9]). computed.
Defined.

(** The second response carries another entity tag. *)
Definition good_headers : Headers :=
  headers_of (Some "abc") "3" (Some "etag0").
Definition w_first : World :=
  after [EvRead None; EvGetOk; EvResultOk O 206 good_headers true (Some a)].
Definition w_again : World := after (short_response ++ [EvEnd 1%nat; EvGetOk]).
Definition changed_headers : Headers := headers_of None "2" (Some "etag1").
Definition w_changed : World :=
  after (short_response ++
         [EvEnd 1%nat; EvGetOk;
          EvResultOk 2%nat 200 changed_headers true (Some bc)]).

Lemma C5_witness :
  run plain_digest start [EvRead None; EvGetOk] = Some w_asked /\
  rs_exp_len (w_stream w_asked) = None /\
  step plain_digest w_asked (EvResultOk O 206 good_headers true (Some a)) =
    Some w_first /\
  run plain_digest w_first [EvEnd 1%nat; EvGetOk] = Some w_again /\
  expected (w_stream w_again) = (Some 3, Some "abc", Some "etag0") /\
  step plain_digest w_again
    (EvResultOk 2%nat 200 changed_headers true (Some bc)) = Some w_changed /\
  notifications (w_log w_changed) =
    (notifications (w_log w_again) ++ [OnError EtagMismatch])%list.
Proof.
  do 4 (split; [vm_compute; reflexivity|]).
  destruct (C5_etag_mismatch_is_fatal plain_digest "/t" (Some test_policy)
              [EvRead None; EvGetOk] [EvEnd 1%nat; EvGetOk]
              w_asked w_first w_again O 206 good_headers true (Some a)
              ltac:(computed) ltac:(computed) ltac:(computed) ltac:(computed)) as [X Fatal].
  split; [exact X|]. split; [vm_compute; reflexivity|].
  destruct (Fatal "etag0" 2%nat 200 changed_headers true (Some bc) w_changed)
    as [N _].
  - computed.
  - computed.
  - vm_compute. discriminate.
  - exact N.
Defined.

(** The first request fails with a 500. *)
Definition w_requested : World := after [EvRead None; EvGetOk].
Definition w_backing_off : World :=
  after [EvRead None; EvGetOk; EvResultErr O error_500].

Lemma C6_witness :
  run plain_digest start [EvRead None; EvGetOk] = Some w_requested /\
  step plain_digest w_requested (EvResultErr O error_500) =
    Some w_backing_off /\
  rs_retry (w_stream w_requested) = Some (operation test_policy) /\
  w_log w_backing_off = (w_log w_requested ++ [RetryTimer])%list /\
  op_timeouts_of (rs_retry (w_stream w_backing_off)) = 1%nat.
Proof.
  do 2 (split; [vm_compute; reflexivity|]). split; [vm_compute; reflexivity|].
  destruct (C6_retry_only_transient_failures plain_digest "/t"
              (Some test_policy) [EvRead None; EvGetOk] w_requested
              w_backing_off O error_500 ltac:(computed) ltac:(computed))
    as (op & E & _ & Again & _).
  vm_compute in E. injection E as <-.
  destruct Again as (L & _ & T & _).
  - computed.
  - vm_compute. lia.
  - split; [exact L|exact T].
Defined.

(** The whole resource arrives at once, under its own checksum. *)
Definition w_done : World :=
  after [EvRead None; EvGetOk; EvResultOk O 206 good_headers true (Some abc);
         EvEnd 1%nat].

Lemma C7_witness :
  run plain_digest start
    [EvRead None; EvGetOk; EvResultOk O 206 good_headers true (Some abc);
     EvEnd 1%nat] = Some w_done /\
  quiescent w_done = true /\
  rs_aborted (w_stream w_done) = None /\
  requests (w_log w_done) <> [] /\
  terminals (w_log w_done) = 1%nat.
Proof.
  split; [vm_compute; reflexivity|]. split; [vm_compute; reflexivity|]. split; [vm_compute; reflexivity|].
  split; [vm_compute; discriminate|].
  apply (C7_one_terminal_notification plain_digest "/t" (Some test_policy)
           [EvRead None; EvGetOk;
            EvResultOk O 206 good_headers true (Some abc); EvEnd 1%nat]
           w_done ltac:(computed)).
  - computed.
  - computed.
  - vm_compute. discriminate.
Defined.

(** The first response carries no entity tag, the second one does. *)
Definition bare_headers : Headers := headers_of (Some "abc") "3" None.
Definition bare_events : list Event :=
  [EvRead None; EvGetOk; EvResultOk O 206 bare_headers true (Some a)].
Definition w_bare : World := after bare_events.
Definition w_bare_again : World := after (bare_events ++ [EvEnd 1%nat; EvGetOk]).
Definition w_bare_taken : World :=
  after (bare_events ++
         [EvEnd 1%nat; EvGetOk;
          EvResultOk 2%nat 200 changed_headers true (Some bc)]).

Lemma C9_witness :
  run plain_digest start [EvRead None; EvGetOk] = Some w_asked /\
  rs_exp_len (w_stream w_asked) = None /\
  step plain_digest w_asked (EvResultOk O 206 bare_headers true (Some a)) =
    Some w_bare /\
  h_etag bare_headers = None /\
  run plain_digest w_bare [EvEnd 1%nat; EvGetOk] = Some w_bare_again /\
  step plain_digest w_bare_again
    (EvResultOk 2%nat 200 changed_headers true (Some bc)) =
    Some w_bare_taken /\
  rs_exp_etag (w_stream w_bare_taken) = None /\
  rs_error (w_stream w_bare_taken) = None /\
  notifications (w_log w_bare_taken) = [OnData a; OnData bc].
Proof.
  do 6 (split; [vm_compute; reflexivity|]).
  destruct (C9_no_etag_no_validation plain_digest "/t" (Some test_policy)
              [EvRead None; EvGetOk] [EvEnd 1%nat; EvGetOk]
              w_asked w_bare w_bare_again O 206 bare_headers true (Some a)
              ltac:(computed) ltac:(computed) ltac:(computed) ltac:(computed) ltac:(computed)) as [_ Taken].
  destruct (Taken 2%nat 200 changed_headers true (Some bc) w_bare_taken
              ltac:(computed)) as (_ & _ & E & T & N).
  split; [exact T|]. split; [exact E|]. rewrite N. computed.
Defined.

(** Two failures use up the budget; the next short response renews it. *)
Definition worn_events : list Event :=
  [EvRead None; EvGetOk; EvResultErr O error_500; EvTimer; EvGetOk;
   EvResultErr 1%nat error_503; EvTimer; EvGetOk;
   EvResultOk 2%nat 206 good_headers true (Some a)].
Definition w_worn : World := after worn_events.
Definition w_renewed : World := after (worn_events ++ [EvEnd 3%nat]).

Lemma C10_witness :
  step plain_digest w_worn (EvEnd 3%nat) = Some w_renewed /\
  requests (w_log w_renewed) <> requests (w_log w_worn) /\
  op_timeouts_of (rs_retry (w_stream w_worn)) = O /\
  rs_retry (w_stream w_renewed) = Some (operation test_policy).
Proof.
  split; [vm_compute; reflexivity|]. split; [vm_compute; discriminate|].
  split; [vm_compute; reflexivity|].
  apply (C10_retry_budget_per_cycle plain_digest w_worn w_renewed
           (EvEnd 3%nat) ltac:(computed)).
  vm_compute. discriminate.
Defined.

(* ================================================================== *)
(** * The other properties at work *)

(** The consumer asks and [abort()] is called before the client calls
    back. *)
Definition w_aborted : World := after [EvRead None; EvAbort 7].

(** The first response declares no length. *)
Definition w_no_length : World :=
  after [EvRead None; EvGetOk; EvResultOk O 200 no_headers true (Some abc)].


Lemma X2_witness :
  run plain_digest start short_response = Some w_short /\
  rs_nbytesread (w_stream w_short) =
    Z.of_nat (List.length (List.concat (chunks (w_log w_short)))) /\
  rs_md5 (w_stream w_short) = List.concat (chunks (w_log w_short)).
Proof.
  split; [computed|].
  exact (X2_bytes_read_are_bytes_pushed plain_digest "/t" (Some test_policy)
           short_response w_short ltac:(computed)).
Defined.

Lemma X3_witness :
  run plain_digest start (short_response ++ [EvEnd 1%nat]) = Some w_resumed /\
  (List.length (p_gets (w_pending w_resumed)) +
   List.length (p_results (w_pending w_resumed)) +
   p_timers (w_pending w_resumed) +
   List.length (p_ends (w_pending w_resumed)) <= 1)%nat.
Proof.
  split; [computed|].
  exact (X3_one_activity_at_a_time plain_digest "/t" (Some test_policy)
           (short_response ++ [EvEnd 1%nat]) w_resumed ltac:(computed)).
Defined.

Lemma X4_witness :
  (0 < terminals (w_log w_done))%nat /\
  run plain_digest w_done [EvRead None; EvAbort 9] =
    Some (after [EvRead None; EvGetOk;
                 EvResultOk O 206 good_headers true (Some abc); EvEnd 1%nat;
                 EvRead None; EvAbort 9]) /\
  notifications
    (w_log (after [EvRead None; EvGetOk;
                   EvResultOk O 206 good_headers true (Some abc); EvEnd 1%nat;
                   EvRead None; EvAbort 9])) = notifications (w_log w_done).
Proof.
  split; [vm_compute; lia|]. split; [computed|].
  apply (X4_nothing_after_the_terminal_notification plain_digest "/t"
           (Some test_policy)
           [EvRead None; EvGetOk;
            EvResultOk O 206 good_headers true (Some abc); EvEnd 1%nat]
           [EvRead None; EvAbort 9] w_done).
  - computed.
  - vm_compute; lia.
  - computed.
Defined.

Lemma X5_witness :
  rs_aborted (w_stream w_aborted) <> None /\
  run plain_digest w_aborted [EvGetOk; EvRead None] =
    Some (after [EvRead None; EvAbort 7; EvGetOk; EvRead None]) /\
  requests (w_log (after [EvRead None; EvAbort 7; EvGetOk; EvRead None])) =
    requests (w_log w_aborted).
Proof.
  split; [vm_compute; discriminate|]. split; [computed|].
  apply (X5_aborted_stream_asks_no_more plain_digest
           [EvGetOk; EvRead None] w_aborted).
  - vm_compute. discriminate.
  - computed.
Defined.

Lemma X6_witness :
  In OnEnd (notifications (w_log w_done)) /\
  exists len,
    rs_exp_len (w_stream w_done) = Some len /\
    len <= Z.of_nat (List.length (List.concat (chunks (w_log w_done)))) /\
    forall m, rs_exp_md5 (w_stream w_done) = Some m ->
              m = plain_digest (List.concat (chunks (w_log w_done))).
Proof.
  split; [vm_compute; auto|].
  apply (X6_end_means_verified plain_digest "/t" (Some test_policy)
           [EvRead None; EvGetOk;
            EvResultOk O 206 good_headers true (Some abc); EvEnd 1%nat]
           w_done).
  - computed.
  - vm_compute. auto.
Defined.

Lemma X7_witness :
  step plain_digest w_asked (EvResultOk O 200 no_headers true (Some abc)) =
    Some w_no_length /\
  rs_exp_len (w_stream w_no_length) = Some 0 /\
  requests (w_log w_no_length) = requests (w_log w_asked).
Proof.
  split; [computed|].
  destruct (X7_no_declared_length_no_resume plain_digest "/t"
              (Some test_policy) [EvRead None; EvGetOk] []
              w_asked w_no_length w_no_length O 200 no_headers true
              (Some abc)
              ltac:(computed) ltac:(computed) ltac:(computed)
              ltac:(vm_compute; discriminate) ltac:(computed))
    as (E & Q & _).
  split; [exact E | exact Q].
Defined.

Lemma X8_witness :
  run plain_digest start [EvAbort 7; EvRead None; EvAbort 8] =
    Some (after [EvAbort 7; EvRead None; EvAbort 8]) /\
  w_log (after [EvAbort 7; EvRead None; EvAbort 8]) = [] /\
  w_pending (after [EvAbort 7; EvRead None; EvAbort 8]) = no_pending /\
  rs_aborted (w_stream (after [EvAbort 7; EvRead None; EvAbort 8])) = Some 7.
Proof.
  split; [computed|].
  exact (X8_aborted_before_the_first_read plain_digest "/t"
           (Some test_policy) 7 [EvRead None; EvAbort 8]
           (after [EvAbort 7; EvRead None; EvAbort 8]) ltac:(computed)).
Defined.

Lemma X9_witness :
  run plain_digest start (short_response ++ [EvEnd 1%nat]) = Some w_resumed /\
  Forall (fun o => rq_path o = "/t" /\ rq_retry o = test_policy)
         (requests (w_log w_resumed)).
Proof.
  split; [computed|].
  exact (X9_requests_carry_path_and_policy plain_digest "/t"
           (Some test_policy) (short_response ++ [EvEnd 1%nat]) w_resumed
           ltac:(computed)).
Defined.

(** The retry operation after the first failure. *)
Definition op_backing_off : RetryOperation :=
  match rs_retry (w_stream w_backing_off) with
  | Some op => op
  | None => operation test_policy
  end.

Lemma X10_witness :
  rs_retry (w_stream w_backing_off) = Some op_backing_off /\
  (List.length (op_errors op_backing_off) <= 3)%nat /\
  (rs_error (w_stream w_backing_off) = None ->
   (op_timeouts op_backing_off + List.length (op_errors op_backing_off))%nat
     = 2%nat).
Proof.
  split; [computed|].
  destruct (X10_retries_bound_the_failures_of_a_cycle plain_digest "/t"
              (Some test_policy)
              [EvRead None; EvGetOk; EvResultErr O error_500]
              w_backing_off op_backing_off ltac:(computed) ltac:(computed))
    as (A & B & _).
  split; [exact A | exact B].
Defined.

Lemma X11_witness :
  run plain_digest start [EvRead None; EvGetOk] = Some w_asked /\
  step plain_digest w_asked (EvResultOk O 206 good_headers true (Some a)) =
    Some w_first /\
  (chunks (w_log w_first) = chunks (w_log w_asked) \/
   exists buf,
     chunks (w_log w_first) = (chunks (w_log w_asked) ++ [buf])%list /\
     rs_reading (w_stream w_first) = false /\
     rs_reading (w_stream w_asked) = true).
Proof.
  split; [computed|]. split; [computed|].
  exact (X11_one_chunk_for_one_read plain_digest "/t" (Some test_policy)
           [EvRead None; EvGetOk] w_asked w_first
           (EvResultOk O 206 good_headers true (Some a))
           ltac:(computed) ltac:(computed)).
Defined.

Lemma X12_witness :
  step plain_digest (after [EvRead None]) (EvGetErr error_500) =
    Some (after [EvRead None; EvGetErr error_500]) /\
  notifications (w_log (after [EvRead None; EvGetErr error_500])) =
    (notifications (w_log (after [EvRead None])) ++
     [OnError (Upstream error_500)])%list /\
  quiescent (after [EvRead None; EvGetErr error_500]) = true.
Proof.
  split; [computed|].
  destruct (X12_failure_of_get_is_fatal plain_digest "/t" (Some test_policy)
              [EvRead None] (after [EvRead None])
              (after [EvRead None; EvGetErr error_500]) error_500
              ltac:(computed) ltac:(computed)) as (N & _ & Q & _).
  split; [exact N | exact Q].
Defined.

Lemma X13_witness :
  rs_aborted (w_stream w_aborted) <> None /\
  step plain_digest w_aborted EvGetOk =
    Some (after [EvRead None; EvAbort 7; EvGetOk]) /\
  w_log (after [EvRead None; EvAbort 7; EvGetOk]) =
    (w_log w_aborted ++ [ReqAbort (w_next w_aborted)])%list /\
  quiescent (after [EvRead None; EvAbort 7; EvGetOk]) = true.
Proof.
  split; [vm_compute; discriminate|]. split; [computed|].
  destruct (X13_request_started_after_abort_is_aborted plain_digest "/t"
              (Some test_policy) [EvRead None; EvAbort 7] w_aborted
              (after [EvRead None; EvAbort 7; EvGetOk])
              ltac:(computed) ltac:(vm_compute; discriminate)
              ltac:(computed)) as (L & _ & Q).
  split; [exact L | exact Q].
Defined.

Lemma X14_witness :
  rs_aborted (w_stream w_short) = None /\
  step plain_digest w_short (EvAbort 7) =
    Some (after (short_response ++ [EvAbort 7])) /\
  rs_aborted (w_stream (after (short_response ++ [EvAbort 7]))) = Some 7 /\
  exists req,
    rs_request (w_stream w_short) = Some req /\
    w_log (after (short_response ++ [EvAbort 7])) =
      (w_log w_short ++ [ReqAbort req; ResDestroy 1%nat])%list.
Proof.
  split; [computed|]. split; [computed|].
  destruct (X14_abort_tears_down_the_exchange plain_digest "/t"
              (Some test_policy) short_response w_short
              (after (short_response ++ [EvAbort 7])) 7
              ltac:(computed) ltac:(computed) ltac:(computed))
    as (A & _ & _ & _ & E & _).
  split; [exact A|]. apply E. computed.
Defined.

(* ------------------------------------------------------------------ *)

(** [test_cases] of tst.httpstream.js, with what the server reads of a
    case: its chunks, and its 'md5' when that is not null. *)
Definition test_cases : list (string * TestCase) :=
  [("zero", {| t_chunks := [Size 0]; t_md5 := None |});
   ("small", {| t_chunks := [Size 137]; t_md5 := None |});
   ("no-md5", {| t_chunks := [Size (5 * 1024)]; t_md5 := None |});
   ("large", {| t_chunks := [Size (128 * 1024 * 1024)]; t_md5 := None |});
   ("interrupted",
    {| t_chunks := map Size [137; 1024; 10 * 1024 * 1024; 47; 0; 36; 0; 10]%nat;
       t_md5 := None |});
   ("bad_md5", {| t_chunks := [Size (5 * 1024)]; t_md5 := Some "deadbeef" |});
   ("changed_etag",
    {| t_chunks := [Size (10 * 1024); Word "change_etag"; Size 1024];
       t_md5 := None |});
   ("transient_500",
    {| t_chunks := [Size 128; Word "error_500"; Size 256; Word "error_503";
                    Size 128; Word "error_500"; Size 1024; Word "error_503";
                    Size 57];
       t_md5 := None |});
   ("persistent_500",
    {| t_chunks := [Size 128; Word "error_500"; Word "error_503";
                    Word "error_503"; Size 517];
       t_md5 := None |});
   ("error_400",
    {| t_chunks := [Word "error_400"; Size 128]; t_md5 := None |})].

(** A naming of the errors of the client that is as the test cases want
    it for 400 and for 503. *)
Definition client_error_name (code : Z) : string :=
  if Z.eqb code 400 then "BadRequestError"
  else if Z.eqb code 503 then "ServiceUnavailableError"
  else "HttpError".

(** Every body is read in one piece. *)
Definition at_once (n : nat) : list (list (option nat)) := repeat [] n.




(** The state of the server for a case of 3 bytes, of which 1 is sent. *)
Definition one_sent : TestState :=
  {| ts_etag := "etag0"; ts_raw := abc; ts_md5sum := plain_digest abc;
     ts_nbytesread := 1; ts_nbytestotal := 3; ts_next_chunk := 1 |}.

Definition abc_case : TestCase :=
  {| t_chunks := [Size 1; Word "change_etag"; Size 2]; t_md5 := None |}.

Lemma X17_witness :
  exists reply state',
    fetchNext_from [Word "change_etag"; Size 2] abc_case one_sent 1 =
      (Normal reply, state') /\
    h_etag (rp_headers reply) = Some "etag1" /\
    ts_etag state' = "etag1" /\
    ts_next_chunk state' = 3%nat /\
    ts_nbytesread state' = 3%nat.
Proof.
  exact (X17_change_etag_switches_the_tag abc_case 1 2 [] one_sent 1
           (or_introl eq_refl)).
Defined.

(** Three samples of the memory, the first of them taken while warming
    up; the heap grows from the second to the third. *)
Definition history : list MemoryUsage :=
  [{| rss := 10; heapTotal := 5; heapUsed := 1 |};
   {| rss := 50; heapTotal := 20; heapUsed := 10 |};
   {| rss := 70; heapTotal := 30; heapUsed := 15 |}].

Definition marks_of_history : Watermarks :=
  {| m_rss := {| low := 50; low_which := 1; high := 70; high_which := 2 |};
     m_used := {| low := 10; low_which := 1; high := 10; high_which := 1 |};
     m_total := {| low := 20; low_which := 1; high := 20; high_which := 1 |} |}.

Lemma X18_witness :
  finish 1 3 history = Normal marks_of_history /\
  forall i m, nth_error history i = Some m -> (1 <= i)%nat ->
    low (m_rss marks_of_history) <= rss m <= high (m_rss marks_of_history).
Proof.
  split; [computed|].
  destruct (X18_rss_watermarks_are_least_and_greatest 1 3 history
              marks_of_history ltac:(computed)) as (_ & _ & K & _).
  exact K.
Defined.


(** 'transient_500' as entries. *)
Definition transient_entries : list Entry :=
  [Bytes 128; Status 500; Bytes 256; Status 503; Bytes 128; Status 500;
   Bytes 1024; Status 503; Bytes 57].

Definition transient_case : TestCase :=
  {| t_chunks := [Size 128; Word "error_500"; Size 256; Word "error_503";
                  Size 128; Word "error_500"; Size 1024; Word "error_503";
                  Size 57];
     t_md5 := None |}.

Lemma X20_witness :
  exists w ts,
    session plain_digest client_error_name test_cases "transient_500"
      (Some test_policy) (at_once 10) = Settled w ts /\
    w_crashed w = None /\
    List.concat (chunks (w_log w)) = make_raw 1593 /\
    notifications (w_log w) = (map OnData (chunks (w_log w)) ++ [OnEnd])%list.
Proof.
  pose proof (X20_sessions_come_out_as_the_entries_say plain_digest
                client_error_name test_cases "transient_500" transient_case
                transient_entries (Some test_policy) (at_once 10)
                ltac:(reflexivity) ltac:(reflexivity) ltac:(reflexivity)
                ltac:(repeat constructor; cbn; lia)
                ltac:(vm_compute; lia)) as K.
  exact K.
Defined.

Definition interrupted_case : TestCase :=
  {| t_chunks := map Size [137; 1024; 10 * 1024 * 1024; 47; 0; 36; 0; 10]%nat;
     t_md5 := None |}.

Lemma X21_witness :
  exists w ts,
    session plain_digest client_error_name test_cases "interrupted"
      (Some test_policy) (at_once 9) = Settled w ts /\
    w_crashed w = None /\
    List.concat (chunks (w_log w)) =
      make_raw (fold_right Nat.add O
                  [137; 1024; 10 * 1024 * 1024; 47; 0; 36; 0; 10]%nat) /\
    notifications (w_log w) = (map OnData (chunks (w_log w)) ++ [OnEnd])%list.
Proof.
  exact (X21_interrupted_cases_are_fetched plain_digest client_error_name
           test_cases "interrupted" interrupted_case
           137 [1024; 10 * 1024 * 1024; 47; 0; 36; 0; 10]%nat
           (Some test_policy) (at_once 9)
           ltac:(reflexivity) ltac:(reflexivity) ltac:(reflexivity)
           ltac:(left; lia) ltac:(simpl; lia)).
Defined.

(** A case that starts with a failure of the server. *)
Definition flaky_case : TestCase :=
  {| t_chunks := [Word "error_503"; Size 3]; t_md5 := None |}.

Lemma X22_witness :
  exists w,
    session plain_digest client_error_name [("flaky", flaky_case)] "flaky"
      (Some test_policy) (at_once 2) =
    ServerThrew (AssertionError "!test_state.hasOwnProperty(name)") w.
Proof.
  apply (X22_second_request_before_the_first_byte plain_digest
           client_error_name [("flaky", flaky_case)] "flaky" flaky_case
           (Word "error_503") [Size 3] (Some test_policy) (at_once 2)
           ltac:(reflexivity) ltac:(reflexivity) ltac:(reflexivity)).
  - left. exists 503. split; [reflexivity|]. split; [lia|].
    vm_compute. discriminate.
  - simpl; lia.
Defined.

Definition changed_etag_case : TestCase :=
  {| t_chunks := [Size (10 * 1024); Word "change_etag"; Size 1024];
     t_md5 := None |}.

Lemma X23_witness :
  exists w ts,
    session plain_digest client_error_name test_cases "changed_etag"
      (Some test_policy) (at_once 2) = Settled w ts /\
    w_crashed w = None /\
    notifications (w_log w) =
      (map OnData (chunks (w_log w)) ++ [OnError EtagMismatch])%list /\
    List.concat (chunks (w_log w)) =
      firstn (10 * 1024)
        (make_raw (expected_length (t_chunks changed_etag_case))).
Proof.
  apply (X23_changed_etag_is_found_out plain_digest client_error_name
           test_cases "changed_etag" changed_etag_case (10 * 1024) 1 1024 []
           (Some test_policy) (at_once 2)
           ltac:(reflexivity) ltac:(reflexivity) ltac:(reflexivity)
           ltac:(reflexivity)).
  - vm_compute; lia.
  - simpl; lia.
Defined.

Lemma X24_witness :
  rs_nbytesread (w_stream w_resumed) = 1 /\
  handleRequest plain_digest [("abc", abc_case)] "/abc"
    (rq_range (rqoptions (w_stream w_resumed))) [("abc", one_sent)] <>
    (Normal wrong_range, [("abc", one_sent)]).
Proof.
  split; [computed|].
  destruct (X24_range_is_taken_when_the_counts_agree plain_digest
              [("abc", abc_case)] "/abc" abc_case [("abc", one_sent)]
              one_sent (w_stream w_resumed)
              ltac:(reflexivity) ltac:(reflexivity) ltac:(vm_compute; reflexivity))
    as [[H _] _].
  intros E. apply (H E). computed.
Defined.
